(** * Teacher API (d3assessment): a shallow embedding of the controller and
    the entities, with the properties of its specification.

    The development follows the source tree:
    - [JS]            the string, array and [Set] operations the code calls;
    - [RegExp]        the backtracking matcher behind [notification.match];
    - [Storage]       the MySQL tables behind the TypeORM entities
                      ([user] with its discriminator column and the junction
                      table [teacher_students]);
    - [Student], [Teacher]   [src/entities/*.ts];
    - [ApiController] the four request handlers of the controller.

    Characters are code units below 256; a string is a sequence of them. *)

From Stdlib Require Import List String Ascii Bool Arith Lia Permutation.
Import ListNotations.
Local Open Scope string_scope.
Local Open Scope list_scope.
Local Open Scope nat_scope.

(* ================================================================== *)
(** ** JavaScript values used by the code *)

Module JS.

(** [String.prototype.toLowerCase] on one code unit: the letters A-Z and
    the upper-case letters of the Latin-1 block (U+00C0-U+00DE without the
    multiplication sign U+00D7) move up by 32. *)
Definition lowerChar (c : ascii) : ascii :=
  let n := nat_of_ascii c in
  if ((65 <=? n) && (n <=? 90))
     || ((192 <=? n) && (n <=? 222) && negb (n =? 215))
  then ascii_of_nat (n + 32) else c.


Fixpoint toLowerCase (s : string) : string :=
  match s with
  | EmptyString => EmptyString
  | String c s' => String (lowerChar c) (toLowerCase s')
  end.


(** The class [\s] of the regular expressions, on code units below 256:
    TAB, LF, VT, FF, CR, SPACE and NBSP. *)
Definition isWhiteSpace (c : ascii) : bool :=
  let n := nat_of_ascii c in
  ((9 <=? n) && (n <=? 13)) || (n =? 32) || (n =? 160).

(** [Array.prototype.includes] on an array of strings. *)
Definition includes (l : list string) (x : string) : bool :=
  existsb (String.eqb x) l.

(** [new Set(l)] keeps the first occurrence of each value, in insertion
    order; [Set.prototype.has] is membership and [[...set]] is the list. *)
Fixpoint Set_from (l : list string) : list string :=
  match l with
  | [] => []
  | x :: l' => x :: filter (fun y => negb (String.eqb x y)) (Set_from l')
  end.

Definition has (set : list string) (x : string) : bool := includes set x.

End JS.

(* ================================================================== *)
(** ** Regular expressions: the fragment used by the mention pattern *)

Module RegExp.

(** The nodes of [/(?<=@)(\S+@\S+\.\S+)/gi].  The capture group spans the
    whole match and the pattern has no cased letter, so neither the group
    nor the [i] flag changes what [match] returns. *)
Inductive Node :=
| LookbehindChar (c : ascii)   (* (?<=c)  *)
| Char (c : ascii)             (* a literal character *)
| NonSpacePlus.                (* \S+, greedy *)

Definition Pattern := list Node.

Definition nonSpace (c : ascii) : bool := negb (JS.isWhiteSpace c).

(** A continuation receives the input before the current position
    (reversed) and the input after it; it answers with the input left
    after the whole match. *)
Definition Cont := list ascii -> list ascii -> option (list ascii).

(** Greedy [p*]: take as many characters as possible, give one back at a
    time while the continuation fails. *)
Fixpoint greedyStar (p : ascii -> bool) (k : Cont) (before after : list ascii)
  : option (list ascii) :=
  match after with
  | c :: rest =>
      if p c then
        match greedyStar p k (c :: before) rest with
        | Some r => Some r
        | None => k before after
        end
      else k before after
  | [] => k before after
  end.

(** Greedy [p+]: one mandatory character, then [p*]. *)
Definition greedyPlus (p : ascii -> bool) (k : Cont) (before after : list ascii)
  : option (list ascii) :=
  match after with
  | c :: rest => if p c then greedyStar p k (c :: before) rest else None
  | [] => None
  end.

(** One match attempt at the current position. *)
Fixpoint run (pat : Pattern) (before after : list ascii) : option (list ascii) :=
  match pat with
  | [] => Some after
  | LookbehindChar c :: pat' =>
      match before with
      | x :: _ => if Ascii.eqb x c then run pat' before after else None
      | [] => None
      end
  | Char c :: pat' =>
      match after with
      | x :: rest => if Ascii.eqb x c then run pat' (x :: before) rest else None
      | [] => None
      end
  | NonSpacePlus :: pat' => greedyPlus nonSpace (run pat') before after
  end.

(** The loop of [String.prototype.match] for a global pattern: try every
    position from left to right; after a match the search resumes where
    the match ended (one further on after an empty match).  [skip] counts
    the characters still covered by the last match. *)
Fixpoint matchAll (pat : Pattern) (skip : nat) (before after : list ascii)
  : list (list ascii) :=
  match after with
  | [] =>
      match skip with
      | 0 => match run pat before [] with Some _ => [[]] | None => [] end
      | S _ => []
      end
  | c :: rest =>
      match skip with
      | S n => matchAll pat n (c :: before) rest
      | 0 =>
          match run pat before after with
          | Some after' =>
              let m := firstn (List.length after - List.length after') after in
              m :: matchAll pat (List.length m - 1) (c :: before) rest
          | None => matchAll pat 0 (c :: before) rest
          end
      end
  end.

(** [s.match(re)] for a global [re]: [null] when nothing matches. *)
Definition match_ (s : string) (pat : Pattern) : option (list string) :=
  match matchAll pat 0 [] (list_ascii_of_string s) with
  | [] => None
  | ms => Some (map string_of_list_ascii ms)
  end.

End RegExp.

(** [const emailRegex = /(?<=@)(\S+@\S+\.\S+)/gi] *)
Definition emailRegex : RegExp.Pattern :=
  [RegExp.LookbehindChar "@"; RegExp.NonSpacePlus; RegExp.Char "@";
   RegExp.NonSpacePlus; RegExp.Char "."; RegExp.NonSpacePlus]%char.


(* ================================================================== *)
(** ** Storage: the tables TypeORM creates for the entities

    [User] is declared with [@TableInheritance] on a column [type] and
    [@Unique(['email'])]: teachers and students share the table [user], one
    row each, told apart by the discriminator.  The [@ManyToMany] relation of
    [Teacher] owns the junction table [teacher_students]. *)

Module Storage.

Inductive EntityType := TeacherType | StudentType.

Definition EntityType_eqb (a b : EntityType) : bool :=
  match a, b with
  | TeacherType, TeacherType | StudentType, StudentType => true
  | _, _ => false
  end.

Record UserRow := mkRow
  { id : nat;                 (* @PrimaryGeneratedColumn *)
    type : EntityType;        (* discriminator column *)
    email : string;           (* @Column, unique *)
    isSuspended : bool }.     (* @Column of the child entity Student *)

Record Db := mkDb
  { user : list UserRow;
    teacher_students : list (nat * nat) }.   (* (teacher, student) *)

Definition empty : Db := mkDb [] [].

(** How MySQL compares two values of the column [email].  Neither the
    entities nor [ormconfig.ts] declare a collation, so the default one of
    the database applies, and it ignores case.  The tests of the repository
    rest on it: [POST /suspend], [GET /commonstudents] and the mentions of
    [POST /retrievefornotifications] hand the email of the request to the
    query as it came, and each has a test "should be case-insensitive" that
    finds the lower-case row through the upper-case email. *)
Definition collate_eq (a b : string) : bool :=
  String.eqb (JS.toLowerCase a) (JS.toLowerCase b).

(** [WHERE email = ?] restricted to one child entity; [findOne] takes the
    first row. *)
Definition hasEmail (ty : EntityType) (e : string) (r : UserRow) : bool :=
  EntityType_eqb (type r) ty && collate_eq (email r) e.

Definition findOne (db : Db) (ty : EntityType) (e : string) : option UserRow :=
  find (hasEmail ty e) (user db).

(** [WHERE email IN (...)] restricted to one child entity. *)
Definition emailIn (ty : EntityType) (emails : list string) (r : UserRow) : bool :=
  EntityType_eqb (type r) ty && existsb (collate_eq (email r)) emails.

Definition whereEmailIn (db : Db) (ty : EntityType) (emails : list string)
  : list UserRow :=
  filter (emailIn ty emails) (user db).

(** The rows joined to a teacher through the junction table. *)
Definition studentsOf (db : Db) (teacher : nat) : list UserRow :=
  flat_map (fun j => if fst j =? teacher
                     then filter (fun r => id r =? snd j) (user db)
                     else [])
           (teacher_students db).

(** The generated key of the next row.  (MySQL keeps a counter; no row is
    ever deleted here, so the counter and this value differ only by the
    gaps that rolled-back inserts leave, and no operation shows an id.) *)
Definition nextId (db : Db) : nat := S (fold_right Nat.max 0 (map id (user db))).

(** [INSERT INTO user]: refused by the unique index when a row, of either
    type, already has this email. *)
Definition insert (db : Db) (ty : EntityType) (e : string) (susp : bool)
  : option (Db * nat) :=
  if existsb (fun r => collate_eq (email r) e) (user db) then None
  else
    let i := nextId db in
    Some (mkDb (user db ++ [mkRow i ty e susp]) (teacher_students db), i).

(** [UPDATE user SET isSuspended = ? WHERE id = ?] *)
Definition setSuspended (db : Db) (i : nat) (susp : bool) : Db :=
  mkDb (map (fun r => if id r =? i
                      then mkRow (id r) (type r) (email r) susp
                      else r) (user db))
       (teacher_students db).

Definition linked (db : Db) (teacher student : nat) : bool :=
  existsb (fun j => (fst j =? teacher) && (snd j =? student)) (teacher_students db).

(** [INSERT INTO teacher_students], issued for the roster members that
    are not linked yet. *)
Definition link (teacher : nat) (db : Db) (student : nat) : Db :=
  if linked db teacher student then db
  else mkDb (user db) (teacher_students db ++ [(teacher, student)]).

End Storage.

(** What an [async] method gives back: a value, or a thrown [Error]. *)
Inductive Try (A : Type) :=
| Return (a : A)
| Throw (message : string).
Arguments Return {A} a.
Arguments Throw {A} message.

(* ================================================================== *)
(** ** src/entities/User.ts *)

Module User.

(** [queryByEmails(emails, type).getMany()] *)
Definition queryByEmails (db : Storage.Db) (emails : list string)
           (type : Storage.EntityType) : list Storage.UserRow :=
  Storage.whereEmailIn db type emails.

End User.

(* ================================================================== *)
(** ** src/entities/Student.ts *)

Module Student.

(** An instance in memory; [id] is undefined until the instance is saved. *)
Record t := mk
  { id : option nat;
    email : string;
    isSuspended : bool }.

(** [new Student(email)], with the default [isSuspended = false]. *)
Definition new (email : string) : t := mk None email false.

(** The instance TypeORM builds from a row. *)
Definition ofRow (r : Storage.UserRow) : t :=
  mk (Some (Storage.id r)) (Storage.email r) (Storage.isSuspended r).

Definition findOrCreateByEmails (db : Storage.Db) (emails : list string)
  : Try (list t) :=
  match emails with
  | [] => Return []
  | _ =>
      if existsb (fun e => String.length e =? 0) emails
      then Throw "email cannot be empty"
      else
        let emails := map JS.toLowerCase emails in
        (* find existing students *)
        let existing := map ofRow (User.queryByEmails db emails Storage.StudentType) in
        let existingEmails := JS.Set_from (map email existing) in
        (* create missing students *)
        let missingEmails := filter (fun e => negb (JS.has existingEmails e)) emails in
        let missing := map new missingEmails in
        Return (existing ++ missing)
  end.

(** [Student.findOne({email: ...})] *)
Definition findOne (db : Storage.Db) (email : string) : option t :=
  option_map ofRow (Storage.findOne db Storage.StudentType email).

(** [student.save()]: an INSERT for a new instance, an UPDATE of the row
    otherwise. [None] is a rejected promise. *)
Definition save (db : Storage.Db) (s : t) : option Storage.Db :=
  match id s with
  | Some i => Some (Storage.setSuspended db i (isSuspended s))
  | None => option_map fst (Storage.insert db Storage.StudentType (email s) (isSuspended s))
  end.

End Student.

(* ================================================================== *)
(** ** src/entities/Teacher.ts *)

Module Teacher.

Record t := mk
  { id : option nat;
    email : string;
    students : list Student.t }.

Definition ofRow (db : Storage.Db) (r : Storage.UserRow) : t :=
  mk (Some (Storage.id r)) (Storage.email r)
     (map Student.ofRow (Storage.studentsOf db (Storage.id r))).

(** [Teacher.findOne({where: {email: ...}})]; the relation is eager. *)
Definition findOne (db : Storage.Db) (email : string) : option t :=
  option_map (ofRow db) (Storage.findOne db Storage.TeacherType email).

Definition findOrCreate (db : Storage.Db) (email : string) : Try t :=
  if String.length email =? 0 then Throw "email cannot be empty"
  else
    let email := JS.toLowerCase email in
    match findOne db email with
    | Some teacher => Return teacher
    | None => Return (mk None email [])
    end.

(** [teacher.students.push(s)] for each [s] of [l], in order. *)
Definition pushAll (teacher : t) (l : list Student.t) : t :=
  mk (id teacher) (email teacher) (students teacher ++ l).

(** The cascade of [save] over the roster: a member without id is
    inserted.  A member with an id was loaded from its row and the callers
    do not modify it, so no UPDATE is issued for it. *)
Fixpoint cascade (db : Storage.Db) (l : list Student.t)
  : option (Storage.Db * list nat) :=
  match l with
  | [] => Some (db, [])
  | s :: l' =>
      match
        match Student.id s with
        | Some i => Some (db, i)
        | None => Storage.insert db Storage.StudentType
                                 (Student.email s) (Student.isSuspended s)
        end
      with
      | None => None
      | Some (db1, i) =>
          match cascade db1 l' with
          | None => None
          | Some (db2, ids) => Some (db2, i :: ids)
          end
      end
  end.

(** [teacher.save()]: one transaction that inserts the teacher when it is
    new, inserts the new roster members and adds the missing junction
    rows.  [None] is a rejected promise; nothing is written then. *)
Definition save (db : Storage.Db) (teacher : t) : option Storage.Db :=
  match
    match id teacher with
    | Some i => Some (db, i)
    | None => Storage.insert db Storage.TeacherType (email teacher) false
    end
  with
  | None => None
  | Some (db1, tid) =>
      match cascade db1 (students teacher) with
      | None => None
      | Some (db2, sids) => Some (fold_left (Storage.link tid) sids db2)
      end
  end.

End Teacher.

(* ================================================================== *)
(** ** src/controllers/api.controller.ts *)

(** The body of a response. *)
Inductive Body :=
| NoBody
| Message (message : string)
| Students (students : list string)
| Recipients (recipients : list string).

(** What a handler does with its request: it sends a response, or its
    promise rejects with an uncaught [Error] and nothing is sent. *)
Inductive Reply :=
| Response (status : nat) (body : Body)
| Rejected (message : string).

(** The value of the query parameter [teacher]: a single value, or an array
    when the parameter is repeated. *)
Inductive QueryValue :=
| Single (q : string)
| Array (qs : list string).

Module ApiController.

(** [POST /register] *)
Definition registerStudents (db : Storage.Db)
           (teacherEmail : string) (studentEmails : list string)
  : Storage.Db * Reply :=
  (* make sure the teacher is not also in the student list *)
  if JS.includes studentEmails teacherEmail
  then (db, Response 400 (Message "teacher and student cannot be the same"))
  else
    (* we create all missing users when needed *)
    match Teacher.findOrCreate db teacherEmail with
    | Throw e => (db, Rejected e)
    | Return teacher =>
        match Student.findOrCreateByEmails db studentEmails with
        | Throw e => (db, Rejected e)
        | Return students =>
            (* add students that are not registered to this teacher *)
            let currentStudentEmails :=
              JS.Set_from (map Student.email (Teacher.students teacher)) in
            let teacher :=
              Teacher.pushAll teacher
                (filter (fun s => negb (JS.has currentStudentEmails (Student.email s)))
                        students) in
            match Teacher.save db teacher with
            | None => (db, Response 500 NoBody)
            | Some db' => (db', Response 204 NoBody)
            end
        end
    end.

(** [studentLists.reduce((a, b) => a.filter(elem => b.includes(elem)))] on
    a non-empty array: the first list is the initial accumulator. *)
Definition intersect (a : list string) (rest : list (list string)) : list string :=
  fold_left (fun a b => filter (fun elem => JS.includes b elem) a) rest a.

(** Lines 106-114: the answer once the teachers are fetched. *)
Definition commonStudents (teachers : list Teacher.t) : Reply :=
  (* convert to array of arrays with student emails *)
  let studentLists := map (fun t => map Student.email (Teacher.students t)) teachers in
  match studentLists with
  | [] => Response 200 (Students [])          (* there are no students *)
  | a :: rest => Response 200 (Students (intersect a rest))
  end.

(** [GET /commonstudents] *)
Definition listCommonStudents (db : Storage.Db) (teacherQuery : QueryValue) : Reply :=
  (* teacher query may come as single value or as array *)
  let emails := match teacherQuery with
                | Array qs => qs
                | Single q => [q]
                end in
  let teachers :=
    map (Teacher.ofRow db) (Storage.whereEmailIn db Storage.TeacherType emails) in
  if List.length teachers <? List.length emails
  then Response 404 (Message "teacher not found")
  else commonStudents teachers.

(** [POST /suspend] *)
Definition suspendStudent (db : Storage.Db) (studentEmail : string)
  : Storage.Db * Reply :=
  match Student.findOne db studentEmail with
  | None => (db, Response 404 (Message "student not found"))
  | Some student =>
      let student := Student.mk (Student.id student) (Student.email student) true in
      match Student.save db student with
      | None => (db, Response 500 NoBody)
      | Some db' => (db', Response 204 NoBody)
      end
  end.

(** The candidates mentioned in a text and the rows they select:
    [WHERE u.isSuspended = 0 AND u.email IN (:...emails)] on [Student]. *)
Definition mentioned (db : Storage.Db) (matches : list string) : list Storage.UserRow :=
  filter (fun u => negb (Storage.isSuspended u))
         (Storage.whereEmailIn db Storage.StudentType matches).

(** [POST /retrievefornotifications] *)
Definition listStudentsForNotification (db : Storage.Db)
           (teacherEmail notification : string) : Reply :=
  match Teacher.findOne db teacherEmail with
  | None => Response 404 (Message "teacher not found")
  | Some teacher =>
      (* get all student emails of teacher that are not suspended *)
      let studentEmails :=
        map Student.email
            (filter (fun s => negb (Student.isSuspended s)) (Teacher.students teacher)) in
      (* get all @mentioned student emails from text that are not suspended *)
      let studentEmails :=
        match RegExp.match_ notification emailRegex with
        | Some matches =>
            let mentioned := mentioned db matches in
            if 0 <? List.length mentioned
            then studentEmails ++ map Storage.email mentioned
            else studentEmails
        | None => studentEmails
        end in
      (* remove duplicate student emails before sending *)
      Response 200 (Recipients (JS.Set_from studentEmails))
  end.

End ApiController.

(** The requests of the four routes, and the state after serving one. *)
Inductive Request :=
| Register (teacher : string) (students : list string)
| CommonStudents (teacher : QueryValue)
| Suspend (student : string)
| RetrieveForNotifications (teacher notification : string).

Definition serve (db : Storage.Db) (req : Request) : Storage.Db * Reply :=
  match req with
  | Register t ss => ApiController.registerStudents db t ss
  | CommonStudents q => (db, ApiController.listCommonStudents db q)
  | Suspend s => ApiController.suspendStudent db s
  | RetrieveForNotifications t n => (db, ApiController.listStudentsForNotification db t n)
  end.

(** The storage states the API can produce from an empty schema. *)
Inductive reachable : Storage.Db -> Prop :=
| reachable_empty : reachable Storage.empty
| reachable_serve db req : reachable db -> reachable (fst (serve db req)).

Fixpoint serveAll (db : Storage.Db) (reqs : list Request) : Storage.Db :=
  match reqs with
  | [] => db
  | r :: reqs' => serveAll (fst (serve db r)) reqs'
  end.

(* ================================================================== *)
(** ** Notions of the specification *)

(** The shape of a mention: no white space, and some [@] after at least one
    character, followed later by a [.] with at least one character on
    either side. *)
Definition Shape (m : list ascii) : Prop :=
  Forall (fun c => RegExp.nonSpace c = true) m /\
  exists u v w, m = u ++ "@"%char :: v ++ "."%char :: w
                /\ u <> [] /\ v <> [] /\ w <> [].

(** The input after a match: the end of the text or a white space. *)
Definition atBoundary (post : list ascii) : Prop :=
  match post with
  | [] => True
  | c :: _ => RegExp.nonSpace c = false
  end.

(** The tokens captured from a notification text. *)
Definition mentions (text : list ascii) : list (list ascii) :=
  RegExp.matchAll emailRegex 0 [] text.

(** An email in the form the code stores: lower case. *)
Abbreviation normalize := JS.toLowerCase (only parsing).

Definition key (r : Storage.UserRow) : string := normalize (Storage.email r).

(** The state of a schema that only the API has written to. *)
Record wellFormed (db : Storage.Db) : Prop := mkWellFormed
  { (* the primary key of [user] *)
    wf_ids : NoDup (map Storage.id (Storage.user db));
    (* the unique index on [email] *)
    wf_emails : NoDup (map key (Storage.user db));
    (* every stored email is in lower case *)
    wf_lower : Forall (fun r => normalize (Storage.email r) = Storage.email r)
                      (Storage.user db);
    (* the primary key of the junction table *)
    wf_links : NoDup (Storage.teacher_students db);
    (* the student side of a junction row is the row of a Student *)
    wf_link_student :
      Forall (fun j => exists r, In r (Storage.user db)
                                 /\ Storage.id r = snd j
                                 /\ Storage.type r = Storage.StudentType)
             (Storage.teacher_students db) }.

(** No two identities share a normalized email. *)
Definition uniqueEmails (db : Storage.Db) : Prop :=
  forall r1 r2, In r1 (Storage.user db) -> In r2 (Storage.user db) ->
                normalize (Storage.email r1) = normalize (Storage.email r2) ->
                r1 = r2.

(** A Student with this normalized email is stored. *)
Definition studentStored (db : Storage.Db) (e : string) : Prop :=
  exists r, In r (Storage.user db) /\ Storage.type r = Storage.StudentType
            /\ normalize (Storage.email r) = normalize e.

(** Every row keeps its place; the row [r] gets the flag and nothing else
    changes. *)
Definition onlySuspends (r : Storage.UserRow) (before after : list Storage.UserRow) : Prop :=
  Forall2 (fun x x' =>
             (x = r /\ x' = Storage.mkRow (Storage.id r) (Storage.type r)
                                          (Storage.email r) true)
             \/ (x <> r /\ x' = x))
          before after.


(** The emails each teacher of a list has on the roster. *)
Definition rosterEmails (t : Teacher.t) : list string :=
  map Student.email (Teacher.students t).

(** A state used in the examples: two teachers, [s2] on both rosters. *)
Definition exampleDb : Storage.Db :=
  Storage.mkDb
    [Storage.mkRow 1 Storage.TeacherType "t1@teacher.com" false;
     Storage.mkRow 2 Storage.StudentType "s1@student.com" false;
     Storage.mkRow 3 Storage.StudentType "s2@student.com" false;
     Storage.mkRow 4 Storage.TeacherType "t2@teacher.com" false;
     Storage.mkRow 5 Storage.StudentType "s3@student.com" true]
    [(1, 2); (1, 3); (4, 3); (4, 5)].

(** The requests that produce it. *)
Definition exampleRequests : list Request :=
  [Register "T1@teacher.com" ["s1@student.com"; "S2@student.com"];
   Register "t2@teacher.com" ["s2@student.com"; "s3@student.com"];
   Suspend "S3@STUDENT.COM"].


(** The mentions of a text, word by word, as the specification words them.
    The text is cut at white space.  In a word, a mention is looked for
    behind each [@], from left to right: the rest of the word is the
    candidate when it has the shape, some character, an [@], some character,
    a [.], some character. *)

(** [l] has a [.] with at least one character on either side. *)
Fixpoint dotInside (l : list ascii) : bool :=
  match l with
  | [] => false
  | _ :: l' =>
      match l' with
      | c :: _ :: _ => Ascii.eqb c "." || dotInside l'
      | _ => false
      end
  end.

(** [l] has an [@] after at least one character, and the part after the
    [@] has a [.] inside. *)
Fixpoint atInside (l : list ascii) : bool :=
  match l with
  | [] => false
  | _ :: l' =>
      match l' with
      | c :: rest => (Ascii.eqb c "@" && dotInside rest) || atInside l'
      | [] => false
      end
  end.

Definition hasShape (m : list ascii) : bool :=
  forallb RegExp.nonSpace m && atInside m.

Fixpoint firstMention (behindAt : bool) (w : list ascii) : option (list ascii) :=
  match w with
  | [] => None
  | c :: w' =>
      if behindAt && hasShape w then Some w
      else firstMention (Ascii.eqb c "@") w'
  end.

(** The words of a text: the parts between white-space characters. *)
Fixpoint words (text : list ascii) : list (list ascii) :=
  match text with
  | [] => [[]]
  | c :: text' =>
      if RegExp.nonSpace c
      then match words text' with
           | w :: ws => (c :: w) :: ws
           | [] => [[c]]
           end
      else [] :: words text'
  end.

Definition mentionOf (behindAt : bool) (w : list ascii) : list (list ascii) :=
  match firstMention behindAt w with
  | Some m => [m]
  | None => []
  end.

Definition mentionsByWord (text : list ascii) : list (list ascii) :=
  flat_map (mentionOf false) (words text).

(* ================================================================== *)
(** ** src/middleware/validation.middleware.ts *)

(** An error of express-validator: the parameter it is about, its message,
    and, for an error of [oneOf] only, the errors of the alternatives
    (parameter and message of each). *)
Inductive ValidationError :=
| mkValidationError (param msg : string) (nestedErrors : option (list (string * string))).


Module ValidationMiddleware.

Definition param (e : ValidationError) : string :=
  match e with mkValidationError p _ _ => p end.

Definition msg (e : ValidationError) : string :=
  match e with mkValidationError _ m _ => m end.

Definition nestedErrors (e : ValidationError) : option (list (string * string)) :=
  match e with mkValidationError _ _ n => n end.



End ValidationMiddleware.



(* ================================================================== *)
(** ** Further notions used in the properties *)

(** A Teacher with this normalized email is stored. *)
Definition teacherStored (db : Storage.Db) (e : string) : Prop :=
  exists r, In r (Storage.user db) /\ Storage.type r = Storage.TeacherType
            /\ normalize (Storage.email r) = normalize e.

(** The row [r'] is the row [r], possibly suspended since. *)
Definition sameIdentity (r r' : Storage.UserRow) : Prop :=
  Storage.id r' = Storage.id r /\ Storage.type r' = Storage.type r
  /\ Storage.email r' = Storage.email r
  /\ (Storage.isSuspended r = true -> Storage.isSuspended r' = true).

(** The emails on the roster of the teacher stored under [e], if any. *)
Definition rosterOf (db : Storage.Db) (e : string) : list string :=
  match Teacher.findOne db e with
  | Some teacher => rosterEmails teacher
  | None => []
  end.

(** The schema as registrations leave it: a junction row starts at the row
    of a Teacher, a Student is on the roster of some teacher, and a Teacher
    is never suspended. *)
Record registered (db : Storage.Db) : Prop := mkRegistered
  { reg_link_teacher :
      forall t s, In (t, s) (Storage.teacher_students db) ->
                  exists r, In r (Storage.user db) /\ Storage.id r = t
                            /\ Storage.type r = Storage.TeacherType;
    reg_student_linked :
      forall r, In r (Storage.user db) -> Storage.type r = Storage.StudentType ->
                exists t, In (t, Storage.id r) (Storage.teacher_students db);
    reg_teacher_active :
      forall r, In r (Storage.user db) -> Storage.type r = Storage.TeacherType ->
                Storage.isSuspended r = false }.

(** The two lists [Student.findOrCreateByEmails] works with: the rows of
    the Students it finds and the emails it finds no Student for. *)
Definition existingRows (db : Storage.Db) (emails : list string) : list Storage.UserRow :=
  User.queryByEmails db (map normalize emails) Storage.StudentType.

Definition missingEmails (db : Storage.Db) (emails : list string) : list string :=
  filter (fun e => negb (JS.has (JS.Set_from (map Student.email
                                                (map Student.ofRow (existingRows db emails))))
                                e))
         (map normalize emails).

(* ================================================================== *)
(** ** Strings, arrays and sets *)

Lemma lowerChar_idem c : JS.lowerChar (JS.lowerChar c) = JS.lowerChar c.
Proof. destruct c as [[] [] [] [] [] [] [] []]; reflexivity. Qed.


Lemma toLowerCase_idem s : JS.toLowerCase (JS.toLowerCase s) = JS.toLowerCase s.
Proof. induction s as [|c s IH]; simpl; [|rewrite lowerChar_idem, IH]; reflexivity. Qed.



Lemma normalize_idem e : normalize (normalize e) = normalize e.
Proof. apply toLowerCase_idem. Qed.

Lemma map_normalize_idem l : map normalize (map normalize l) = map normalize l.
Proof. rewrite map_map. apply map_ext. intros e. apply normalize_idem. Qed.

Lemma includes_In l x : JS.includes l x = true <-> In x l.
Proof.
  unfold JS.includes. rewrite existsb_exists. split.
  - intros (y & Hy & Heq). apply String.eqb_eq in Heq. subst. assumption.
  - intros H. exists x. split; [assumption|apply String.eqb_refl].
Qed.

Lemma includes_false l x : JS.includes l x = false <-> ~ In x l.
Proof.
  rewrite <- includes_In. destruct (JS.includes l x); split; intros; congruence.
Qed.

Lemma has_In set x : JS.has set x = true <-> In x set.
Proof. apply includes_In. Qed.

Lemma Set_from_In l x : In x (JS.Set_from l) <-> In x l.
Proof.
  induction l as [|y l IH]; simpl; [tauto|].
  rewrite filter_In, IH. split.
  - intros [H | [H _]]; auto.
  - intros [H | H]; auto. destruct (String.eqb y x) eqn:E.
    + apply String.eqb_eq in E. auto.
    + right. auto.
Qed.

Lemma Set_from_NoDup l : NoDup (JS.Set_from l).
Proof.
  induction l as [|y l IH]; simpl; constructor.
  - rewrite filter_In. intros [_ H]. rewrite String.eqb_refl in H. discriminate.
  - apply NoDup_filter. exact IH.
Qed.

Lemma has_Set_from l x : JS.has (JS.Set_from l) x = JS.includes l x.
Proof.
  destruct (JS.includes l x) eqn:E.
  - apply has_In, Set_from_In, includes_In. exact E.
  - apply includes_false. rewrite Set_from_In. apply includes_false. exact E.
Qed.

(* ================================================================== *)
(** ** The collation and the queries *)

Lemma collate_eq_true a b :
  Storage.collate_eq a b = true <-> normalize a = normalize b.
Proof. unfold Storage.collate_eq. apply String.eqb_eq. Qed.

Lemma collate_eq_normalize a b :
  Storage.collate_eq a (normalize b) = Storage.collate_eq a b.
Proof. unfold Storage.collate_eq. rewrite toLowerCase_idem. reflexivity. Qed.

Lemma collate_eq_casing a b b' :
  normalize b = normalize b' -> Storage.collate_eq a b = Storage.collate_eq a b'.
Proof. unfold Storage.collate_eq. intros ->. reflexivity. Qed.

Lemma EntityType_eqb_eq a b : Storage.EntityType_eqb a b = true <-> a = b.
Proof. destruct a, b; simpl; split; congruence. Qed.

Lemma hasEmail_true ty e r :
  Storage.hasEmail ty e r = true
  <-> Storage.type r = ty /\ normalize (Storage.email r) = normalize e.
Proof.
  unfold Storage.hasEmail. rewrite andb_true_iff, EntityType_eqb_eq, collate_eq_true.
  tauto.
Qed.

Lemma existsb_collate_true e emails :
  existsb (Storage.collate_eq e) emails = true
  <-> In (normalize e) (map normalize emails).
Proof.
  rewrite existsb_exists, in_map_iff. split.
  - intros (x & Hx & H). apply collate_eq_true in H. eauto.
  - intros (x & H & Hx). exists x. split; [assumption|]. apply collate_eq_true. auto.
Qed.

Lemma emailIn_true ty emails r :
  Storage.emailIn ty emails r = true
  <-> Storage.type r = ty /\ In (key r) (map normalize emails).
Proof.
  unfold Storage.emailIn. rewrite andb_true_iff, EntityType_eqb_eq, existsb_collate_true.
  tauto.
Qed.



Lemma findOne_casing db ty e e' :
  normalize e = normalize e' -> Storage.findOne db ty e = Storage.findOne db ty e'.
Proof.
  intros H. unfold Storage.findOne, Storage.hasEmail.
  induction (Storage.user db) as [|r l IH]; simpl; [reflexivity|].
  rewrite (collate_eq_casing _ _ _ H), IH. reflexivity.
Qed.

Lemma whereEmailIn_In db ty emails r :
  In r (Storage.whereEmailIn db ty emails)
  <-> In r (Storage.user db) /\ Storage.type r = ty /\ In (key r) (map normalize emails).
Proof. unfold Storage.whereEmailIn. rewrite filter_In, emailIn_true. tauto. Qed.

Lemma findOne_Some db ty e r :
  Storage.findOne db ty e = Some r ->
  In r (Storage.user db) /\ Storage.type r = ty /\ key r = normalize e.
Proof.
  unfold Storage.findOne. intros H. apply find_some in H. destruct H as [Hin H].
  apply hasEmail_true in H. tauto.
Qed.

Lemma findOne_None db ty e :
  Storage.findOne db ty e = None <->
  forall r, In r (Storage.user db) -> Storage.type r = ty -> key r <> normalize e.
Proof.
  unfold Storage.findOne. split.
  - intros H r Hin Hty Hk. pose proof (find_none _ _ H r Hin) as Hf.
    assert (Storage.hasEmail ty e r = true) by (apply hasEmail_true; auto). congruence.
  - intros H. destruct (find (Storage.hasEmail ty e) (Storage.user db)) as [r|] eqn:E;
      [|reflexivity].
    apply find_some in E. destruct E as [Hin E]. apply hasEmail_true in E.
    destruct E as [Hty Hk]. exfalso. exact (H r Hin Hty Hk).
Qed.

Lemma studentsOf_In db t r :
  In r (Storage.studentsOf db t)
  <-> In r (Storage.user db) /\ In (t, Storage.id r) (Storage.teacher_students db).
Proof.
  unfold Storage.studentsOf. rewrite in_flat_map. split.
  - intros ([t' s] & Hj & H). simpl in H. destruct (t' =? t) eqn:E; [|contradiction].
    apply Nat.eqb_eq in E. subst t'. apply filter_In in H. destruct H as [Hin H].
    apply Nat.eqb_eq in H. subst s. auto.
  - intros [Hin Hj]. exists (t, Storage.id r). split; [assumption|]. simpl.
    rewrite Nat.eqb_refl. apply filter_In. split; [assumption|apply Nat.eqb_refl].
Qed.

Lemma linked_true db t s :
  Storage.linked db t s = true <-> In (t, s) (Storage.teacher_students db).
Proof.
  unfold Storage.linked. rewrite existsb_exists. split.
  - intros ([t' s'] & Hin & H). simpl in H. apply andb_true_iff in H.
    destruct H as [H1 H2]. apply Nat.eqb_eq in H1, H2. subst. assumption.
  - intros H. exists (t, s). simpl. rewrite !Nat.eqb_refl. auto.
Qed.

(** Rows with different keys are different rows, and conversely under the
    unique index. *)
Lemma wellFormed_uniqueEmails db : wellFormed db -> uniqueEmails db.
Proof.
  intros [_ Hk _ _ _] r1 r2 H1 H2 Heq.
  revert Hk H1 H2. unfold key. induction (Storage.user db) as [|r l IH]; simpl; [tauto|].
  intros Hk. inversion Hk as [|? ? Hnin Hk']; subst.
  intros [-> | H1] [-> | H2]; auto.
  - exfalso. apply Hnin. rewrite Heq. apply in_map_iff. eauto.
  - exfalso. apply Hnin. rewrite <- Heq. apply in_map_iff. eauto.
Qed.

Lemma wellFormed_stored_lower db r :
  wellFormed db -> In r (Storage.user db) -> key r = Storage.email r.
Proof.
  intros [_ _ Hl _ _] Hin. rewrite Forall_forall in Hl. apply Hl. exact Hin.
Qed.

Lemma wellFormed_id_inj db r1 r2 :
  wellFormed db -> In r1 (Storage.user db) -> In r2 (Storage.user db) ->
  Storage.id r1 = Storage.id r2 -> r1 = r2.
Proof.
  intros [Hi _ _ _ _]. revert Hi. induction (Storage.user db) as [|r l IH]; simpl; [tauto|].
  intros Hi. inversion Hi as [|? ? Hnin Hi']; subst.
  intros [-> | H1] [-> | H2] Heq; auto.
  - exfalso. apply Hnin. rewrite Heq. apply in_map. assumption.
  - exfalso. apply Hnin. rewrite <- Heq. apply in_map. assumption.
Qed.

(* ================================================================== *)
(** ** Writes: INSERT, the cascade of [save] and the junction rows *)

Lemma NoDup_snoc {A} (l : list A) x : NoDup l -> ~ In x l -> NoDup (l ++ [x]).
Proof.
  intros Hl Hx. apply NoDup_app; auto.
  - repeat constructor. simpl. tauto.
  - intros y Hy [<- | []]. auto.
Qed.

Lemma nextId_fresh db r : In r (Storage.user db) -> Storage.id r < Storage.nextId db.
Proof.
  unfold Storage.nextId. induction (Storage.user db) as [|x l IH]; simpl; [tauto|].
  intros [-> | H]; [lia|]. specialize (IH H). lia.
Qed.

Lemma insert_Some db ty e susp db' i :
  Storage.insert db ty e susp = Some (db', i) ->
  (forall r, In r (Storage.user db) -> key r <> normalize e)
  /\ i = Storage.nextId db
  /\ db' = Storage.mkDb (Storage.user db ++ [Storage.mkRow i ty e susp])
                        (Storage.teacher_students db).
Proof.
  unfold Storage.insert.
  destruct (existsb _ _) eqn:E; [discriminate|]. intros H. injection H as <- <-.
  repeat split. intros r Hin Hk.
  assert (existsb (fun r => Storage.collate_eq (Storage.email r) e) (Storage.user db) = true).
  { apply existsb_exists. exists r. split; [assumption|]. apply collate_eq_true. exact Hk. }
  congruence.
Qed.

Lemma insert_None db ty e susp :
  Storage.insert db ty e susp = None
  <-> exists r, In r (Storage.user db) /\ key r = normalize e.
Proof.
  unfold Storage.insert.
  destruct (existsb _ _) eqn:E; split; try discriminate; auto.
  - intros _. apply existsb_exists in E. destruct E as (r & Hin & H).
    apply collate_eq_true in H. eauto.
  - intros (r & Hin & Hk). exfalso.
    assert (existsb (fun r => Storage.collate_eq (Storage.email r) e) (Storage.user db) = true).
    { apply existsb_exists. exists r. split; [assumption|]. apply collate_eq_true. exact Hk. }
    congruence.
Qed.

Lemma insert_wellFormed db ty e susp db' i :
  wellFormed db -> normalize e = e ->
  Storage.insert db ty e susp = Some (db', i) -> wellFormed db'.
Proof.
  intros [Hi Hk Hl Hj Hs] He H. apply insert_Some in H. destruct H as (Hfree & -> & ->).
  constructor; simpl.
  - rewrite map_app. simpl. apply NoDup_snoc; [assumption|].
    intros Hin. apply in_map_iff in Hin. destruct Hin as (r & Hr & Hin).
    apply nextId_fresh in Hin. lia.
  - rewrite map_app. simpl. apply NoDup_snoc; [assumption|].
    intros Hin. apply in_map_iff in Hin. destruct Hin as (r & Hr & Hin).
    apply (Hfree r Hin). exact Hr.
  - apply Forall_app. split; [assumption|]. repeat constructor. exact He.
  - assumption.
  - eapply Forall_impl; [|exact Hs]. intros j (r & Hin & H). exists r.
    split; [apply in_or_app; auto|assumption].
Qed.

(** What the cascade leaves behind: the junction table is untouched, rows
    are only added, and every member has its row. *)
Lemma cascade_spec l : forall db db' ids,
  Teacher.cascade db l = Some (db', ids) ->
  Storage.teacher_students db' = Storage.teacher_students db
  /\ (exists added, Storage.user db' = Storage.user db ++ added)
  /\ Forall2 (fun s i =>
                match Student.id s with
                | Some j => i = j
                | None => In (Storage.mkRow i Storage.StudentType (Student.email s)
                                            (Student.isSuspended s))
                             (Storage.user db')
                end) l ids.
Proof.
  induction l as [|s l IH]; intros db db' ids H; simpl in H.
  - injection H as <- <-. repeat split; [exists []; rewrite app_nil_r; reflexivity|constructor].
  - destruct (Student.id s) as [j|] eqn:Hid.
    + destruct (Teacher.cascade db l) as [[db2 ids']|] eqn:Hc; [|discriminate].
      injection H as <- <-. destruct (IH _ _ _ Hc) as (Hj & Ha & Hf).
      repeat split; auto. constructor; [rewrite Hid; reflexivity|assumption].
    + destruct (Storage.insert db Storage.StudentType (Student.email s) (Student.isSuspended s))
        as [[db1 i]|] eqn:Hins; [|discriminate].
      destruct (Teacher.cascade db1 l) as [[db2 ids']|] eqn:Hc; [|discriminate].
      injection H as <- <-. destruct (IH _ _ _ Hc) as (Hj & (added & Ha) & Hf).
      apply insert_Some in Hins. destruct Hins as (_ & _ & ->). simpl in *.
      repeat split; auto.
      * rewrite Ha, <- app_assoc. eauto.
      * constructor; [|assumption]. rewrite Hid, Ha.
        apply in_or_app. left. apply in_or_app. right. left. reflexivity.
Qed.

Lemma cascade_wellFormed l : forall db db' ids,
  wellFormed db ->
  Forall (fun s => Student.id s = None -> normalize (Student.email s) = Student.email s) l ->
  Teacher.cascade db l = Some (db', ids) -> wellFormed db'.
Proof.
  induction l as [|s l IH]; intros db db' ids Hwf Hl H; simpl in H.
  - injection H as <- <-. assumption.
  - inversion Hl as [|? ? Hs Hl']; subst.
    destruct (Student.id s) as [j|] eqn:Hid.
    + destruct (Teacher.cascade db l) as [[db2 ids']|] eqn:Hc; [|discriminate].
      injection H as <- <-. eapply IH; eauto.
    + destruct (Storage.insert db Storage.StudentType (Student.email s) (Student.isSuspended s))
        as [[db1 i]|] eqn:Hins; [|discriminate].
      destruct (Teacher.cascade db1 l) as [[db2 ids']|] eqn:Hc; [|discriminate].
      injection H as <- <-. eapply IH; [|eassumption|eassumption].
      eapply insert_wellFormed; eauto.
Qed.

(** Members loaded from their rows pass through the cascade unchanged. *)
Lemma cascade_loaded rows l : forall db,
  Teacher.cascade db (map Student.ofRow rows ++ l)
  = match Teacher.cascade db l with
    | Some (db', ids) => Some (db', map Storage.id rows ++ ids)
    | None => None
    end.
Proof.
  induction rows as [|r rows IH]; intros db; simpl.
  - destruct (Teacher.cascade db l) as [[db' ids]|]; reflexivity.
  - rewrite IH. destruct (Teacher.cascade db l) as [[db' ids]|]; reflexivity.
Qed.

(** A member whose email is taken makes the cascade fail. *)
Lemma cascade_taken l : forall db s,
  In s l -> Student.id s = None ->
  (exists r, In r (Storage.user db) /\ key r = normalize (Student.email s)) ->
  Teacher.cascade db l = None.
Proof.
  induction l as [|x l IH]; intros db s Hin Hid Htaken; [contradiction|]. simpl.
  destruct Hin as [-> | Hin].
  - rewrite Hid. apply (insert_None db Storage.StudentType _ (Student.isSuspended s)) in Htaken.
    rewrite Htaken. reflexivity.
  - destruct (Student.id x) as [j|].
    + rewrite (IH db s Hin Hid Htaken). reflexivity.
    + destruct (Storage.insert db Storage.StudentType (Student.email x) (Student.isSuspended x))
        as [[db1 i]|] eqn:Hins; [|reflexivity].
      rewrite (IH db1 s Hin Hid); [reflexivity|].
      apply insert_Some in Hins. destruct Hins as (_ & _ & ->). simpl.
      destruct Htaken as (r & Hr & Hk). exists r. split; [apply in_or_app; auto|assumption].
Qed.

(** The junction rows after linking a list of students. *)
Lemma links_spec t sids : forall db,
  Storage.user (fold_left (Storage.link t) sids db) = Storage.user db
  /\ (forall j, In j (Storage.teacher_students (fold_left (Storage.link t) sids db))
                <-> In j (Storage.teacher_students db) \/ (fst j = t /\ In (snd j) sids))
  /\ (NoDup (Storage.teacher_students db) ->
      NoDup (Storage.teacher_students (fold_left (Storage.link t) sids db))).
Proof.
  induction sids as [|s sids IH]; intros db; simpl.
  - repeat split; auto. intros [H | [_ []]]. exact H.
  - destruct (IH (Storage.link t db s)) as (Hu & Hj & Hn).
    assert (Hl : Storage.user (Storage.link t db s) = Storage.user db
                 /\ (forall j, In j (Storage.teacher_students (Storage.link t db s))
                               <-> In j (Storage.teacher_students db) \/ j = (t, s))
                 /\ (NoDup (Storage.teacher_students db) ->
                     NoDup (Storage.teacher_students (Storage.link t db s)))).
    { unfold Storage.link. destruct (Storage.linked db t s) eqn:E.
      - apply linked_true in E. repeat split; auto. intros [H | ->]; assumption.
      - simpl. repeat split.
        + intros H. apply in_app_or in H. simpl in H. intuition.
        + intros [H | ->]; apply in_or_app; simpl; auto.
        + intros H. apply NoDup_snoc; [assumption|]. intros Hin.
          apply linked_true in Hin. congruence. }
    destruct Hl as (Hu' & Hj' & Hn').
    split; [congruence|]. split; [|auto].
    intros [t' s']. rewrite Hj, Hj'. simpl. split.
    + intros [[H | H] | [-> H]]; auto. injection H as -> ->. auto.
    + intros [H | [-> [-> | H]]]; auto.
Qed.

Lemma links_present t sids : forall db,
  (forall s, In s sids -> In (t, s) (Storage.teacher_students db)) ->
  fold_left (Storage.link t) sids db = db.
Proof.
  induction sids as [|s sids IH]; intros db H; simpl; [reflexivity|].
  assert (Storage.link t db s = db) as ->.
  { unfold Storage.link. rewrite (proj2 (linked_true db t s)); [reflexivity|].
    apply H. left. reflexivity. }
  apply IH. intros s' Hs'. apply H. right. assumption.
Qed.

Lemma links_wellFormed t sids db :
  wellFormed db ->
  (forall s, In s sids -> exists r, In r (Storage.user db) /\ Storage.id r = s
                                    /\ Storage.type r = Storage.StudentType) ->
  wellFormed (fold_left (Storage.link t) sids db).
Proof.
  intros [Hi Hk Hl Hj Hs] Hsids.
  destruct (links_spec t sids db) as (Hu & Hin & Hn).
  constructor; rewrite ?Hu; auto.
  apply Forall_forall. intros j Hjin. apply Hin in Hjin. destruct Hjin as [H | [_ H]].
  - rewrite Forall_forall in Hs. auto.
  - auto.
Qed.

Lemma setSuspended_wellFormed db i susp :
  wellFormed db -> wellFormed (Storage.setSuspended db i susp).
Proof.
  intros [Hi Hk Hl Hj Hs].
  assert (Hid : map Storage.id (Storage.user (Storage.setSuspended db i susp))
                = map Storage.id (Storage.user db)).
  { simpl. rewrite map_map. apply map_ext. intros r. destruct (Storage.id r =? i); reflexivity. }
  assert (Hkey : map key (Storage.user (Storage.setSuspended db i susp))
                 = map key (Storage.user db)).
  { simpl. rewrite map_map. apply map_ext. intros r. destruct (Storage.id r =? i); reflexivity. }
  constructor; rewrite ?Hid, ?Hkey; auto.
  - simpl. apply Forall_map. eapply Forall_impl; [|exact Hl]. intros r Hr.
    destruct (Storage.id r =? i); assumption.
  - simpl. eapply Forall_impl; [|exact Hs]. intros j (r & Hin & Hr & Hty).
    exists (if Storage.id r =? i
            then Storage.mkRow (Storage.id r) (Storage.type r) (Storage.email r) susp else r).
    split; [|destruct (Storage.id r =? i); auto].
    apply in_map_iff. exists r. auto.
Qed.

(* ================================================================== *)
(** ** Find-or-create *)

Lemma whereEmailIn_nil db ty : Storage.whereEmailIn db ty [] = [].
Proof.
  unfold Storage.whereEmailIn, Storage.emailIn.
  induction (Storage.user db) as [|r l IH]; simpl; [reflexivity|].
  rewrite andb_false_r. exact IH.
Qed.

Lemma map_email_ofRow rows :
  map Student.email (map Student.ofRow rows) = map Storage.email rows.
Proof. rewrite map_map. reflexivity. Qed.

(** The students found, then one new student per entry that is not found. *)
Lemma findOrCreateByEmails_eq db emails :
  existsb (fun e => String.length e =? 0) emails = false ->
  Student.findOrCreateByEmails db emails
  = Return
      (map Student.ofRow (Storage.whereEmailIn db Storage.StudentType (map normalize emails))
       ++ map Student.new
            (filter (fun e => negb (JS.includes
                       (map Storage.email
                            (Storage.whereEmailIn db Storage.StudentType (map normalize emails)))
                       e))
                    (map normalize emails))).
Proof.
  intros E. unfold Student.findOrCreateByEmails, User.queryByEmails.
  destruct emails as [|e emails].
  - rewrite whereEmailIn_nil. reflexivity.
  - rewrite E.
    assert (Hf : forall rows x,
               negb (JS.has (JS.Set_from (map Student.email (map Student.ofRow rows))) x)
               = negb (JS.includes (map Storage.email rows) x)).
    { intros rows x. rewrite has_Set_from, map_email_ofRow. reflexivity. }
    rewrite (filter_ext _ _ (Hf _)). reflexivity.
Qed.

Lemma findOrCreateByEmails_empty_entry db emails :
  existsb (fun e => String.length e =? 0) emails = true ->
  Student.findOrCreateByEmails db emails = Throw "email cannot be empty".
Proof.
  intros E. unfold Student.findOrCreateByEmails. destruct emails as [|e emails].
  - discriminate.
  - rewrite E. reflexivity.
Qed.

Lemma findOrCreateByEmails_Return db emails students :
  Student.findOrCreateByEmails db emails = Return students ->
  existsb (fun e => String.length e =? 0) emails = false
  /\ students
     = map Student.ofRow (Storage.whereEmailIn db Storage.StudentType (map normalize emails))
       ++ map Student.new
            (filter (fun e => negb (JS.includes
                       (map Storage.email
                            (Storage.whereEmailIn db Storage.StudentType (map normalize emails)))
                       e))
                    (map normalize emails)).
Proof.
  destruct (existsb (fun e => String.length e =? 0) emails) eqn:E.
  - rewrite (findOrCreateByEmails_empty_entry _ _ E). discriminate.
  - rewrite (findOrCreateByEmails_eq _ _ E). intros H. split; congruence.
Qed.

Lemma findOrCreateByEmails_Throw db emails msg :
  Student.findOrCreateByEmails db emails = Throw msg ->
  forall db', Student.findOrCreateByEmails db' emails = Throw msg.
Proof.
  destruct (existsb (fun e => String.length e =? 0) emails) eqn:E.
  - intros H db'. rewrite (findOrCreateByEmails_empty_entry db _ E) in H.
    rewrite (findOrCreateByEmails_empty_entry db' _ E). exact H.
  - rewrite (findOrCreateByEmails_eq _ _ E). discriminate.
Qed.

Lemma findOrCreate_Return db t teacher :
  Teacher.findOrCreate db t = Return teacher ->
  (String.length t =? 0) = false
  /\ ((exists tr, Storage.findOne db Storage.TeacherType (normalize t) = Some tr
                  /\ teacher = Teacher.ofRow db tr)
      \/ (Storage.findOne db Storage.TeacherType (normalize t) = None
          /\ teacher = Teacher.mk None (normalize t) [])).
Proof.
  unfold Teacher.findOrCreate, Teacher.findOne.
  destruct (String.length t =? 0); [discriminate|].
  destruct (Storage.findOne db Storage.TeacherType (normalize t)) as [tr|]; simpl;
    intros H; injection H as <-; eauto.
Qed.

Lemma findOrCreate_Throw db t msg :
  Teacher.findOrCreate db t = Throw msg ->
  forall db', Teacher.findOrCreate db' t = Throw msg.
Proof.
  unfold Teacher.findOrCreate. destruct (String.length t =? 0); [auto|].
  destruct (Teacher.findOne db (normalize t)); discriminate.
Qed.

(* ================================================================== *)
(** ** [teacher.save()] *)

Lemma save_wellFormed db teacher db' :
  wellFormed db ->
  (Teacher.id teacher = None -> normalize (Teacher.email teacher) = Teacher.email teacher) ->
  Forall (fun s => match Student.id s with
                   | None => normalize (Student.email s) = Student.email s
                   | Some i => exists r, In r (Storage.user db) /\ Storage.id r = i
                                         /\ Storage.type r = Storage.StudentType
                   end) (Teacher.students teacher) ->
  Teacher.save db teacher = Some db' -> wellFormed db'.
Proof.
  intros Hwf Ht Hs H. unfold Teacher.save in H.
  destruct (match Teacher.id teacher with
            | Some i => Some (db, i)
            | None => Storage.insert db Storage.TeacherType (Teacher.email teacher) false
            end) as [[db1 tid]|] eqn:H1; [|discriminate].
  destruct (Teacher.cascade db1 (Teacher.students teacher)) as [[db2 sids]|] eqn:H2;
    [|discriminate].
  injection H as <-.
  assert (Hwf1 : wellFormed db1 /\ exists added, Storage.user db1 = Storage.user db ++ added).
  { destruct (Teacher.id teacher).
    - injection H1 as <- <-. split; [assumption|]. exists []. rewrite app_nil_r. reflexivity.
    - split; [eapply insert_wellFormed; eauto|].
      apply insert_Some in H1. destruct H1 as (_ & _ & ->). simpl. eauto. }
  destruct Hwf1 as [Hwf1 (added1 & Ha1)].
  assert (Hwf2 : wellFormed db2).
  { eapply cascade_wellFormed; [exact Hwf1| |exact H2].
    eapply Forall_impl; [|exact Hs]. intros s Hm Hid. cbv beta in Hm. rewrite Hid in Hm. exact Hm. }
  apply cascade_spec in H2. destruct H2 as (_ & (added2 & Ha2) & Hf).
  apply links_wellFormed; [assumption|].
  intros i Hi. rewrite Forall_forall in Hs.
  assert (Hex : exists s, In s (Teacher.students teacher)
                          /\ match Student.id s with
                             | Some j => i = j
                             | None => In (Storage.mkRow i Storage.StudentType (Student.email s)
                                                         (Student.isSuspended s))
                                          (Storage.user db2)
                             end).
  { clear - Hf Hi. induction Hf as [|s i' l ids Hsi Hf IH]; [contradiction|].
    destruct Hi as [-> | Hi].
    - exists s. split; [left; reflexivity|assumption].
    - destruct (IH Hi) as (s' & Hin & H). exists s'. split; [right; assumption|assumption]. }
  destruct Hex as (s & Hin & Hm). specialize (Hs s Hin).
  destruct (Student.id s) as [j|].
  - subst j. destruct Hs as (r & Hr & Hid & Hty). exists r.
    split; [|auto]. rewrite Ha2, Ha1. apply in_or_app. left. apply in_or_app. auto.
  - eexists. split; [exact Hm|]. auto.
Qed.

(** The state after a successful [save]: the row of the teacher, and for
    every roster member a row and a junction row. *)
Lemma save_post db teacher db' :
  Teacher.save db teacher = Some db' ->
  exists tid added,
    match Teacher.id teacher with
    | Some i => tid = i /\ Storage.user db' = Storage.user db ++ added
    | None => Storage.user db'
              = Storage.user db
                ++ Storage.mkRow tid Storage.TeacherType (Teacher.email teacher) false :: added
    end
    /\ (forall j, In j (Storage.teacher_students db) -> In j (Storage.teacher_students db'))
    /\ (forall s, In s (Teacher.students teacher) ->
          exists i, In (tid, i) (Storage.teacher_students db')
                    /\ match Student.id s with
                       | Some j => i = j
                       | None => In (Storage.mkRow i Storage.StudentType (Student.email s)
                                                   (Student.isSuspended s))
                                    (Storage.user db')
                       end).
Proof.
  intros H. unfold Teacher.save in H.
  destruct (match Teacher.id teacher with
            | Some i => Some (db, i)
            | None => Storage.insert db Storage.TeacherType (Teacher.email teacher) false
            end) as [[db1 tid]|] eqn:H1; [|discriminate].
  destruct (Teacher.cascade db1 (Teacher.students teacher)) as [[db2 sids]|] eqn:H2;
    [|discriminate].
  injection H as <-.
  apply cascade_spec in H2. destruct H2 as (Hj2 & (added & Ha2) & Hf).
  destruct (links_spec tid sids db2) as (Hu & Hin & _).
  exists tid, added. rewrite Hu. split; [|split].
  - destruct (Teacher.id teacher).
    + injection H1 as <- <-. auto.
    + apply insert_Some in H1. destruct H1 as (_ & _ & ->). simpl in Ha2.
      rewrite Ha2, <- app_assoc. reflexivity.
  - intros j Hjin. apply Hin. left. rewrite Hj2.
    destruct (Teacher.id teacher).
    + injection H1 as <- <-. assumption.
    + apply insert_Some in H1. destruct H1 as (_ & _ & ->). assumption.
  - intros s Hs.
    assert (Hex : exists i, In i sids
                            /\ match Student.id s with
                               | Some j => i = j
                               | None => In (Storage.mkRow i Storage.StudentType
                                               (Student.email s) (Student.isSuspended s))
                                            (Storage.user db2)
                               end).
    { clear - Hf Hs. induction Hf as [|s' i' l ids Hsi Hf IH]; [contradiction|].
      destruct Hs as [-> | Hs].
      - exists i'. split; [left; reflexivity|assumption].
      - destruct (IH Hs) as (i & Hi & H). exists i. split; [right; assumption|assumption]. }
    destruct Hex as (i & Hi & Hm). exists i. split; [|exact Hm].
    apply Hin. right. auto.
Qed.

(* ================================================================== *)
(** ** [registerStudents] keeps the schema well formed *)

Lemma ofRow_roster_typed db tr :
  wellFormed db ->
  Forall (fun s => match Student.id s with
                   | None => normalize (Student.email s) = Student.email s
                   | Some i => exists r, In r (Storage.user db) /\ Storage.id r = i
                                         /\ Storage.type r = Storage.StudentType
                   end) (Teacher.students (Teacher.ofRow db tr)).
Proof.
  intros Hwf. simpl. apply Forall_map. apply Forall_forall. intros r Hr. simpl.
  apply studentsOf_In in Hr. destruct Hr as [Hin Hj].
  destruct Hwf as [_ _ _ _ Hs]. rewrite Forall_forall in Hs.
  destruct (Hs _ Hj) as (r' & Hr' & Hid & Hty). exists r'. auto.
Qed.

Lemma registerStudents_wellFormed db t ss :
  wellFormed db -> wellFormed (fst (ApiController.registerStudents db t ss)).
Proof.
  intros Hwf. unfold ApiController.registerStudents.
  destruct (JS.includes ss t); [assumption|].
  destruct (Teacher.findOrCreate db t) as [teacher|] eqn:Ht; [|assumption].
  destruct (Student.findOrCreateByEmails db ss) as [students|] eqn:Hs; [|assumption].
  match goal with |- context [Teacher.save db ?x] => destruct (Teacher.save db x) as [db'|] eqn:Hsave end;
    [|assumption].
  simpl. eapply save_wellFormed; [exact Hwf| | |exact Hsave].
  - simpl. apply findOrCreate_Return in Ht. destruct Ht as [_ [(tr & _ & ->) | (_ & ->)]]; simpl.
    + discriminate.
    + intros _. apply toLowerCase_idem.
  - simpl. apply Forall_app. split.
    + apply findOrCreate_Return in Ht. destruct Ht as [_ [(tr & _ & ->) | (_ & ->)]].
      * apply ofRow_roster_typed. assumption.
      * constructor.
    + apply findOrCreateByEmails_Return in Hs. destruct Hs as [_ ->].
      apply Forall_forall. intros s Hin. apply filter_In in Hin. destruct Hin as [Hin _].
      apply in_app_or in Hin. destruct Hin as [Hin | Hin]; apply in_map_iff in Hin.
      * destruct Hin as (r & <- & Hr). simpl. apply whereEmailIn_In in Hr.
        exists r. tauto.
      * destruct Hin as (e & <- & He). simpl. apply filter_In in He. destruct He as [He _].
        apply in_map_iff in He. destruct He as (e0 & <- & _). apply toLowerCase_idem.
Qed.

Lemma suspendStudent_wellFormed db e :
  wellFormed db -> wellFormed (fst (ApiController.suspendStudent db e)).
Proof.
  intros Hwf. unfold ApiController.suspendStudent, Student.findOne.
  destruct (Storage.findOne db Storage.StudentType e) as [r|]; simpl; [|assumption].
  apply setSuspended_wellFormed. assumption.
Qed.

Lemma empty_wellFormed : wellFormed Storage.empty.
Proof. constructor; simpl; constructor. Qed.

Lemma serve_wellFormed db req : wellFormed db -> wellFormed (fst (serve db req)).
Proof.
  intros Hwf. destruct req; simpl; auto.
  - apply registerStudents_wellFormed. assumption.
  - apply suspendStudent_wellFormed. assumption.
Qed.

Lemma reachable_wellFormed db : reachable db -> wellFormed db.
Proof.
  induction 1 as [|db req _ IH]; [apply empty_wellFormed|apply serve_wellFormed; exact IH].
Qed.

(* ================================================================== *)
(** ** Registering twice *)

Lemma find_app_Some {A} (p : A -> bool) l l' x :
  find p l = Some x -> find p (l ++ l') = Some x.
Proof.
  induction l as [|y l IH]; simpl; [discriminate|]. destruct (p y); auto.
Qed.

Lemma find_app_None {A} (p : A -> bool) l l' :
  find p l = None -> find p (l ++ l') = find p l'.
Proof.
  induction l as [|y l IH]; simpl; [reflexivity|]. destruct (p y); [discriminate|auto].
Qed.

Lemma filter_none {A} (p : A -> bool) l :
  (forall x, In x l -> p x = false) -> filter p l = [].
Proof.
  induction l as [|y l IH]; intros H; simpl; [reflexivity|].
  rewrite (H y (or_introl eq_refl)). apply IH. intros x Hx. apply H. right. assumption.
Qed.

Lemma NoDup_map_filter {A B} (f : A -> B) (p : A -> bool) l :
  NoDup (map f l) -> NoDup (map f (filter p l)).
Proof.
  induction l as [|x l IH]; simpl; intros H; [constructor|].
  inversion H as [|? ? Hnin H']; subst. destruct (p x); simpl; auto.
  constructor; auto. intros Hin. apply Hnin. apply in_map_iff in Hin.
  destruct Hin as (y & Hy & Hin). apply filter_In in Hin. apply in_map_iff. exists y. tauto.
Qed.

(** A roster never lists an email twice. *)
Lemma roster_NoDup db t :
  wellFormed db -> NoDup (map Storage.email (Storage.studentsOf db t)).
Proof.
  intros Hwf. pose proof (wellFormed_uniqueEmails _ Hwf) as Huniq.
  assert (Hemails : NoDup (map Storage.email (Storage.user db))).
  { rewrite <- (map_ext_in key Storage.email).
    - apply (wf_emails _ Hwf).
    - intros r Hr. apply (wellFormed_stored_lower db); assumption. }
  assert (Hgen : forall js, NoDup js -> incl js (Storage.teacher_students db) ->
            NoDup (map Storage.email
                     (flat_map (fun j => if fst j =? t
                                         then filter (fun r => Storage.id r =? snd j)
                                                     (Storage.user db)
                                         else []) js))).
  { induction js as [|j js IH]; intros Hnd Hincl; simpl; [constructor|].
    inversion Hnd as [|? ? Hnin Hnd']; subst.
    rewrite map_app. apply NoDup_app.
    - destruct (fst j =? t); [|constructor]. apply NoDup_map_filter. exact Hemails.
    - apply IH; [assumption|]. intros x Hx. apply Hincl. right. assumption.
    - intros e H1 H2. apply Hnin.
      apply in_map_iff in H1. destruct H1 as (r1 & He1 & H1).
      apply in_map_iff in H2. destruct H2 as (r2 & He2 & H2).
      destruct (fst j =? t) eqn:Ej; [|contradiction].
      apply Nat.eqb_eq in Ej. apply filter_In in H1. destruct H1 as [Hu1 Hid1].
      apply Nat.eqb_eq in Hid1.
      apply in_flat_map in H2. destruct H2 as (j' & Hj' & H2).
      destruct (fst j' =? t) eqn:Ej'; [|contradiction].
      apply Nat.eqb_eq in Ej'. apply filter_In in H2. destruct H2 as [Hu2 Hid2].
      apply Nat.eqb_eq in Hid2.
      assert (r1 = r2) by (apply Huniq; auto; congruence). subst r2.
      destruct j as [a b], j' as [a' b']. simpl in *. subst. assumption. }
  apply Hgen; [apply (wf_links _ Hwf)|apply incl_refl].
Qed.

(** After a registration that succeeded, the same request finds the teacher
    and every student, all of them linked: it writes nothing. *)
Lemma registerStudents_again db t ss teacher students D :
  wellFormed db ->
  JS.includes ss t = false ->
  Teacher.findOrCreate db t = Return teacher ->
  Student.findOrCreateByEmails db ss = Return students ->
  Teacher.save db
    (Teacher.pushAll teacher
       (filter (fun s => negb (JS.has (JS.Set_from (map Student.email (Teacher.students teacher)))
                                      (Student.email s)))
               students)) = Some D ->
  ApiController.registerStudents D t ss = (D, Response 204 NoBody).
Proof.
  intros Hwf Hinc Ht Hs Hsave.
  assert (HwfD : wellFormed D).
  { pose proof (registerStudents_wellFormed db t ss Hwf) as H.
    unfold ApiController.registerStudents in H. rewrite Hinc, Ht, Hs, Hsave in H. exact H. }
  pose proof (wellFormed_uniqueEmails _ HwfD) as HuniqD.
  destruct (save_post _ _ _ Hsave) as (tid & added & Hrow & Hkeep & Hmem).
  destruct (findOrCreate_Return _ _ _ Ht) as [Hlen Hteacher].
  destruct (findOrCreateByEmails_Return _ _ _ Hs) as [Hne Hstudents].
  set (rows0 := Storage.whereEmailIn db Storage.StudentType (map normalize ss)) in *.
  (* the row of the teacher after the first run *)
  assert (P1 : exists trow, Storage.findOne D Storage.TeacherType (normalize t) = Some trow
                            /\ Storage.id trow = tid
                            /\ forall r, In r (Storage.user db) -> In r (Storage.user D)).
  { destruct Hteacher as [(tr & Hfind & ->) | (Hfind & ->)]; simpl in Hrow.
    - destruct Hrow as [-> HuD]. exists tr. unfold Storage.findOne. rewrite HuD.
      split; [apply find_app_Some; exact Hfind|]. split; [reflexivity|].
      intros r Hr. apply in_or_app. auto.
    - eexists. unfold Storage.findOne. rewrite Hrow.
      split; [rewrite find_app_None by exact Hfind; simpl|].
      + unfold Storage.hasEmail. simpl.
        rewrite (proj2 (collate_eq_true _ _) eq_refl). reflexivity.
      + split; [reflexivity|]. intros r Hr. apply in_or_app. auto. }
  destruct P1 as (trow & HfindD & Htid & Hsub).
  (* every requested student has a linked row after the first run *)
  assert (P2 : forall e, In e (map normalize ss) ->
                 exists r, In r (Storage.user D) /\ Storage.type r = Storage.StudentType
                           /\ Storage.email r = e
                           /\ In (tid, Storage.id r) (Storage.teacher_students D)).
  { intros e He.
    assert (Hs0 : exists s0, In s0 students /\ Student.email s0 = e
                   /\ (forall j, Student.id s0 = Some j ->
                         exists r0, In r0 (Storage.user db) /\ Storage.id r0 = j
                                    /\ Storage.type r0 = Storage.StudentType
                                    /\ Storage.email r0 = e)).
    { destruct (JS.includes (map Storage.email rows0) e) eqn:Einc.
      - apply includes_In, in_map_iff in Einc. destruct Einc as (r0 & Hr0 & Hin0).
        exists (Student.ofRow r0). rewrite Hstudents. split; [|split].
        + apply in_or_app. left. apply in_map. assumption.
        + assumption.
        + simpl. intros j Hj. injection Hj as <-. exists r0.
          apply whereEmailIn_In in Hin0. tauto.
      - exists (Student.new e). rewrite Hstudents. split; [|split].
        + apply in_or_app. right. apply in_map. apply filter_In.
          split; [assumption|]. rewrite Einc. reflexivity.
        + reflexivity.
        + simpl. discriminate. }
    destruct Hs0 as (s0 & Hin0 & Hemail0 & Hid0).
    destruct (JS.has (JS.Set_from (map Student.email (Teacher.students teacher))) e) eqn:Ehas.
    - (* already on the roster *)
      apply (proj1 (has_In _ _)) in Ehas. apply (proj1 (Set_from_In _ _)) in Ehas.
      destruct Hteacher as [(tr & Hfind & ->) | (Hfind & ->)]; [|contradiction].
      simpl in Ehas, Hrow. destruct Hrow as [-> HuD].
      rewrite map_email_ofRow in Ehas. apply in_map_iff in Ehas.
      destruct Ehas as (r1 & He1 & Hr1). apply studentsOf_In in Hr1. destruct Hr1 as [Hu1 Hj1].
      exists r1. repeat split; auto.
      pose proof (wf_link_student _ Hwf) as Hty. rewrite Forall_forall in Hty.
      destruct (Hty _ Hj1) as (r' & Hr' & Hid' & Hty'). simpl in Hid'.
      rewrite <- (wellFormed_id_inj db r' r1 Hwf Hr' Hu1 Hid'). exact Hty'.
    - (* appended by the first run *)
      assert (Hnew : In s0 (Teacher.students
                (Teacher.pushAll teacher
                   (filter (fun s => negb (JS.has (JS.Set_from
                                 (map Student.email (Teacher.students teacher)))
                                 (Student.email s))) students)))).
      { simpl. apply in_or_app. right. apply filter_In. split; [assumption|].
        rewrite Hemail0, Ehas. reflexivity. }
      destruct (Hmem _ Hnew) as (i & Hlink & Hi).
      destruct (Student.id s0) as [j|] eqn:Hj.
      + subst i. destruct (Hid0 j eq_refl) as (r0 & Hr0 & Hidr & Htyr & Her).
        exists r0. subst j. auto.
      + eexists. split; [exact Hi|]. simpl. auto. }
  (* the second run *)
  set (rowsD := Storage.whereEmailIn D Storage.StudentType (map normalize ss)).
  assert (Hfound : forall e, In e (map normalize ss) ->
                     JS.includes (map Storage.email rowsD) e = true).
  { intros e He. destruct (P2 e He) as (r & Hr & Hty & Hemail & _).
    apply includes_In, in_map_iff. exists r. split; [assumption|].
    apply whereEmailIn_In. repeat split; auto.
    unfold key. rewrite Hemail. apply in_map. assumption. }
  assert (Hlinked : forall r, In r rowsD -> In r (Storage.studentsOf D tid)).
  { intros r Hr. apply whereEmailIn_In in Hr. destruct Hr as (Hu & Hty & Hk).
    rewrite map_normalize_idem in Hk. apply in_map_iff in Hk. destruct Hk as (e0 & He0 & Hin0).
    destruct (P2 (normalize e0) (in_map _ _ _ Hin0)) as (r' & Hr' & _ & Hemail' & Hlink').
    assert (r' = r).
    { apply HuniqD; auto. rewrite Hemail'. rewrite toLowerCase_idem. exact He0. }
    subst r'. apply studentsOf_In. auto. }
  unfold ApiController.registerStudents. rewrite Hinc.
  unfold Teacher.findOrCreate. rewrite Hlen. unfold Teacher.findOne. rewrite HfindD.
  cbn [option_map]. rewrite (findOrCreateByEmails_eq _ _ Hne). fold rowsD.
  rewrite (filter_none _ (map normalize ss)).
  2:{ intros e He. rewrite (Hfound e He). reflexivity. }
  cbn [map]. rewrite app_nil_r.
  rewrite (filter_none _ (map Student.ofRow rowsD)).
  2:{ intros s Hsin. apply in_map_iff in Hsin. destruct Hsin as (r & <- & Hr).
      apply negb_false_iff, has_In, Set_from_In. simpl. rewrite map_email_ofRow.
      apply in_map. rewrite Htid. apply Hlinked. assumption. }
  unfold Teacher.save, Teacher.pushAll. cbn [Teacher.id Teacher.students Teacher.ofRow].
  rewrite cascade_loaded. cbn [Teacher.cascade].
  rewrite links_present; [reflexivity|].
  intros s Hsin. rewrite app_nil_r in Hsin. apply in_map_iff in Hsin.
  destruct Hsin as (r & <- & Hr). apply studentsOf_In in Hr. tauto.
Qed.

(* ================================================================== *)
(** ** The matcher *)

Section Greedy.

Variable p : ascii -> bool.
Variable k : RegExp.Cont.

Lemma greedyStar_sound before after r :
  RegExp.greedyStar p k before after = Some r ->
  exists u a', after = u ++ a' /\ Forall (fun c => p c = true) u
               /\ k (rev u ++ before) a' = Some r.
Proof.
  revert before. induction after as [|c rest IH]; intros before H; simpl in H.
  - exists [], []. auto.
  - destruct (p c) eqn:Hc.
    + destruct (RegExp.greedyStar p k (c :: before) rest) as [r'|] eqn:Hr.
      * injection H as ->. destruct (IH _ Hr) as (u & a' & -> & Hu & Hk).
        exists (c :: u), a'. repeat split; auto.
        simpl. rewrite <- app_assoc. exact Hk.
      * exists [], (c :: rest). auto.
    + exists [], (c :: rest). auto.
Qed.

Lemma greedyStar_complete u : forall before a' r,
  Forall (fun c => p c = true) u ->
  k (rev u ++ before) a' = Some r ->
  exists r', RegExp.greedyStar p k before (u ++ a') = Some r'.
Proof.
  induction u as [|x u IH]; intros before a' r Hu Hk; simpl in *.
  - destruct a' as [|c rest]; simpl; [eauto|].
    destruct (p c); [|eauto].
    destruct (RegExp.greedyStar p k (c :: before) rest); eauto.
  - inversion Hu as [|? ? Hx Hu']; subst. rewrite Hx.
    rewrite <- app_assoc in Hk. simpl in Hk.
    destruct (IH (x :: before) a' r Hu' Hk) as [r' ->]. eauto.
Qed.

Lemma greedyPlus_sound before after r :
  RegExp.greedyPlus p k before after = Some r ->
  exists u a', u <> [] /\ after = u ++ a' /\ Forall (fun c => p c = true) u
               /\ k (rev u ++ before) a' = Some r.
Proof.
  unfold RegExp.greedyPlus. destruct after as [|c rest]; [discriminate|].
  destruct (p c) eqn:Hc; [|discriminate]. intros H.
  destruct (greedyStar_sound _ _ _ H) as (u & a' & -> & Hu & Hk).
  exists (c :: u), a'. repeat split; auto; try discriminate.
  simpl. rewrite <- app_assoc. exact Hk.
Qed.

Lemma greedyPlus_complete u before a' r :
  u <> [] ->
  Forall (fun c => p c = true) u ->
  k (rev u ++ before) a' = Some r ->
  exists r', RegExp.greedyPlus p k before (u ++ a') = Some r'.
Proof.
  destruct u as [|x u]; [congruence|]. intros _ Hu Hk.
  inversion Hu as [|? ? Hx Hu']; subst. simpl. rewrite Hx.
  simpl in Hk. rewrite <- app_assoc in Hk.
  eapply greedyStar_complete; eauto.
Qed.

End Greedy.

(** A last [\S+], with nothing to match after it, runs to the next white
    space and always succeeds there. *)
Section Last.

Variable k : RegExp.Cont.
Hypothesis k_accepts : forall before after, k before after = Some after.

Lemma greedyStar_last_total before after :
  exists r, RegExp.greedyStar RegExp.nonSpace k before after = Some r.
Proof.
  revert before. induction after as [|c rest IH]; intros before; simpl; [eauto|].
  destruct (RegExp.nonSpace c); [|eauto].
  destruct (IH (c :: before)) as [r ->]. eauto.
Qed.

Lemma greedyStar_last before after r :
  RegExp.greedyStar RegExp.nonSpace k before after = Some r ->
  exists u, after = u ++ r /\ Forall (fun c => RegExp.nonSpace c = true) u
            /\ atBoundary r.
Proof.
  revert before. induction after as [|c rest IH]; intros before H; simpl in H.
  - rewrite k_accepts in H. injection H as <-. exists []. simpl. auto.
  - destruct (RegExp.nonSpace c) eqn:Hc.
    + destruct (greedyStar_last_total (c :: before) rest) as [r' Hr].
      rewrite Hr in H. injection H as ->.
      destruct (IH _ Hr) as (u & -> & Hu & Hb).
      exists (c :: u). auto.
    + rewrite k_accepts in H. injection H as <-. exists []. simpl. auto.
Qed.

Lemma greedyPlus_last before after r :
  RegExp.greedyPlus RegExp.nonSpace k before after = Some r ->
  exists u, u <> [] /\ after = u ++ r
            /\ Forall (fun c => RegExp.nonSpace c = true) u /\ atBoundary r.
Proof.
  unfold RegExp.greedyPlus. destruct after as [|c rest]; [discriminate|].
  destruct (RegExp.nonSpace c) eqn:Hc; [|discriminate]. intros H.
  destruct (greedyStar_last _ _ _ H) as (u & -> & Hu & Hb).
  exists (c :: u). repeat split; auto. discriminate.
Qed.

End Last.

(** One attempt of the mention pattern succeeds only behind an [@], on a
    token of the shape, and takes the token up to the next white space. *)
Lemma run_emailRegex_sound before after r :
  RegExp.run emailRegex before after = Some r ->
  exists b0 m, before = "@"%char :: b0 /\ after = m ++ r /\ Shape m /\ atBoundary r.
Proof.
  unfold emailRegex. cbn [RegExp.run].
  destruct before as [|x b0]; [discriminate|].
  destruct (Ascii.eqb x "@") eqn:Hx; [|discriminate].
  apply Ascii.eqb_eq in Hx. subst x. intros H.
  apply greedyPlus_sound in H. destruct H as (u & a1 & Hun & -> & Hu & H).
  cbn [RegExp.run] in H.
  destruct a1 as [|y a2]; [discriminate|].
  destruct (Ascii.eqb y "@") eqn:Hy; [|discriminate].
  apply Ascii.eqb_eq in Hy. subst y.
  apply greedyPlus_sound in H. destruct H as (v & a3 & Hvn & -> & Hv & H).
  cbn [RegExp.run] in H.
  destruct a3 as [|z a4]; [discriminate|].
  destruct (Ascii.eqb z ".") eqn:Hz; [|discriminate].
  apply Ascii.eqb_eq in Hz. subst z.
  apply greedyPlus_last in H; [|reflexivity]. destruct H as (w & Hwn & -> & Hw & Hb).
  exists b0, (u ++ "@"%char :: v ++ "."%char :: w). repeat split; auto.
  - repeat (rewrite <- app_assoc; simpl). reflexivity.
  - apply Forall_app. split; auto. constructor; [reflexivity|].
    apply Forall_app. split; auto.
  - exists u, v, w. auto.
Qed.

Lemma run_Char c pat before after :
  RegExp.run (RegExp.Char c :: pat) before (c :: after)
  = RegExp.run pat (c :: before) after.
Proof. simpl. rewrite Ascii.eqb_refl. reflexivity. Qed.

Lemma run_NonSpacePlus pat before after :
  RegExp.run (RegExp.NonSpacePlus :: pat) before after
  = RegExp.greedyPlus RegExp.nonSpace (RegExp.run pat) before after.
Proof. reflexivity. Qed.

Lemma run_Lookbehind c pat before after :
  RegExp.run (RegExp.LookbehindChar c :: pat) (c :: before) after
  = RegExp.run pat (c :: before) after.
Proof. simpl. rewrite Ascii.eqb_refl. reflexivity. Qed.

(** Behind an [@], an attempt succeeds on every input that starts with a
    token of the shape. *)
Lemma run_emailRegex_complete b0 m post :
  Shape m ->
  exists r, RegExp.run emailRegex ("@"%char :: b0) (m ++ post) = Some r.
Proof.
  intros [Hns (u & v & w & -> & Hu & Hv & Hw)].
  apply Forall_app in Hns. destruct Hns as [Hnu Hns].
  inversion Hns as [|? ? _ Hns']; subst. apply Forall_app in Hns'.
  destruct Hns' as [Hnv Hns']. inversion Hns' as [|? ? _ Hnw]; subst.
  unfold emailRegex. rewrite run_Lookbehind, run_NonSpacePlus.
  repeat (rewrite <- app_assoc; simpl).
  set (b1 := rev u ++ "@"%char :: b0).
  set (b2 := rev v ++ "@"%char :: b1).
  assert (H3 : exists r, RegExp.run [RegExp.NonSpacePlus] ("."%char :: b2) (w ++ post) = Some r).
  { rewrite run_NonSpacePlus.
    destruct w as [|c w]; [congruence|]. inversion Hnw as [|? ? Hc Hnw']; subst.
    simpl. rewrite Hc. apply greedyStar_last_total. reflexivity. }
  destruct H3 as [r3 H3].
  assert (H2 : exists r, RegExp.run [RegExp.NonSpacePlus; RegExp.Char "."; RegExp.NonSpacePlus]
                                    ("@"%char :: b1) (v ++ "."%char :: w ++ post) = Some r).
  { rewrite run_NonSpacePlus.
    apply greedyPlus_complete with (r := r3); auto. }
  destruct H2 as [r2 H2].
  apply greedyPlus_complete with (r := r2); auto.
Qed.

(** *** Lists split in two ways *)

Lemma app_eq_split {A} (l1 l2 l3 l4 : list A) :
  l1 ++ l2 = l3 ++ l4 -> List.length l3 <= List.length l1 ->
  exists d, l1 = l3 ++ d /\ l4 = d ++ l2.
Proof.
  revert l3. induction l1 as [|x l1 IH]; intros [|y l3] H Hlen; simpl in *.
  - exists []. auto.
  - lia.
  - exists (x :: l1). auto.
  - injection H as -> H. destruct (IH l3 H) as (d & -> & ->); [lia|].
    exists d. auto.
Qed.

Lemma app_eq_same_length {A} (l1 l2 l3 l4 : list A) :
  l1 ++ l2 = l3 ++ l4 -> List.length l1 = List.length l3 -> l1 = l3 /\ l2 = l4.
Proof.
  intros H Hlen. destruct (app_eq_split _ _ _ _ H) as (d & -> & ->); [lia|].
  rewrite length_app in Hlen. destruct d; simpl in *; [|lia].
  rewrite app_nil_r. auto.
Qed.

Lemma Shape_nonempty m : Shape m -> m <> [].
Proof.
  intros [_ (u & v & w & -> & Hu & _)]. destruct u; [congruence|discriminate].
Qed.

Lemma firstn_matched {A} (m r : list A) :
  firstn (List.length (m ++ r) - List.length r) (m ++ r) = m.
Proof.
  rewrite length_app. replace (List.length m + List.length r - List.length r)
    with (List.length m + 0) by lia.
  rewrite firstn_app_2. simpl. apply app_nil_r.
Qed.

(** *** The loop of [match] *)

(** Every captured token follows an [@] of the text, has the shape and ends
    at a white space or at the end of the text. *)
Lemma matchAll_sound after : forall before skip m,
  In m (RegExp.matchAll emailRegex skip before after) ->
  exists pre post, rev before ++ after = pre ++ "@"%char :: m ++ post
                   /\ Shape m /\ atBoundary post.
Proof.
  induction after as [|c rest IH]; intros before skip m Hin.
  - cbn [RegExp.matchAll] in Hin. destruct skip; [|contradiction].
    destruct (RegExp.run emailRegex before []) as [r|] eqn:Hr; [|contradiction].
    apply run_emailRegex_sound in Hr. destruct Hr as (b0 & m' & _ & Hnil & Hs & _).
    symmetry in Hnil. apply app_eq_nil in Hnil. destruct Hnil as [-> _].
    apply Shape_nonempty in Hs. congruence.
  - cbn [RegExp.matchAll] in Hin. destruct skip as [|n].
    + destruct (RegExp.run emailRegex before (c :: rest)) as [r|] eqn:Hr.
      * pose proof (run_emailRegex_sound _ _ _ Hr) as (b0 & m' & -> & Heq & Hs & Hb).
        rewrite Heq in Hin. rewrite firstn_matched in Hin.
        destruct Hin as [<- | Hin].
        -- exists (rev b0), r. rewrite Heq. simpl. rewrite <- app_assoc. auto.
        -- destruct (IH _ _ _ Hin) as (pre & post & H & Hs' & Hb').
           exists pre, post. simpl in H. rewrite <- app_assoc in H. auto.
      * destruct (IH _ _ _ Hin) as (pre & post & H & Hs' & Hb').
        exists pre, post. simpl in H. rewrite <- app_assoc in H. auto.
    + destruct (IH _ _ _ Hin) as (pre & post & H & Hs' & Hb').
      exists pre, post. simpl in H. rewrite <- app_assoc in H. auto.
Qed.

(** Every place of the text where an [@] is followed by a token of the
    shape lies inside a captured token, as long as the search has not
    passed it. *)
Lemma matchAll_covers after : forall before skip pre c post,
  rev before ++ after = pre ++ "@"%char :: c ++ post ->
  Shape c ->
  List.length before + skip <= List.length pre + 1 ->
  exists m pre' post',
    In m (RegExp.matchAll emailRegex skip before after)
    /\ rev before ++ after = pre' ++ "@"%char :: m ++ post'
    /\ List.length pre' <= List.length pre
    /\ List.length post' <= List.length post.
Proof.
  induction after as [|x rest IH]; intros before skip pre c post Heq Hs Hlen.
  - exfalso. apply Shape_nonempty in Hs. apply (f_equal (@List.length ascii)) in Heq.
    rewrite app_nil_r, length_rev, length_app in Heq. simpl in Heq.
    rewrite length_app in Heq. destruct c; [congruence|simpl in Heq; lia].
  - assert (Hstep : rev (x :: before) ++ rest = rev before ++ x :: rest).
    { simpl. rewrite <- app_assoc. reflexivity. }
    cbn [RegExp.matchAll]. destruct skip as [|n].
    + destruct (Nat.eq_dec (List.length before) (List.length pre + 1)) as [Hat|Hbefore].
      * (* the search stands on the token *)
        assert (H : rev before ++ x :: rest = (pre ++ ["@"%char]) ++ c ++ post).
        { rewrite <- app_assoc. exact Heq. }
        apply app_eq_same_length in H;
          [|rewrite length_rev, length_app; simpl; lia].
        destruct H as [Hb Ha].
        apply (f_equal (@rev ascii)) in Hb. rewrite rev_involutive, rev_app_distr in Hb.
        simpl in Hb. subst before.
        destruct (run_emailRegex_complete (rev pre) c post Hs) as [r Hr].
        rewrite Ha, Hr.
        pose proof (run_emailRegex_sound _ _ _ Hr) as (b0 & m & _ & Hm & Hsm & Hbm).
        rewrite Hm, firstn_matched.
        exists m, pre, r. split; [left; reflexivity|].
        split; [simpl; rewrite rev_involutive, <- app_assoc; reflexivity|].
        split; [lia|].
        assert (Hle : List.length c <= List.length m).
        { destruct (Nat.le_gt_cases (List.length c) (List.length m)) as [|Hlt]; [assumption|].
          exfalso.
          destruct (app_eq_split c post m r Hm) as (d & Hc & Hrr); [lia|].
          subst c r.
          rewrite length_app in Hlt. destruct d as [|y d]; [simpl in Hlt; lia|].
          destruct Hs as [Hns _]. apply Forall_app in Hns. destruct Hns as [_ Hns].
          inversion Hns; subst. simpl in Hbm. congruence. }
        destruct (app_eq_split m r c post (eq_sym Hm) Hle) as (d & Hmm & Hpp).
        subst post. rewrite length_app. lia.
      * destruct (RegExp.run emailRegex before (x :: rest)) as [r|] eqn:Hr.
        -- pose proof (run_emailRegex_sound _ _ _ Hr) as (b0 & m & -> & Hm & Hsm & Hbm).
           rewrite Hm, firstn_matched, <- Hm.
           destruct (Nat.le_gt_cases (List.length ("@"%char :: b0) + List.length m)
                                     (List.length pre + 1)) as [Hfar|Hover].
           ++ (* the match ends before the token starts *)
              destruct (IH (x :: "@"%char :: b0) (List.length m - 1) pre c post)
                as (m' & pre' & post' & Hin & H & Hp & Hq); auto.
              { rewrite Hstep. exact Heq. }
              { apply Shape_nonempty in Hsm. destruct m; [congruence|]. simpl in *. lia. }
              exists m', pre', post'. rewrite Hstep in H. split; [right; exact Hin|auto].
           ++ (* the match runs over the token *)
              exists m, (rev b0), r. split; [left; reflexivity|].
              split; [rewrite Hm; simpl; rewrite <- app_assoc; reflexivity|].
              simpl in Hlen, Hbefore, Hover. rewrite length_rev. split; [lia|].
              destruct (Nat.le_gt_cases (List.length r) (List.length post)) as [|Hlt];
                [assumption|exfalso].
              assert (H : (rev ("@"%char :: b0) ++ m) ++ r = (pre ++ ["@"%char]) ++ c ++ post).
              { rewrite <- !app_assoc. rewrite <- Hm. rewrite Heq. reflexivity. }
              destruct (app_eq_split _ _ _ _ H) as (d & Hd & Hcp).
              { rewrite !length_app, length_rev. simpl. lia. }
              apply (f_equal (@List.length ascii)) in Hd.
              rewrite !length_app, length_rev in Hd. simpl in Hd.
              destruct (app_eq_split c post d r Hcp) as (e & -> & ->).
              { apply (f_equal (@List.length ascii)) in Hcp.
                rewrite !length_app in Hcp. lia. }
              rewrite length_app in Hlt. destruct e as [|y e]; [simpl in Hlt; lia|].
              destruct Hs as [Hns _]. apply Forall_app in Hns. destruct Hns as [_ Hns].
              inversion Hns; subst. simpl in Hbm. congruence.
        -- destruct (IH (x :: before) 0 pre c post)
             as (m' & pre' & post' & Hin & H & Hp & Hq); auto.
           { rewrite Hstep. exact Heq. }
           { simpl. lia. }
           exists m', pre', post'. rewrite Hstep in H. auto.
    + destruct (IH (x :: before) n pre c post)
        as (m' & pre' & post' & Hin & H & Hp & Hq); auto.
      { rewrite Hstep. exact Heq. }
      { simpl. lia. }
      exists m', pre', post'. rewrite Hstep in H. auto.
Qed.

(* ================================================================== *)
(** ** The mentions, word by word *)

Lemma nonempty_length {A} (l : list A) : l <> [] -> 1 <= List.length l.
Proof. destruct l; [congruence|simpl; lia]. Qed.

Lemma dotInside_true l :
  dotInside l = true <-> exists v w, l = v ++ "."%char :: w /\ v <> [] /\ w <> [].
Proof.
  induction l as [|x l IH]; simpl.
  - split; [discriminate|]. intros (v & w & H & _). destruct v; discriminate.
  - destruct l as [|c [|y l']].
    + split; [discriminate|]. intros (v & w & H & Hv & Hw). exfalso.
      apply nonempty_length in Hv. apply (f_equal (@List.length ascii)) in H.
      rewrite length_app in H. simpl in H. lia.
    + split; [discriminate|]. intros (v & w & H & Hv & Hw). exfalso.
      apply nonempty_length in Hv, Hw. apply (f_equal (@List.length ascii)) in H.
      rewrite length_app in H. simpl in H. lia.
    + rewrite orb_true_iff, IH. split.
      * intros [H | (v & w & H & Hv & Hw)].
        -- apply Ascii.eqb_eq in H. subst c. exists [x], (y :: l'). repeat split; discriminate.
        -- exists (x :: v), w. rewrite H. repeat split; [discriminate|assumption].
      * intros (v & w & H & Hv & Hw). destruct v as [|x' [|c' v']]; [congruence| |].
        -- simpl in H. injection H as _ H _. left. subst c. apply Ascii.eqb_refl.
        -- simpl in H. injection H as _ Hc Hr. right. exists (c' :: v'), w.
           split; [simpl; rewrite Hc, Hr; reflexivity|]. split; [discriminate|assumption].
Qed.

Lemma atInside_true l :
  atInside l = true
  <-> exists u v w, l = u ++ "@"%char :: v ++ "."%char :: w /\ u <> [] /\ v <> [] /\ w <> [].
Proof.
  induction l as [|x l IH]; simpl.
  - split; [discriminate|]. intros (u & v & w & H & _). destruct u; discriminate.
  - destruct l as [|c rest].
    + split; [discriminate|]. intros (u & v & w & H & Hu & _). exfalso.
      apply nonempty_length in Hu. apply (f_equal (@List.length ascii)) in H.
      rewrite length_app in H. simpl in H. lia.
    + rewrite orb_true_iff, andb_true_iff, IH, dotInside_true. split.
      * intros [[H (v & w & Hr & Hv & Hw)] | (u & v & w & H & Hu & Hv & Hw)].
        -- apply Ascii.eqb_eq in H. subst c. exists [x], v, w. rewrite Hr.
           repeat split; auto. discriminate.
        -- exists (x :: u), v, w. rewrite H. repeat split; auto. discriminate.
      * intros (u & v & w & H & Hu & Hv & Hw). destruct u as [|x' [|c' u']]; [congruence| |].
        -- simpl in H. injection H as _ H Hr. left. subst c.
           split; [apply Ascii.eqb_refl|]. eauto.
        -- simpl in H. injection H as _ Hc Hr. right. exists (c' :: u'), v, w.
           split; [simpl; rewrite Hc, Hr; reflexivity|].
           split; [discriminate|]. split; assumption.
Qed.

Lemma hasShape_Shape m : hasShape m = true <-> Shape m.
Proof.
  unfold hasShape, Shape. rewrite andb_true_iff, forallb_forall, Forall_forall, atInside_true.
  tauto.
Qed.

(** One attempt, in closed form: behind an [@], on a word of the shape. *)
Lemma boundary_split_unique (w r m r0 : list ascii) :
  w ++ r = m ++ r0 ->
  Forall (fun c => RegExp.nonSpace c = true) w ->
  Forall (fun c => RegExp.nonSpace c = true) m ->
  atBoundary r -> atBoundary r0 -> w = m /\ r = r0.
Proof.
  revert m. induction w as [|x w IH]; intros [|y m] H Hw Hm Hr Hr0; simpl in *.
  - auto.
  - subst r. inversion Hm; subst. simpl in Hr. congruence.
  - subst r0. inversion Hw; subst. simpl in Hr0. congruence.
  - injection H as -> H. inversion Hw; inversion Hm; subst.
    destruct (IH m H) as [-> ->]; auto.
Qed.

Lemma run_emailRegex_word before w r :
  Forall (fun c => RegExp.nonSpace c = true) w -> atBoundary r ->
  RegExp.run emailRegex before (w ++ r)
  = if match before with x :: _ => Ascii.eqb x "@" | [] => false end && hasShape w
    then Some r else None.
Proof.
  intros Hw Hr. destruct (RegExp.run emailRegex before (w ++ r)) as [r0|] eqn:E.
  - apply run_emailRegex_sound in E. destruct E as (b0 & m & -> & Heq & Hs & Hb).
    destruct (boundary_split_unique w r m r0 Heq Hw (proj1 Hs) Hr Hb) as [-> ->].
    rewrite Ascii.eqb_refl, (proj2 (hasShape_Shape m) Hs). reflexivity.
  - destruct before as [|x b0]; [reflexivity|].
    destruct (Ascii.eqb x "@") eqn:Ex; [|reflexivity]. apply Ascii.eqb_eq in Ex. subst x.
    destruct (hasShape w) eqn:Es; [|reflexivity]. apply hasShape_Shape in Es.
    destruct (run_emailRegex_complete b0 w r Es) as [r1 H1]. congruence.
Qed.

(** The first word of a text and what follows it. *)
Lemma words_split text :
  exists w ws r,
    words text = w :: ws /\ text = w ++ r
    /\ Forall (fun c => RegExp.nonSpace c = true) w
    /\ ((r = [] /\ ws = [])
        \/ exists s r', r = s :: r' /\ RegExp.nonSpace s = false /\ words r' = ws).
Proof.
  induction text as [|c text IH]; simpl.
  - exists [], [], []. repeat split; auto.
  - destruct IH as (w & ws & r & Hw & Ht & Hns & Hr).
    destruct (RegExp.nonSpace c) eqn:Hc.
    + rewrite Hw. exists (c :: w), ws, r. rewrite Ht. repeat split; auto.
    + exists [], (words text), (c :: text). repeat split; auto.
      right. exists c, text. auto.
Qed.

Lemma matchAll_skip n : forall before after,
  n <= List.length after ->
  RegExp.matchAll emailRegex n before after
  = RegExp.matchAll emailRegex 0 (rev (firstn n after) ++ before) (skipn n after).
Proof.
  induction n as [|n IH]; intros before after Hn; [reflexivity|].
  destruct after as [|c rest]; [simpl in Hn; lia|].
  cbn [RegExp.matchAll firstn skipn]. rewrite IH by (simpl in Hn; lia).
  simpl. rewrite <- app_assoc. reflexivity.
Qed.

Lemma matchAll_at_end before :
  RegExp.matchAll emailRegex 0 before [] = [].
Proof.
  cbn [RegExp.matchAll].
  pose proof (run_emailRegex_word before [] [] (Forall_nil _) I) as H.
  cbn [app] in H. change (hasShape []) with false in H.
  rewrite andb_false_r in H. rewrite H. reflexivity.
Qed.

(** The loop, from any position outside a match: the mention of the word
    the position is in, then those of the words that follow. *)
Lemma matchAll_words n : forall after before,
  List.length after <= n ->
  RegExp.matchAll emailRegex 0 before after
  = match words after with
    | w :: ws =>
        mentionOf (match before with x :: _ => Ascii.eqb x "@" | [] => false end) w
        ++ flat_map (mentionOf false) ws
    | [] => []
    end.
Proof.
  induction n as [|n IH]; intros after before Hlen.
  - destruct after; [|simpl in Hlen; lia]. rewrite matchAll_at_end. reflexivity.
  - destruct after as [|c rest]; [rewrite matchAll_at_end; reflexivity|].
    simpl in Hlen.
    destruct (words_split rest) as (w & ws & r & Hw & Ht & Hns & Hr).
    cbn [RegExp.matchAll words]. destruct (RegExp.nonSpace c) eqn:Hc.
    + (* inside a word *)
      rewrite Hw. subst rest.
      assert (Hb : atBoundary r).
      { destruct Hr as [[-> _] | (s & r' & -> & Hs & _)]; simpl; auto. }
      change (c :: w ++ r) with ((c :: w) ++ r).
      rewrite (run_emailRegex_word before (c :: w) r); [|constructor; assumption|assumption].
      unfold mentionOf at 1. cbn [firstMention].
      destruct (match before with x :: _ => Ascii.eqb x "@" | [] => false end
                && hasShape (c :: w)) eqn:E.
      * rewrite firstn_matched.
        replace (List.length (c :: w) - 1) with (List.length w) by (simpl; lia).
        rewrite matchAll_skip by (rewrite length_app; lia).
        rewrite firstn_app, Nat.sub_diag, firstn_all, firstn_O, app_nil_r.
        rewrite skipn_app, Nat.sub_diag, skipn_all, skipn_O. cbn [app].
        f_equal.
        destruct Hr as [[-> ->] | (s & r' & -> & Hs & Hws)].
        -- rewrite matchAll_at_end. reflexivity.
        -- rewrite IH by (rewrite length_app in Hlen; simpl in Hlen; simpl; lia).
           cbn [words]. rewrite Hs, Hws. reflexivity.
      * rewrite IH by lia. rewrite Hw. reflexivity.
    + (* on white space *)
      pose proof (run_emailRegex_word before [] (c :: rest) (Forall_nil _) Hc) as H.
      cbn [app] in H. change (hasShape []) with false in H.
      rewrite andb_false_r in H. rewrite H.
      rewrite IH by lia. rewrite Hw.
      assert (Ec : Ascii.eqb c "@" = false).
      { destruct (Ascii.eqb c "@") eqn:E; [|reflexivity].
        apply Ascii.eqb_eq in E. subst c. discriminate. }
      rewrite Ec. reflexivity.
Qed.

Lemma mentions_by_word text : mentions text = mentionsByWord text.
Proof.
  unfold mentions, mentionsByWord.
  rewrite (matchAll_words (List.length text) text [] (le_n _)).
  destruct (words text); reflexivity.
Qed.

(* ================================================================== *)
(** ** The example state *)

Lemma exampleDb_served : serveAll Storage.empty exampleRequests = exampleDb.
Proof. reflexivity. Qed.

Lemma serveAll_reachable reqs : forall db, reachable db -> reachable (serveAll db reqs).
Proof.
  induction reqs as [|r reqs IH]; intros db H; simpl; [assumption|].
  apply IH. constructor. assumption.
Qed.

Lemma exampleDb_reachable : reachable exampleDb.
Proof. rewrite <- exampleDb_served. apply serveAll_reachable. constructor. Qed.

Lemma exampleDb_wellFormed : wellFormed exampleDb.
Proof. apply reachable_wellFormed, exampleDb_reachable. Qed.

(* ================================================================== *)
(** ** POST /register: the self-registration check *)

(** C6. [registerStudents] answers 400 "teacher and student cannot be the
    same" exactly when the raw list of student emails contains the raw
    teacher email, compared as strings; it does so whatever the storage
    holds and leaves the storage as it was.  An entry that differs from the
    teacher email, be it only in case, never gets this answer. *)
Theorem registerStudents_conflict db teacherEmail studentEmails :
  (In teacherEmail studentEmails ->
   ApiController.registerStudents db teacherEmail studentEmails
   = (db, Response 400 (Message "teacher and student cannot be the same")))
  /\ (~ In teacherEmail studentEmails ->
      forall body,
        snd (ApiController.registerStudents db teacherEmail studentEmails)
        <> Response 400 body).
Proof.
  unfold ApiController.registerStudents. split.
  - intros H. apply includes_In in H. rewrite H. reflexivity.
  - intros H body. apply includes_false in H. rewrite H.
    destruct (Teacher.findOrCreate db teacherEmail); [|discriminate].
    destruct (Student.findOrCreateByEmails db studentEmails); [|discriminate].
    match goal with |- context [Teacher.save db ?x] => destruct (Teacher.save db x) end;
      discriminate.
Qed.

Lemma registerStudents_conflict_witness :
  ApiController.registerStudents exampleDb "t1@teacher.com" ["s1@student.com"; "t1@teacher.com"]
  = (exampleDb, Response 400 (Message "teacher and student cannot be the same"))
  /\ snd (ApiController.registerStudents exampleDb "t1@teacher.com" ["T1@teacher.com"])
     <> Response 400 (Message "teacher and student cannot be the same").
Proof.
  split.
  - apply (proj1 (registerStudents_conflict exampleDb "t1@teacher.com"
                    ["s1@student.com"; "t1@teacher.com"])).
    simpl. auto.
  - apply (proj2 (registerStudents_conflict exampleDb "t1@teacher.com" ["T1@teacher.com"])).
    simpl. intros [H | []]. discriminate.
Defined.

(* ================================================================== *)
(** ** GET /commonstudents *)

Lemma intersect_In rest : forall a x,
  In x (ApiController.intersect a rest) <-> In x a /\ forall b, In b rest -> In x b.
Proof.
  unfold ApiController.intersect.
  induction rest as [|b rest IH]; intros a x; simpl.
  - split; [intros H; split; [assumption|intros b []]|tauto].
  - rewrite IH, filter_In, includes_In. split.
    + intros [[Ha Hb] H]. split; [assumption|]. intros b' [<- | Hb']; auto.
    + intros [Ha H]. split; [split|]; auto.
Qed.

Lemma commonStudents_In ts :
  exists l, ApiController.commonStudents ts = Response 200 (Students l)
            /\ forall x, In x l <-> ts <> [] /\ forall t, In t ts -> In x (rosterEmails t).
Proof.
  unfold ApiController.commonStudents. destruct ts as [|t ts]; simpl.
  - exists []. split; [reflexivity|]. intros x. simpl. split; [tauto|intros [H _]; congruence].
  - eexists. split; [reflexivity|]. intros x. rewrite intersect_In. split.
    + intros [Ha H]. split; [discriminate|]. intros t' [<- | Ht']; [assumption|].
      apply H. apply in_map_iff. exists t'. auto.
    + intros [_ H]. split; [apply H; left; reflexivity|].
      intros b Hb. apply in_map_iff in Hb. destruct Hb as (t' & <- & Ht'). apply H. right.
      assumption.
Qed.

Lemma whereEmailIn_Permutation db ty es es' :
  Permutation es es' -> Storage.whereEmailIn db ty es = Storage.whereEmailIn db ty es'.
Proof.
  intros H. unfold Storage.whereEmailIn. apply filter_ext. intros r.
  unfold Storage.emailIn. f_equal.
  destruct (existsb (Storage.collate_eq (Storage.email r)) es') eqn:E.
  - apply existsb_exists in E. destruct E as (x & Hx & E). apply existsb_exists. exists x.
    split; [|assumption]. eapply Permutation_in; [symmetry; exact H|assumption].
  - destruct (existsb (Storage.collate_eq (Storage.email r)) es) eqn:E'; [|reflexivity].
    apply existsb_exists in E'. destruct E' as (x & Hx & E').
    assert (existsb (Storage.collate_eq (Storage.email r)) es' = true); [|congruence].
    apply existsb_exists. exists x. split; [|assumption]. eapply Permutation_in; eauto.
Qed.

(** C8. The intersection does not depend on the order of the teachers: two
    orders of the same teachers give answers with the same members, and
    the same request with its emails in another order gets the same answer.
    When no student is on every roster the answer is 200 with the empty
    list, not an error. *)
Theorem commonStudents_order_independent :
  (forall ts ts', Permutation ts ts' ->
     exists l l', ApiController.commonStudents ts = Response 200 (Students l)
                  /\ ApiController.commonStudents ts' = Response 200 (Students l')
                  /\ forall x, In x l <-> In x l')
  /\ (forall db es es', Permutation es es' ->
        ApiController.listCommonStudents db (Array es)
        = ApiController.listCommonStudents db (Array es'))
  /\ (forall ts, (forall x, exists t, In t ts /\ ~ In x (rosterEmails t)) ->
        ApiController.commonStudents ts = Response 200 (Students []))
  /\ ApiController.commonStudents [] = Response 200 (Students []).
Proof.
  split; [|split; [|split]].
  - intros ts ts' Hp.
    destruct (commonStudents_In ts) as (l & Hl & Hin).
    destruct (commonStudents_In ts') as (l' & Hl' & Hin').
    exists l, l'. split; [assumption|]. split; [assumption|].
    intros x. rewrite Hin, Hin'. split; intros [Hne H]; split.
    + intros ->. apply Permutation_sym, Permutation_nil in Hp. congruence.
    + intros t Ht. apply H. eapply Permutation_in; [symmetry; exact Hp|assumption].
    + intros ->. apply Permutation_nil in Hp. congruence.
    + intros t Ht. apply H. eapply Permutation_in; eauto.
  - intros db es es' Hp. unfold ApiController.listCommonStudents.
    rewrite (whereEmailIn_Permutation db _ es es' Hp), (Permutation_length Hp). reflexivity.
  - intros ts H. destruct (commonStudents_In ts) as (l & Hl & Hin). rewrite Hl.
    destruct l as [|x l]; [reflexivity|]. exfalso.
    destruct (H x) as (t & Ht & Hnot). apply Hnot.
    apply (proj1 (Hin x)); [left; reflexivity|assumption].
  - reflexivity.
Qed.

Lemma commonStudents_order_independent_witness :
  exists l l',
    ApiController.commonStudents
      [Teacher.ofRow exampleDb (Storage.mkRow 1 Storage.TeacherType "t1@teacher.com" false);
       Teacher.ofRow exampleDb (Storage.mkRow 4 Storage.TeacherType "t2@teacher.com" false)]
    = Response 200 (Students l)
    /\ ApiController.commonStudents
         [Teacher.ofRow exampleDb (Storage.mkRow 4 Storage.TeacherType "t2@teacher.com" false);
          Teacher.ofRow exampleDb (Storage.mkRow 1 Storage.TeacherType "t1@teacher.com" false)]
       = Response 200 (Students l')
    /\ forall x, In x l <-> In x l'.
Proof.
  apply (proj1 commonStudents_order_independent). apply perm_swap.
Defined.

(** An email named twice selects at most one row. *)
Lemma whereEmailIn_same_key db ty e :
  wellFormed db -> List.length (Storage.whereEmailIn db ty [e; e]) <= 1.
Proof.
  intros Hwf. pose proof (wellFormed_uniqueEmails _ Hwf) as Huniq.
  pose proof (wf_ids _ Hwf) as Hids.
  assert (Hall : forall r, In r (Storage.whereEmailIn db ty [e; e]) ->
                           In r (Storage.user db) /\ key r = normalize e).
  { intros r Hr. apply whereEmailIn_In in Hr. destruct Hr as (Hu & _ & Hk).
    simpl in Hk. intuition. }
  assert (Hnd : NoDup (map Storage.id (Storage.whereEmailIn db ty [e; e]))).
  { apply NoDup_map_filter. assumption. }
  destruct (Storage.whereEmailIn db ty [e; e]) as [|r1 [|r2 l]]; simpl; try lia.
  exfalso. destruct (Hall r1) as [H1 K1]; [simpl; auto|].
  destruct (Hall r2) as [H2 K2]; [simpl; auto|].
  assert (r1 = r2) by (apply Huniq; auto; unfold key in *; congruence). subst r2.
  simpl in Hnd. inversion Hnd as [|? ? Hnin _]; subst. apply Hnin. left. reflexivity.
Qed.

(** C2 (defect). The emails of the request are not deduplicated: the number
    of teachers found is compared with the number of entries, so naming one
    teacher twice is answered 404 "teacher not found" although the teacher
    is stored. *)
Theorem listCommonStudents_repeated_email db e :
  wellFormed db ->
  ApiController.listCommonStudents db (Array [e; e])
  = Response 404 (Message "teacher not found").
Proof.
  intros Hwf. unfold ApiController.listCommonStudents. rewrite length_map.
  pose proof (whereEmailIn_same_key db Storage.TeacherType e Hwf) as H.
  destruct (Nat.ltb_spec (List.length (Storage.whereEmailIn db Storage.TeacherType [e; e]))
                         (List.length [e; e])) as [_|Hge]; [reflexivity|].
  simpl in Hge. lia.
Qed.

Lemma listCommonStudents_repeated_email_witness :
  ApiController.listCommonStudents exampleDb (Array ["t1@teacher.com"; "t1@teacher.com"])
  = Response 404 (Message "teacher not found")
  /\ ApiController.listCommonStudents exampleDb (Single "t1@teacher.com")
     = Response 200 (Students ["s1@student.com"; "s2@student.com"]).
Proof.
  split.
  - apply (listCommonStudents_repeated_email exampleDb "t1@teacher.com").
    apply exampleDb_wellFormed.
  - reflexivity.
Defined.

(* ================================================================== *)
(** ** POST /retrievefornotifications *)

Lemma match_mentions text :
  RegExp.match_ text emailRegex
  = match mentions (list_ascii_of_string text) with
    | [] => None
    | ms => Some (map string_of_list_ascii ms)
    end.
Proof. reflexivity. Qed.

Lemma mentions_none text :
  (forall pre c post, text = pre ++ "@"%char :: c ++ post -> ~ Shape c) ->
  mentions text = [].
Proof.
  intros H. destruct (mentions text) as [|m ms] eqn:E; [reflexivity|exfalso].
  destruct (matchAll_sound text [] 0 m) as (pre & post & Heq & Hs & _).
  - fold (mentions text). rewrite E. left. reflexivity.
  - exact (H pre m post Heq Hs).
Qed.

(** C7. The mentions of a text are found word by word: the text is cut at
    white space, and in each word the part behind the first [@] that is
    followed, up to the end of the word, by non-space [@] non-space [.]
    non-space is captured.  So every captured token stands behind an [@] of
    the text, has the shape without white space inside, and runs to the next
    white space; and every place where an [@] is followed by a token of the
    shape lies inside a captured token.  A text without such a place has no
    mention and is answered like the empty text; so are [@student.com],
    [@@student.com], [@s1@student], an [@] followed by white space and an
    email without the leading [@]. *)
Theorem mention_extraction :
  (forall text, mentions text = mentionsByWord text)
  /\ (forall text m, In m (mentions text) ->
     exists pre post, text = pre ++ "@"%char :: m ++ post /\ Shape m /\ atBoundary post)
  /\ (forall text pre c post,
        text = pre ++ "@"%char :: c ++ post -> Shape c ->
        exists m pre' post',
          In m (mentions text) /\ text = pre' ++ "@"%char :: m ++ post'
          /\ List.length pre' <= List.length pre /\ List.length post' <= List.length post)
  /\ (forall text,
        (forall pre c post,
            list_ascii_of_string text = pre ++ "@"%char :: c ++ post -> ~ Shape c) ->
        RegExp.match_ text emailRegex = None
        /\ forall db teacherEmail,
             ApiController.listStudentsForNotification db teacherEmail text
             = ApiController.listStudentsForNotification db teacherEmail "")
  /\ RegExp.match_ "Hello @s1@student.com" emailRegex = Some ["s1@student.com"]
  /\ RegExp.match_ "Hello @student.com" emailRegex = None
  /\ RegExp.match_ "Hello @@student.com" emailRegex = None
  /\ RegExp.match_ "Hello @s1@student" emailRegex = None
  /\ RegExp.match_ "Hello @ s1@student.com" emailRegex = None
  /\ RegExp.match_ "Hello s1@student.com" emailRegex = None.
Proof.
  split; [exact mentions_by_word|]. split; [|split; [|split]].
  - intros text m Hin. apply (matchAll_sound text [] 0 m Hin).
  - intros text pre c post Heq Hs.
    apply (matchAll_covers text [] 0 pre c post); [exact Heq|exact Hs|simpl; lia].
  - intros text H. assert (Hnone : RegExp.match_ text emailRegex = None).
    { rewrite match_mentions, (mentions_none _ H). reflexivity. }
    split; [exact Hnone|]. intros db teacherEmail.
    unfold ApiController.listStudentsForNotification. rewrite Hnone. reflexivity.
  - repeat split; reflexivity.
Qed.

Lemma mention_extraction_witness :
  exists pre post,
    list_ascii_of_string "Hello @s1@student.com"
    = pre ++ "@"%char :: list_ascii_of_string "s1@student.com" ++ post
    /\ Shape (list_ascii_of_string "s1@student.com") /\ atBoundary post.
Proof.
  apply (proj1 (proj2 mention_extraction) (list_ascii_of_string "Hello @s1@student.com")).
  vm_compute. left. reflexivity.
Defined.

Lemma push_mentioned (studentEmails : list string) (mentioned : list Storage.UserRow) :
  (if 0 <? List.length mentioned
   then studentEmails ++ map Storage.email mentioned
   else studentEmails)
  = studentEmails ++ map Storage.email mentioned.
Proof. destruct mentioned; simpl; [rewrite app_nil_r|]; reflexivity. Qed.




(* ================================================================== *)
(** ** POST /suspend *)

Lemma studentStored_findOne db e :
  Storage.findOne db Storage.StudentType e = None <-> ~ studentStored db e.
Proof.
  rewrite findOne_None. unfold studentStored, key. split.
  - intros H (r & Hr & Hty & Hk). exact (H r Hr Hty Hk).
  - intros H r Hr Hty Hk. apply H. eauto.
Qed.

Lemma setSuspended_onlySuspends db r :
  wellFormed db -> In r (Storage.user db) ->
  onlySuspends r (Storage.user db) (Storage.user (Storage.setSuspended db (Storage.id r) true)).
Proof.
  intros Hwf Hr. unfold onlySuspends. simpl.
  assert (Hgen : forall l, incl l (Storage.user db) ->
            Forall2 (fun x x' =>
                       (x = r /\ x' = Storage.mkRow (Storage.id r) (Storage.type r)
                                                    (Storage.email r) true)
                       \/ (x <> r /\ x' = x))
                    l (map (fun x => if Storage.id x =? Storage.id r
                                     then Storage.mkRow (Storage.id x) (Storage.type x)
                                                        (Storage.email x) true
                                     else x) l)).
  { induction l as [|x l IH]; intros Hincl; simpl; constructor.
    - destruct (Storage.id x =? Storage.id r) eqn:E.
      + apply Nat.eqb_eq in E. left.
        assert (x = r) by (apply (wellFormed_id_inj db); auto; apply Hincl; left; reflexivity).
        subst x. auto.
      + right. split; [|reflexivity]. intros ->. rewrite Nat.eqb_refl in E. discriminate.
    - apply IH. intros y Hy. apply Hincl. right. assumption. }
  apply Hgen. apply incl_refl.
Qed.

Lemma suspendStudent_found db e r :
  wellFormed db -> In r (Storage.user db) -> Storage.type r = Storage.StudentType ->
  normalize (Storage.email r) = normalize e ->
  ApiController.suspendStudent db e
  = (Storage.setSuspended db (Storage.id r) true, Response 204 NoBody).
Proof.
  intros Hwf Hr Hty Hk. unfold ApiController.suspendStudent, Student.findOne.
  destruct (Storage.findOne db Storage.StudentType e) as [r'|] eqn:E.
  - apply findOne_Some in E. destruct E as (Hr' & _ & Hk').
    assert (r' = r).
    { apply (wellFormed_uniqueEmails db Hwf); auto. unfold key in Hk'. congruence. }
    subst r'. reflexivity.
  - exfalso. apply studentStored_findOne in E. apply E. exists r. auto.
Qed.

(** C9. When no Student is stored under the email, in any casing,
    [suspendStudent] answers 404 and the storage is what it was.  When one
    is stored, the answer is 204, the junction table is what it was, and in
    the table of users the row of that student has the flag set while every
    other row, and every other column of this one, is unchanged. *)
Theorem suspendStudent_spec db studentEmail :
  (~ studentStored db studentEmail ->
   ApiController.suspendStudent db studentEmail
   = (db, Response 404 (Message "student not found")))
  /\ (wellFormed db ->
      forall r, In r (Storage.user db) -> Storage.type r = Storage.StudentType ->
                normalize (Storage.email r) = normalize studentEmail ->
      exists db',
        ApiController.suspendStudent db studentEmail = (db', Response 204 NoBody)
        /\ Storage.teacher_students db' = Storage.teacher_students db
        /\ onlySuspends r (Storage.user db) (Storage.user db')).
Proof.
  unfold ApiController.suspendStudent, Student.findOne. split.
  - intros H. apply studentStored_findOne in H. rewrite H. reflexivity.
  - intros Hwf r Hr Hty Hk. fold (Student.findOne db studentEmail).
    fold (ApiController.suspendStudent db studentEmail).
    rewrite (suspendStudent_found db studentEmail r Hwf Hr Hty Hk).
    eexists. split; [reflexivity|]. split; [reflexivity|].
    apply setSuspended_onlySuspends; assumption.
Qed.

Lemma suspendStudent_spec_witness :
  ApiController.suspendStudent exampleDb "nobody@student.com"
  = (exampleDb, Response 404 (Message "student not found"))
  /\ exists db',
       ApiController.suspendStudent exampleDb "S1@Student.com" = (db', Response 204 NoBody)
       /\ Storage.teacher_students db' = Storage.teacher_students exampleDb
       /\ onlySuspends (Storage.mkRow 2 Storage.StudentType "s1@student.com" false)
                       (Storage.user exampleDb) (Storage.user db').
Proof.
  split.
  - apply (proj1 (suspendStudent_spec exampleDb "nobody@student.com")).
    intros (r & Hr & _ & Hk). simpl in Hr.
    repeat (destruct Hr as [<- | Hr]; [discriminate Hk|]). exact Hr.
  - apply (proj2 (suspendStudent_spec exampleDb "S1@Student.com")).
    + apply exampleDb_wellFormed.
    + simpl. auto.
    + reflexivity.
    + reflexivity.
Defined.

(* ================================================================== *)
(** ** One email, one identity *)

Lemma roster_rows_are_students db t r :
  wellFormed db -> In r (Storage.studentsOf db t) -> Storage.type r = Storage.StudentType.
Proof.
  intros Hwf Hr. apply studentsOf_In in Hr. destruct Hr as [Hu Hj].
  pose proof (wf_link_student _ Hwf) as Hty. rewrite Forall_forall in Hty.
  destruct (Hty _ Hj) as (r' & Hr' & Hid' & Hty'). simpl in Hid'.
  rewrite <- (wellFormed_id_inj db r' r Hwf Hr' Hu Hid'). exact Hty'.
Qed.

(** C10. No state the API can reach holds two identities with the same
    lower-case email, and every request keeps it so.  When a registration
    names, as a student, the email of a stored Teacher, the lookup of
    Students does not return that row, a new unsaved Student with the
    lower-case email is built, and saving fails on the unique index: the
    answer is 500 and the storage is what it was. *)
Theorem email_uniqueness :
  (forall db, reachable db -> uniqueEmails db)
  /\ (forall db req, wellFormed db ->
        wellFormed (fst (serve db req)) /\ uniqueEmails (fst (serve db req)))
  /\ (forall db teacherEmail studentEmails e r,
        wellFormed db ->
        In r (Storage.user db) -> Storage.type r = Storage.TeacherType ->
        In e studentEmails -> normalize e = normalize (Storage.email r) ->
        ~ In teacherEmail studentEmails ->
        teacherEmail <> "" -> Forall (fun s => s <> "") studentEmails ->
        (forall x, In x (User.queryByEmails db (map normalize studentEmails)
                                            Storage.StudentType) ->
                   x <> r /\ key x <> normalize e)
        /\ (exists students,
               Student.findOrCreateByEmails db studentEmails = Return students
               /\ In (Student.new (normalize e)) students)
        /\ ApiController.registerStudents db teacherEmail studentEmails
           = (db, Response 500 NoBody)).
Proof.
  split; [|split].
  - intros db H. apply wellFormed_uniqueEmails, reachable_wellFormed, H.
  - intros db req Hwf. pose proof (serve_wellFormed db req Hwf) as H.
    split; [exact H|apply wellFormed_uniqueEmails, H].
  - intros db t ss e r Hwf Hr Hty He Hk Hnc Ht Hss.
    pose proof (wellFormed_uniqueEmails _ Hwf) as Huniq.
    assert (Hquery : forall x, In x (User.queryByEmails db (map normalize ss)
                                                        Storage.StudentType) ->
                               x <> r /\ key x <> normalize e).
    { intros x Hx. apply whereEmailIn_In in Hx. destruct Hx as (Hu & Htx & _).
      assert (Hne : x <> r) by (intros ->; congruence).
      split; [exact Hne|]. intros Hkx. apply Hne. apply Huniq; auto.
      unfold key in Hkx. congruence. }
    assert (Hlen : existsb (fun s => String.length s =? 0) ss = false).
    { clear - Hss. induction Hss as [|s l Hs _ IH]; simpl; [reflexivity|].
      rewrite IH. destruct s; [congruence|reflexivity]. }
    assert (Hnew : In (Student.new (normalize e))
                      (map Student.ofRow
                           (Storage.whereEmailIn db Storage.StudentType (map normalize ss))
                       ++ map Student.new
                            (filter (fun x => negb (JS.includes
                                       (map Storage.email
                                          (Storage.whereEmailIn db Storage.StudentType
                                             (map normalize ss))) x))
                                    (map normalize ss)))).
    { apply in_or_app. right. apply in_map. apply filter_In.
      split; [apply in_map; assumption|]. apply negb_true_iff, includes_false.
      intros Hin. apply in_map_iff in Hin. destruct Hin as (x & Hx & Hin).
      destruct (Hquery x Hin) as [_ Hkx]. apply Hkx. unfold key. rewrite Hx.
      apply toLowerCase_idem. }
    split; [exact Hquery|]. split.
    { eexists. split; [apply findOrCreateByEmails_eq; exact Hlen|exact Hnew]. }
    unfold ApiController.registerStudents.
    rewrite (proj2 (includes_false _ _) Hnc).
    destruct (Teacher.findOrCreate db t) as [teacher|msg] eqn:Hfind.
    2:{ unfold Teacher.findOrCreate in Hfind. destruct t; [congruence|]. simpl in Hfind.
        destruct (Teacher.findOne db _); discriminate. }
    rewrite (findOrCreateByEmails_eq _ _ Hlen).
    match goal with |- context [Teacher.save db ?x] =>
      assert (Hsave : Teacher.save db x = None); [|rewrite Hsave; reflexivity] end.
    unfold Teacher.save.
    match goal with |- context [match Teacher.id ?x with _ => _ end] =>
      destruct (match Teacher.id x with
                | Some i => Some (db, i)
                | None => Storage.insert db Storage.TeacherType (Teacher.email x) false
                end) as [[db1 tid]|] eqn:H1 end; [|reflexivity].
    rewrite (cascade_taken _ db1 (Student.new (normalize e))); [reflexivity| |reflexivity|].
    + simpl. apply in_or_app. right. apply filter_In. split; [exact Hnew|].
      apply negb_true_iff. simpl.
      destruct (JS.has _ (normalize e)) eqn:Ehas; [exfalso|reflexivity].
      apply (proj1 (has_In _ _)) in Ehas. apply (proj1 (Set_from_In _ _)) in Ehas.
      apply findOrCreate_Return in Hfind.
      destruct Hfind as [_ [(tr & _ & ->) | (_ & ->)]]; [|contradiction].
      simpl in Ehas. rewrite map_email_ofRow in Ehas. apply in_map_iff in Ehas.
      destruct Ehas as (r1 & He1 & Hr1).
      pose proof (roster_rows_are_students _ _ _ Hwf Hr1) as Hty1.
      apply studentsOf_In in Hr1. destruct Hr1 as [Hu1 _].
      assert (r1 = r).
      { apply Huniq; auto. rewrite He1, toLowerCase_idem. exact Hk. }
      congruence.
    + exists r. split.
      * simpl in H1. destruct (Teacher.id teacher).
        -- injection H1 as <- _. assumption.
        -- apply insert_Some in H1. destruct H1 as (_ & _ & ->). simpl.
           apply in_or_app. auto.
      * simpl. unfold key. rewrite toLowerCase_idem. congruence.
Qed.

Lemma email_uniqueness_witness :
  uniqueEmails exampleDb
  /\ ApiController.registerStudents exampleDb "t1@teacher.com" ["T2@teacher.com"]
     = (exampleDb, Response 500 NoBody).
Proof.
  split.
  - apply (proj1 email_uniqueness). apply exampleDb_reachable.
  - apply (proj2 (proj2 email_uniqueness) exampleDb "t1@teacher.com" ["T2@teacher.com"]
             "T2@teacher.com" (Storage.mkRow 4 Storage.TeacherType "t2@teacher.com" false)).
    + apply exampleDb_wellFormed.
    + simpl. auto.
    + reflexivity.
    + simpl. auto.
    + reflexivity.
    + simpl. intros [H | []]. discriminate.
    + discriminate.
    + repeat constructor. discriminate.
Defined.

(* ================================================================== *)
(** ** Registering twice *)

(** C5. A registration repeated on the state the first one produced gives
    the same answer and leaves that state as it is, so the teacher is found
    with the same roster; this roster lists no email twice. *)
Theorem registerStudents_idempotent db teacherEmail studentEmails :
  wellFormed db ->
  ApiController.registerStudents
    (fst (ApiController.registerStudents db teacherEmail studentEmails))
    teacherEmail studentEmails
  = ApiController.registerStudents db teacherEmail studentEmails
  /\ Teacher.findOne
       (fst (ApiController.registerStudents
               (fst (ApiController.registerStudents db teacherEmail studentEmails))
               teacherEmail studentEmails))
       teacherEmail
     = Teacher.findOne (fst (ApiController.registerStudents db teacherEmail studentEmails))
                       teacherEmail
  /\ forall teacher,
       Teacher.findOne (fst (ApiController.registerStudents db teacherEmail studentEmails))
                       teacherEmail = Some teacher ->
       NoDup (rosterEmails teacher).
Proof.
  intros Hwf.
  assert (Hagain : ApiController.registerStudents
                     (fst (ApiController.registerStudents db teacherEmail studentEmails))
                     teacherEmail studentEmails
                   = ApiController.registerStudents db teacherEmail studentEmails).
  { unfold ApiController.registerStudents at 2 3.
    destruct (JS.includes studentEmails teacherEmail) eqn:Hinc.
    { simpl. unfold ApiController.registerStudents. rewrite Hinc. reflexivity. }
    destruct (Teacher.findOrCreate db teacherEmail) as [teacher|msg] eqn:Ht.
    2:{ simpl. unfold ApiController.registerStudents. rewrite Hinc, Ht. reflexivity. }
    destruct (Student.findOrCreateByEmails db studentEmails) as [students|msg] eqn:Hs.
    2:{ simpl. unfold ApiController.registerStudents. rewrite Hinc, Ht, Hs. reflexivity. }
    match goal with |- context [Teacher.save db ?x] =>
      destruct (Teacher.save db x) as [D|] eqn:Hsave end.
    + simpl. eapply registerStudents_again; eauto.
    + simpl. unfold ApiController.registerStudents. rewrite Hinc, Ht, Hs, Hsave. reflexivity. }
  split; [exact Hagain|]. split; [rewrite Hagain; reflexivity|].
  intros teacher Hfind.
  pose proof (registerStudents_wellFormed db teacherEmail studentEmails Hwf) as HwfD.
  unfold Teacher.findOne in Hfind.
  destruct (Storage.findOne _ Storage.TeacherType teacherEmail) as [tr|]; [|discriminate].
  injection Hfind as <-. unfold rosterEmails. simpl. rewrite map_email_ofRow.
  apply roster_NoDup. assumption.
Qed.

Lemma registerStudents_idempotent_witness :
  ApiController.registerStudents
    (fst (ApiController.registerStudents exampleDb "T2@teacher.com"
            ["s1@student.com"; "S4@student.com"]))
    "T2@teacher.com" ["s1@student.com"; "S4@student.com"]
  = ApiController.registerStudents exampleDb "T2@teacher.com"
      ["s1@student.com"; "S4@student.com"]
  /\ forall teacher,
       Teacher.findOne
         (fst (ApiController.registerStudents exampleDb "T2@teacher.com"
                 ["s1@student.com"; "S4@student.com"]))
         "T2@teacher.com" = Some teacher ->
       NoDup (rosterEmails teacher).
Proof.
  pose proof (registerStudents_idempotent exampleDb "T2@teacher.com"
                ["s1@student.com"; "S4@student.com"] exampleDb_wellFormed) as [H1 [_ H3]].
  split; [exact H1|exact H3].
Defined.

(* ================================================================== *)
(** ** The matcher and the case of the text *)

Section CaseMap.

(** A change of case [f]: it keeps white space and the two literal
    characters of the pattern apart from everything else. *)
Variable f : ascii -> ascii.
Hypothesis f_space : forall c, RegExp.nonSpace (f c) = RegExp.nonSpace c.
Hypothesis f_at : forall c, Ascii.eqb (f c) "@" = Ascii.eqb c "@".
Hypothesis f_dot : forall c, Ascii.eqb (f c) "." = Ascii.eqb c ".".





End CaseMap.









(* ================================================================== *)
(** ** Casing variants of an email *)





Lemma suspendStudent_casing db e e' :
  normalize e = normalize e' ->
  ApiController.suspendStudent db e = ApiController.suspendStudent db e'.
Proof.
  intros H. unfold ApiController.suspendStudent, Student.findOne.
  rewrite (findOne_casing _ _ _ _ H). reflexivity.
Qed.









(* ================================================================== *)
(** ** How many students [findOrCreateByEmails] returns *)

Lemma count_occ_filter_true {A} (dec : forall a b : A, {a = b} + {a <> b}) p l x :
  p x = true -> count_occ dec (filter p l) x = count_occ dec l x.
Proof.
  intros Hp. induction l as [|y l IH]; simpl; [reflexivity|].
  destruct (dec y x) as [-> | Hne].
  - rewrite Hp. simpl. destruct (dec x x); [|congruence]. rewrite IH. reflexivity.
  - destruct (p y); simpl; [|exact IH]. destruct (dec y x); [congruence|exact IH].
Qed.








(* ================================================================== *)
(** ** Further properties: the entities *)

Lemma length_zero_empty (s : string) : (String.length s =? 0) = true <-> s = "".
Proof. destruct s; simpl; split; congruence. Qed.

Lemma existsb_empty_In emails :
  existsb (fun e => String.length e =? 0) emails = true <-> In "" emails.
Proof.
  rewrite existsb_exists. split.
  - intros (e & He & H). apply length_zero_empty in H. subst. assumption.
  - intros H. exists "". auto.
Qed.

Lemma existsb_empty_not_In emails :
  existsb (fun e => String.length e =? 0) emails = false <-> ~ In "" emails.
Proof.
  rewrite <- existsb_empty_In.
  destruct (existsb (fun e => String.length e =? 0) emails); split; congruence.
Qed.

Lemma teacherStored_findOne db e :
  Storage.findOne db Storage.TeacherType e = None <-> ~ teacherStored db e.
Proof.
  rewrite findOne_None. unfold teacherStored, key. split.
  - intros H (r & Hr & Hty & Hk). exact (H r Hr Hty Hk).
  - intros H r Hr Hty Hk. apply H. eauto.
Qed.



(** X2. [Student.findOrCreateByEmails] throws "email cannot be empty" when
    an entry is the empty string, whatever is stored.  When no entry is
    empty, in a well-formed state, it returns students whose emails are the
    lower-case entries, none missing and none added; a returned student with
    an id is the instance of a stored Student row, with the flag of the row,
    and one without id is not stored under its email and is not suspended. *)
Theorem findOrCreateByEmails_spec db emails :
  (In "" emails -> Student.findOrCreateByEmails db emails = Throw "email cannot be empty")
  /\ (~ In "" emails -> wellFormed db ->
      exists students,
        Student.findOrCreateByEmails db emails = Return students
        /\ (forall x, In x (map Student.email students) <-> In x (map normalize emails))
        /\ (forall s, In s students ->
              match Student.id s with
              | Some _ => exists row, In row (Storage.user db)
                                      /\ Storage.type row = Storage.StudentType
                                      /\ s = Student.ofRow row
              | None => ~ studentStored db (Student.email s)
                        /\ Student.isSuspended s = false
              end)).
Proof.
  split.
  - intros H. apply findOrCreateByEmails_empty_entry, existsb_empty_In, H.
  - intros Hne Hwf. apply existsb_empty_not_In in Hne.
    eexists. split; [apply findOrCreateByEmails_eq; exact Hne|].
    set (lowered := map normalize emails).
    set (rows := Storage.whereEmailIn db Storage.StudentType lowered).
    assert (Hrows : forall r, In r rows ->
               In r (Storage.user db) /\ Storage.type r = Storage.StudentType
               /\ In (Storage.email r) lowered).
    { intros r Hr. apply whereEmailIn_In in Hr. destruct Hr as (Hu & Hty & Hk).
      unfold lowered in Hk. rewrite map_normalize_idem in Hk.
      rewrite (wellFormed_stored_lower db r Hwf Hu) in Hk. auto. }
    split.
    + intros x. rewrite map_app, map_email_ofRow, map_map. simpl. rewrite map_id.
      rewrite in_app_iff, filter_In, negb_true_iff, includes_false. split.
      * intros [H | [H _]]; [|exact H]. apply in_map_iff in H.
        destruct H as (r & <- & Hr). apply Hrows. exact Hr.
      * intros H. destruct (in_dec string_dec x (map Storage.email rows)); auto.
    + intros s Hs. apply in_app_or in Hs. destruct Hs as [Hs | Hs]; apply in_map_iff in Hs.
      * destruct Hs as (r & <- & Hr). simpl. exists r.
        destruct (Hrows r Hr) as (Hu & Hty & _). auto.
      * destruct Hs as (e & <- & He). simpl. apply filter_In in He.
        destruct He as [He Hnot]. apply negb_true_iff, includes_false in Hnot.
        split; [|reflexivity]. intros (r & Hu & Hty & Hk). apply Hnot.
        apply in_map_iff. exists r.
        assert (Hx : Storage.email r = e).
        { rewrite <- (wellFormed_stored_lower db r Hwf Hu). unfold key. rewrite Hk.
          unfold lowered in He. apply in_map_iff in He. destruct He as (e0 & <- & _).
          apply toLowerCase_idem. }
        split; [exact Hx|]. apply whereEmailIn_In. repeat split; auto.
        unfold key. rewrite Hx. apply in_map. exact He.
Qed.

Lemma findOrCreateByEmails_spec_witness :
  Student.findOrCreateByEmails exampleDb ["s1@student.com"; ""]
  = Throw "email cannot be empty"
  /\ exists students,
       Student.findOrCreateByEmails exampleDb ["S3@student.com"; "s9@student.com"]
       = Return students
       /\ forall x, In x (map Student.email students)
                    <-> In x ["s3@student.com"; "s9@student.com"].
Proof.
  split.
  - apply (proj1 (findOrCreateByEmails_spec exampleDb ["s1@student.com"; ""])).
    simpl. auto.
  - destruct (proj2 (findOrCreateByEmails_spec exampleDb
                       ["S3@student.com"; "s9@student.com"]))
      as (students & Hret & Hemails & _).
    + simpl. intros [H | [H | []]]; discriminate.
    + apply exampleDb_wellFormed.
    + exists students. split; [exact Hret|exact Hemails].
Defined.

(* ================================================================== *)
(** ** Further properties: the answers of [registerStudents] *)

(** X3. The promise of [registerStudents] rejects exactly when the request
    is not a self-registration and the teacher email or a student email is
    empty.  In every other case a response is sent, and it is 204, the 400
    of the self-registration check or 500.  Whatever the answer, the storage
    is written only together with 204. *)
Theorem registerStudents_replies db teacherEmail studentEmails :
  (snd (ApiController.registerStudents db teacherEmail studentEmails)
   = Rejected "email cannot be empty"
   <-> ~ In teacherEmail studentEmails /\ (teacherEmail = "" \/ In "" studentEmails))
  /\ (forall message,
        snd (ApiController.registerStudents db teacherEmail studentEmails) = Rejected message ->
        message = "email cannot be empty")
  /\ (forall status body,
        snd (ApiController.registerStudents db teacherEmail studentEmails)
        = Response status body ->
        (status = 204 /\ body = NoBody)
        \/ (status = 400 /\ body = Message "teacher and student cannot be the same")
        \/ (status = 500 /\ body = NoBody))
  /\ (snd (ApiController.registerStudents db teacherEmail studentEmails)
      <> Response 204 NoBody ->
      fst (ApiController.registerStudents db teacherEmail studentEmails) = db).
Proof.
  unfold ApiController.registerStudents.
  destruct (JS.includes studentEmails teacherEmail) eqn:Hinc.
  { apply includes_In in Hinc. simpl. repeat split; try discriminate.
    - intros [H _]. contradiction.
    - intros status body H. injection H as <- <-. auto. }
  apply includes_false in Hinc.
  unfold Teacher.findOrCreate.
  destruct (String.length teacherEmail =? 0) eqn:Et.
  { apply length_zero_empty in Et. simpl. repeat split; auto; try discriminate.
    intros message H. injection H as <-. reflexivity. }
  assert (Hte : teacherEmail <> "").
  { intros H. apply length_zero_empty in H. congruence. }
  destruct (Teacher.findOne db (normalize teacherEmail)) as [teacher|].
  - destruct (existsb (fun e => String.length e =? 0) studentEmails) eqn:Es.
    + rewrite (findOrCreateByEmails_empty_entry _ _ Es). apply existsb_empty_In in Es.
      simpl. repeat split; auto; try discriminate.
      intros message H. injection H as <-. reflexivity.
    + rewrite (findOrCreateByEmails_eq _ _ Es). apply existsb_empty_not_In in Es.
      match goal with |- context [Teacher.save db ?x] => destruct (Teacher.save db x) end;
        simpl; repeat split; try discriminate; try tauto;
        try (intros status body H; injection H as <- <-; auto);
        try (intros H; congruence).
  - destruct (existsb (fun e => String.length e =? 0) studentEmails) eqn:Es.
    + rewrite (findOrCreateByEmails_empty_entry _ _ Es). apply existsb_empty_In in Es.
      simpl. repeat split; auto; try discriminate.
      intros message H. injection H as <-. reflexivity.
    + rewrite (findOrCreateByEmails_eq _ _ Es). apply existsb_empty_not_In in Es.
      match goal with |- context [Teacher.save db ?x] => destruct (Teacher.save db x) end;
        simpl; repeat split; try discriminate; try tauto;
        try (intros status body H; injection H as <- <-; auto);
        try (intros H; congruence).
Qed.

Lemma registerStudents_replies_witness :
  snd (ApiController.registerStudents exampleDb "t1@teacher.com" ["s1@student.com"; ""])
  = Rejected "email cannot be empty"
  /\ fst (ApiController.registerStudents exampleDb "t1@teacher.com" ["t2@teacher.com"])
     = exampleDb.
Proof.
  split.
  - apply (proj2 (proj1 (registerStudents_replies exampleDb "t1@teacher.com"
                           ["s1@student.com"; ""]))).
    split; [|right; simpl; auto]. simpl. intros [H | [H | []]]; discriminate.
  - apply (proj2 (proj2 (proj2 (registerStudents_replies exampleDb "t1@teacher.com"
                                  ["t2@teacher.com"])))).
    vm_compute. discriminate.
Defined.

(* ================================================================== *)
(** ** Further properties: nothing is ever removed *)

Lemma sameIdentity_refl r : sameIdentity r r.
Proof. unfold sameIdentity. auto. Qed.

Lemma sameIdentity_trans r1 r2 r3 :
  sameIdentity r1 r2 -> sameIdentity r2 r3 -> sameIdentity r1 r3.
Proof.
  unfold sameIdentity. intros (A1 & A2 & A3 & A4) (B1 & B2 & B3 & B4).
  repeat split; try congruence. auto.
Qed.

Lemma registerStudents_keeps db t ss :
  (forall j, In j (Storage.teacher_students db) ->
             In j (Storage.teacher_students (fst (ApiController.registerStudents db t ss))))
  /\ (forall r, In r (Storage.user db) ->
                In r (Storage.user (fst (ApiController.registerStudents db t ss)))).
Proof.
  unfold ApiController.registerStudents.
  destruct (JS.includes ss t); [auto|].
  destruct (Teacher.findOrCreate db t) as [teacher|]; [|auto].
  destruct (Student.findOrCreateByEmails db ss) as [students|]; [|auto].
  match goal with |- context [Teacher.save db ?x] =>
    destruct (Teacher.save db x) as [db'|] eqn:Hsave end; [|auto].
  simpl. destruct (save_post _ _ _ Hsave) as (tid & added & Hrow & Hkeep & _).
  split; [exact Hkeep|]. intros r Hr.
  match type of Hrow with
  | match ?o with _ => _ end => destruct o
  end.
  - destruct Hrow as [_ ->]. apply in_or_app. auto.
  - rewrite Hrow. apply in_or_app. auto.
Qed.

Lemma suspendStudent_keeps db e :
  Storage.teacher_students (fst (ApiController.suspendStudent db e))
  = Storage.teacher_students db
  /\ (forall r, In r (Storage.user db) ->
                exists r', In r' (Storage.user (fst (ApiController.suspendStudent db e)))
                           /\ sameIdentity r r').
Proof.
  unfold ApiController.suspendStudent, Student.findOne.
  destruct (Storage.findOne db Storage.StudentType e) as [found|]; simpl.
  - split; [reflexivity|]. intros r Hr.
    exists (if Storage.id r =? Storage.id found
            then Storage.mkRow (Storage.id r) (Storage.type r) (Storage.email r) true
            else r).
    split.
    + apply in_map_iff. exists r. auto.
    + destruct (Storage.id r =? Storage.id found); unfold sameIdentity; simpl; auto.
  - split; [reflexivity|]. intros r Hr. exists r. split; [assumption|apply sameIdentity_refl].
Qed.

Lemma serve_keeps db req :
  (forall j, In j (Storage.teacher_students db) ->
             In j (Storage.teacher_students (fst (serve db req))))
  /\ (forall r, In r (Storage.user db) ->
                exists r', In r' (Storage.user (fst (serve db req))) /\ sameIdentity r r').
Proof.
  destruct req as [t ss|q|e|t n]; simpl.
  - destruct (registerStudents_keeps db t ss) as [Hj Hu]. split; [exact Hj|].
    intros r Hr. exists r. split; [auto|apply sameIdentity_refl].
  - split; [auto|]. intros r Hr. exists r. split; [auto|apply sameIdentity_refl].
  - destruct (suspendStudent_keeps db e) as [Hj Hu]. split; [|exact Hu].
    intros j Hin. rewrite Hj. exact Hin.
  - split; [auto|]. intros r Hr. exists r. split; [auto|apply sameIdentity_refl].
Qed.

(** X4. No sequence of requests removes anything: a junction row stays, and
    a user keeps its id, its type and its email, and stays suspended once
    it is. *)
Theorem serveAll_never_removes reqs : forall db,
  (forall j, In j (Storage.teacher_students db) ->
             In j (Storage.teacher_students (serveAll db reqs)))
  /\ (forall r, In r (Storage.user db) ->
                exists r', In r' (Storage.user (serveAll db reqs)) /\ sameIdentity r r').
Proof.
  induction reqs as [|req reqs IH]; intros db; simpl.
  - split; [auto|]. intros r Hr. exists r. split; [auto|apply sameIdentity_refl].
  - destruct (serve_keeps db req) as [Hj Hu].
    destruct (IH (fst (serve db req))) as [IHj IHu]. split.
    + intros j Hin. apply IHj, Hj, Hin.
    + intros r Hr. destruct (Hu r Hr) as (r1 & Hr1 & S1).
      destruct (IHu r1 Hr1) as (r2 & Hr2 & S2).
      exists r2. split; [assumption|]. eapply sameIdentity_trans; eauto.
Qed.

Lemma serveAll_never_removes_witness :
  In (4, 5)
     (Storage.teacher_students
        (serveAll exampleDb [Register "t2@teacher.com" ["s1@student.com"];
                             Suspend "s1@student.com"]))
  /\ exists r',
       In r' (Storage.user
                (serveAll exampleDb [Register "t2@teacher.com" ["s1@student.com"];
                                     Suspend "s1@student.com"]))
       /\ sameIdentity (Storage.mkRow 5 Storage.StudentType "s3@student.com" true) r'.
Proof.
  split.
  - apply (proj1 (serveAll_never_removes
                    [Register "t2@teacher.com" ["s1@student.com"]; Suspend "s1@student.com"]
                    exampleDb)).
    simpl. auto.
  - apply (proj2 (serveAll_never_removes
                    [Register "t2@teacher.com" ["s1@student.com"]; Suspend "s1@student.com"]
                    exampleDb)).
    simpl. auto 10.
Defined.

(* ================================================================== *)
(** ** Further properties: what a suspension changes and what it keeps *)

Lemma find_map_preserved {A} (p : A -> bool) (f : A -> A) l :
  (forall x, p (f x) = p x) -> find p (map f l) = option_map f (find p l).
Proof.
  intros Hp. induction l as [|x l IH]; simpl; [reflexivity|].
  rewrite Hp. destruct (p x); [reflexivity|exact IH].
Qed.

Lemma filter_map_preserved {A} (p : A -> bool) (f : A -> A) l :
  (forall x, p (f x) = p x) -> filter p (map f l) = map f (filter p l).
Proof.
  intros Hp. induction l as [|x l IH]; simpl; [reflexivity|].
  rewrite Hp. destruct (p x); simpl; rewrite IH; reflexivity.
Qed.

Lemma flat_map_map_out {A B} (f : B -> B) (g : A -> list B) l :
  flat_map (fun j => map f (g j)) l = map f (flat_map g l).
Proof.
  induction l as [|x l IH]; simpl; [reflexivity|].
  rewrite map_app, IH. reflexivity.
Qed.

Section Suspension.

Variable i : nat.
Variable susp : bool.

Lemma setSuspended_findOne db ty e :
  Storage.findOne (Storage.setSuspended db i susp) ty e
  = option_map (fun r => if Storage.id r =? i
                         then Storage.mkRow (Storage.id r) (Storage.type r)
                                            (Storage.email r) susp
                         else r)
               (Storage.findOne db ty e).
Proof.
  unfold Storage.findOne, Storage.setSuspended. simpl.
  apply find_map_preserved. intros r. destruct (Storage.id r =? i); reflexivity.
Qed.

Lemma setSuspended_whereEmailIn db ty emails :
  Storage.whereEmailIn (Storage.setSuspended db i susp) ty emails
  = map (fun r => if Storage.id r =? i
                  then Storage.mkRow (Storage.id r) (Storage.type r)
                                     (Storage.email r) susp
                  else r)
        (Storage.whereEmailIn db ty emails).
Proof.
  unfold Storage.whereEmailIn, Storage.setSuspended. simpl.
  apply filter_map_preserved. intros r. destruct (Storage.id r =? i); reflexivity.
Qed.

Lemma setSuspended_studentsOf db t :
  Storage.studentsOf (Storage.setSuspended db i susp) t
  = map (fun r => if Storage.id r =? i
                  then Storage.mkRow (Storage.id r) (Storage.type r)
                                     (Storage.email r) susp
                  else r)
        (Storage.studentsOf db t).
Proof.
  unfold Storage.studentsOf, Storage.setSuspended. simpl.
  rewrite <- flat_map_map_out. apply flat_map_ext. intros j.
  destruct (fst j =? t); [|reflexivity].
  apply filter_map_preserved. intros r. destruct (Storage.id r =? i); reflexivity.
Qed.

Lemma setSuspended_roster db r :
  map Student.email
      (Teacher.students
         (Teacher.ofRow (Storage.setSuspended db i susp)
            (if Storage.id r =? i
             then Storage.mkRow (Storage.id r) (Storage.type r) (Storage.email r) susp
             else r)))
  = map Student.email (Teacher.students (Teacher.ofRow db r)).
Proof.
  unfold Teacher.ofRow. simpl.
  replace (Storage.id (if Storage.id r =? i
                       then Storage.mkRow (Storage.id r) (Storage.type r)
                                          (Storage.email r) susp
                       else r))
    with (Storage.id r) by (destruct (Storage.id r =? i); reflexivity).
  rewrite setSuspended_studentsOf, !map_map. apply map_ext. intros x.
  destruct (Storage.id x =? i); reflexivity.
Qed.

Lemma setSuspended_twice db :
  Storage.setSuspended (Storage.setSuspended db i susp) i susp
  = Storage.setSuspended db i susp.
Proof.
  unfold Storage.setSuspended. simpl. f_equal. rewrite map_map. apply map_ext.
  intros r. destruct (Storage.id r =? i) eqn:E; simpl; rewrite E; reflexivity.
Qed.

End Suspension.

(** X5. Suspending twice is suspending once: after [suspendStudent] a second
    request for the same email, in any casing, gives the same answer and
    leaves the state of the first; and after a 204 the student found under
    the email is suspended.  No assumption on the state is needed. *)
Theorem suspendStudent_idempotent db studentEmail studentEmail' :
  normalize studentEmail = normalize studentEmail' ->
  ApiController.suspendStudent (fst (ApiController.suspendStudent db studentEmail))
                               studentEmail'
  = ApiController.suspendStudent db studentEmail
  /\ (snd (ApiController.suspendStudent db studentEmail) = Response 204 NoBody ->
      exists student,
        Student.findOne (fst (ApiController.suspendStudent db studentEmail)) studentEmail'
        = Some student
        /\ Student.isSuspended student = true).
Proof.
  intros Hn. rewrite <- (suspendStudent_casing _ _ _ Hn).
  unfold Student.findOne. rewrite <- (findOne_casing _ _ _ _ Hn).
  unfold ApiController.suspendStudent, Student.findOne.
  destruct (Storage.findOne db Storage.StudentType studentEmail) as [found|] eqn:Hf; simpl.
  - rewrite setSuspended_findOne, Hf. simpl. rewrite Nat.eqb_refl. simpl.
    rewrite setSuspended_twice. split; [reflexivity|].
    intros _. eexists. split; reflexivity.
  - rewrite Hf. simpl. split; [reflexivity|discriminate].
Qed.

Lemma suspendStudent_idempotent_witness :
  ApiController.suspendStudent (fst (ApiController.suspendStudent exampleDb "s1@student.com"))
                               "S1@STUDENT.COM"
  = ApiController.suspendStudent exampleDb "s1@student.com".
Proof.
  apply (proj1 (suspendStudent_idempotent exampleDb "s1@student.com" "S1@STUDENT.COM"
                  eq_refl)).
Defined.

(** X6. A suspension does not show in [GET /commonstudents]: whatever
    [suspendStudent] did, every query gets the answer it got before. *)
Theorem suspendStudent_keeps_commonStudents db studentEmail teacherQuery :
  ApiController.listCommonStudents (fst (ApiController.suspendStudent db studentEmail))
                                   teacherQuery
  = ApiController.listCommonStudents db teacherQuery.
Proof.
  unfold ApiController.suspendStudent, Student.findOne.
  destruct (Storage.findOne db Storage.StudentType studentEmail) as [found|]; simpl;
    [|reflexivity].
  unfold ApiController.listCommonStudents.
  rewrite setSuspended_whereEmailIn, !length_map.
  destruct (_ <? _); [reflexivity|].
  unfold ApiController.commonStudents. rewrite !map_map.
  rewrite (map_ext _ _ (setSuspended_roster (Storage.id found) true db)).
  reflexivity.
Qed.

(* ================================================================== *)
(** ** Further properties: the status of [listStudentsForNotification] *)

Lemma Teacher_findOne_None db e : Teacher.findOne db e = None <-> ~ teacherStored db e.
Proof.
  unfold Teacher.findOne. rewrite <- teacherStored_findOne.
  destruct (Storage.findOne db Storage.TeacherType e); simpl; split; congruence.
Qed.

(** X7. [listStudentsForNotification] answers 404 "teacher not found"
    exactly when no Teacher is stored under the email, whatever the text.
    Otherwise it answers 200 with a list without duplicates, and a text can
    only add recipients to those of the empty text. *)
Theorem listStudentsForNotification_status db teacherEmail notification :
  (ApiController.listStudentsForNotification db teacherEmail notification
   = Response 404 (Message "teacher not found")
   <-> ~ teacherStored db teacherEmail)
  /\ (teacherStored db teacherEmail ->
      exists recipients onRoster,
        ApiController.listStudentsForNotification db teacherEmail notification
        = Response 200 (Recipients recipients)
        /\ ApiController.listStudentsForNotification db teacherEmail ""
           = Response 200 (Recipients onRoster)
        /\ NoDup recipients
        /\ incl onRoster recipients).
Proof.
  pose proof (Teacher_findOne_None db teacherEmail) as Hn.
  unfold ApiController.listStudentsForNotification.
  destruct (Teacher.findOne db teacherEmail) as [teacher|]; split.
  - split; [discriminate|]. intros H. apply Hn in H. discriminate.
  - intros _. eexists. eexists. split; [reflexivity|]. split; [reflexivity|].
    split; [apply Set_from_NoDup|].
    intros e He. apply (proj1 (Set_from_In _ _)) in He.
    replace (RegExp.match_ "" emailRegex) with (@None (list string)) in He by reflexivity.
    apply (proj2 (Set_from_In _ _)).
    destruct (RegExp.match_ notification emailRegex); [|exact He].
    rewrite push_mentioned. apply in_or_app. left. exact He.
  - split; [intros _; now apply Hn|reflexivity].
  - intros H. exfalso. now apply (proj1 Hn).
Qed.

Lemma listStudentsForNotification_status_witness :
  ApiController.listStudentsForNotification exampleDb "t9@teacher.com" "Hi @s1@student.com"
  = Response 404 (Message "teacher not found")
  /\ exists recipients onRoster,
       ApiController.listStudentsForNotification exampleDb "T2@teacher.com"
                                                 "Hi @s1@student.com"
       = Response 200 (Recipients recipients)
       /\ ApiController.listStudentsForNotification exampleDb "T2@teacher.com" ""
          = Response 200 (Recipients onRoster)
       /\ NoDup recipients
       /\ incl onRoster recipients.
Proof.
  split.
  - apply (proj2 (proj1 (listStudentsForNotification_status exampleDb "t9@teacher.com"
                           "Hi @s1@student.com"))).
    intros (r & Hr & _ & He). simpl in Hr.
    repeat (destruct Hr as [<- | Hr]; [discriminate He|]). exact Hr.
  - apply (proj2 (listStudentsForNotification_status exampleDb "T2@teacher.com"
                    "Hi @s1@student.com")).
    exists (Storage.mkRow 4 Storage.TeacherType "t2@teacher.com" false).
    simpl. auto 10.
Defined.

(* ================================================================== *)
(** ** Further properties: the validation middleware *)



(* ================================================================== *)
(** ** Further properties: the mentions of a text, part by part *)

Lemma words_nonempty text : words text <> [].
Proof.
  destruct text as [|c text]; simpl; [discriminate|].
  destruct (RegExp.nonSpace c); [|discriminate].
  destruct (words text); discriminate.
Qed.

Lemma words_app a c b :
  RegExp.nonSpace c = false -> words (a ++ c :: b) = words a ++ words b.
Proof.
  intros Hc. induction a as [|x a IH]; simpl.
  - rewrite Hc. reflexivity.
  - rewrite IH. destruct (RegExp.nonSpace x); [|reflexivity].
    destruct (words a) as [|w ws] eqn:Ew; [|reflexivity].
    exfalso. exact (words_nonempty a Ew).
Qed.

(** X9. No mention spans a white space: the tokens captured from a text are
    those captured from the part before a white-space character followed by
    those captured from the part after it. *)
Theorem mentions_app_space a c b :
  RegExp.nonSpace c = false -> mentions (a ++ c :: b) = mentions a ++ mentions b.
Proof.
  intros Hc. rewrite !mentions_by_word. unfold mentionsByWord.
  rewrite (words_app _ _ _ Hc). apply flat_map_app.
Qed.

Lemma mentions_app_space_witness :
  mentions (list_ascii_of_string "hi @a@b.c" ++ " "%char :: list_ascii_of_string "@d@e.f")
  = mentions (list_ascii_of_string "hi @a@b.c") ++ mentions (list_ascii_of_string "@d@e.f").
Proof.
  apply (mentions_app_space (list_ascii_of_string "hi @a@b.c") " "%char
                            (list_ascii_of_string "@d@e.f")).
  reflexivity.
Defined.

(* ================================================================== *)
(** ** Further properties: the answer of [listCommonStudents] *)

Lemma Teacher_findOne_row db e r :
  wellFormed db -> In r (Storage.user db) -> Storage.type r = Storage.TeacherType ->
  key r = normalize e ->
  Teacher.findOne db e = Some (Teacher.ofRow db r).
Proof.
  intros Hwf Hr Hty Hk. unfold Teacher.findOne.
  destruct (Storage.findOne db Storage.TeacherType e) as [r'|] eqn:Hf; simpl.
  - apply findOne_Some in Hf. destruct Hf as (Hr' & _ & Hk').
    rewrite (wellFormed_uniqueEmails _ Hwf r' r Hr' Hr); [reflexivity|].
    unfold key in *. congruence.
  - exfalso. exact (proj1 (findOne_None _ _ _) Hf r Hr Hty Hk).
Qed.

Lemma rosterOf_row db e r :
  wellFormed db -> In r (Storage.user db) -> Storage.type r = Storage.TeacherType ->
  key r = normalize e ->
  rosterOf db e = map Storage.email (Storage.studentsOf db (Storage.id r)).
Proof.
  intros Hwf Hr Hty Hk. unfold rosterOf.
  rewrite (Teacher_findOne_row _ _ _ Hwf Hr Hty Hk).
  unfold rosterEmails, Teacher.ofRow. simpl. apply map_email_ofRow.
Qed.

Lemma intersect_NoDup rest : forall a, NoDup a -> NoDup (ApiController.intersect a rest).
Proof.
  unfold ApiController.intersect.
  induction rest as [|b rest IH]; intros a Ha; simpl; [exact Ha|].
  apply IH. apply NoDup_filter. exact Ha.
Qed.

Lemma teachers_keys db emails :
  wellFormed db ->
  NoDup (map key (Storage.whereEmailIn db Storage.TeacherType emails))
  /\ incl (map key (Storage.whereEmailIn db Storage.TeacherType emails))
          (map normalize emails).
Proof.
  intros Hwf. split.
  - unfold Storage.whereEmailIn. apply NoDup_map_filter. apply (wf_emails _ Hwf).
  - intros k Hk. apply in_map_iff in Hk. destruct Hk as (r & <- & Hr).
    apply whereEmailIn_In in Hr. tauto.
Qed.

Lemma teachers_all_found db emails :
  (forall e, In e emails -> teacherStored db e) ->
  incl (map normalize emails)
       (map key (Storage.whereEmailIn db Storage.TeacherType emails)).
Proof.
  intros Hall k Hk. apply in_map_iff in Hk. destruct Hk as (e & <- & He).
  destruct (Hall e He) as (r & Hr & Hty & Hkey).
  apply in_map_iff. exists r. split; [exact Hkey|].
  apply whereEmailIn_In. split; [exact Hr|]. split; [exact Hty|].
  unfold key. rewrite Hkey. apply in_map. exact He.
Qed.

Lemma listCommonStudents_all_stored db emails :
  wellFormed db -> NoDup (map normalize emails) ->
  (forall e, In e emails -> teacherStored db e) ->
  exists students,
    ApiController.listCommonStudents db (Array emails) = Response 200 (Students students)
    /\ NoDup students
    /\ forall x, In x students
                 <-> emails <> [] /\ forall e, In e emails -> In x (rosterOf db e).
Proof.
  intros Hwf Hnd. destruct (teachers_keys db emails Hwf) as [Hkn Hki].
  intros Hall. pose proof (teachers_all_found db emails Hall) as Hik.
  assert (Hlen : List.length emails
                 <= List.length (Storage.whereEmailIn db Storage.TeacherType emails)).
  { pose proof (NoDup_incl_length Hnd Hik) as H. rewrite !length_map in H. exact H. }
  unfold ApiController.listCommonStudents. rewrite length_map.
  destruct (_ <? _) eqn:Hlt; [apply Nat.ltb_lt in Hlt; lia|].
  assert (Hroster : forall r e x,
             In r (Storage.whereEmailIn db Storage.TeacherType emails) ->
             key r = normalize e ->
             (In x (map Student.email (Teacher.students (Teacher.ofRow db r)))
              <-> In x (rosterOf db e))).
  { intros r e x Hr Hk. apply whereEmailIn_In in Hr. destruct Hr as (Hr & Hty & _).
    rewrite (rosterOf_row db e r Hwf Hr Hty Hk).
    unfold Teacher.ofRow. simpl. rewrite map_email_ofRow. tauto. }
  assert (Hrow : forall e, In e emails ->
             exists r, In r (Storage.whereEmailIn db Storage.TeacherType emails)
                       /\ key r = normalize e).
  { intros e He. assert (Hin := Hik (normalize e) (in_map _ _ _ He)).
    apply in_map_iff in Hin. destruct Hin as (r & Hk & Hr). eauto. }
  assert (Hemail : forall r, In r (Storage.whereEmailIn db Storage.TeacherType emails) ->
             exists e, In e emails /\ key r = normalize e).
  { intros r Hr. apply whereEmailIn_In in Hr. destruct Hr as (_ & _ & Hk).
    apply in_map_iff in Hk. destruct Hk as (e & Hk & He). eauto. }
  unfold ApiController.commonStudents.
  destruct (Storage.whereEmailIn db Storage.TeacherType emails) as [|r rows] eqn:Hrows.
  - simpl. eexists. split; [reflexivity|]. split; [constructor|].
    intros x. split; [intros []|]. intros [Hne _].
    destruct emails; [congruence|]. simpl in Hlen. lia.
  - cbn [map]. eexists. split; [reflexivity|]. split.
    + apply intersect_NoDup. unfold Teacher.ofRow. simpl. rewrite map_email_ofRow.
      apply roster_NoDup. exact Hwf.
    + intros x. rewrite intersect_In. split.
      *  intros [Hx Hrest]. split.
         { intros ->. rewrite whereEmailIn_nil in Hrows. discriminate. }
         intros e He. destruct (Hrow e He) as (r' & Hr' & Hk').
         apply (Hroster r' e x Hr' Hk').
         destruct Hr' as [<- | Hr']; [exact Hx|].
         apply Hrest. apply in_map_iff. exists (Teacher.ofRow db r').
         split; [reflexivity|]. apply in_map. exact Hr'.
      *  intros [_ Hx]. split.
         -- destruct (Hemail r (or_introl eq_refl)) as (e & He & Hk).
            apply (Hroster r e x (or_introl eq_refl) Hk). auto.
         -- intros b Hb. apply in_map_iff in Hb. destruct Hb as (t & <- & Ht).
            apply in_map_iff in Ht. destruct Ht as (r' & <- & Hr').
            destruct (Hemail r' (or_intror Hr')) as (e & He & Hk).
            apply (Hroster r' e x (or_intror Hr') Hk). auto.
Qed.

(** X10. [listCommonStudents] on a request that names no teacher twice (no
    two emails equal up to case), in a well-formed state.  It answers 404
    "teacher not found" when some email has no stored Teacher.  When every
    email has one it answers 200, and the list has no duplicates and holds
    exactly the emails that are on the roster of every named teacher.  A
    single value is treated as the array of that value. *)
Theorem listCommonStudents_spec db emails :
  wellFormed db -> NoDup (map normalize emails) ->
  ((exists e, In e emails /\ ~ teacherStored db e) ->
   ApiController.listCommonStudents db (Array emails)
   = Response 404 (Message "teacher not found"))
  /\ ((forall e, In e emails -> teacherStored db e) ->
      exists students,
        ApiController.listCommonStudents db (Array emails) = Response 200 (Students students)
        /\ NoDup students
        /\ forall x, In x students
                     <-> emails <> [] /\ forall e, In e emails -> In x (rosterOf db e))
  /\ (forall q, ApiController.listCommonStudents db (Single q)
                = ApiController.listCommonStudents db (Array [q])).
Proof.
  intros Hwf Hnd. destruct (teachers_keys db emails Hwf) as [Hkn Hki].
  split; [|split; [|reflexivity]].
  - intros (e & He & Hno). unfold ApiController.listCommonStudents.
    rewrite length_map.
    destruct (_ <? _) eqn:Hlt; [reflexivity|]. exfalso. apply Hno.
    apply Nat.ltb_ge in Hlt.
    assert (Hin : In (normalize e)
                     (map key (Storage.whereEmailIn db Storage.TeacherType emails))).
    { refine (NoDup_length_incl Hkn _ Hki (normalize e) _).
      - rewrite !length_map. exact Hlt.
      - apply in_map. exact He. }
    apply in_map_iff in Hin. destruct Hin as (r & Hk & Hr).
    apply whereEmailIn_In in Hr. exists r. unfold key in Hk. tauto.
  - exact (listCommonStudents_all_stored db emails Hwf Hnd).
Qed.

Lemma listCommonStudents_spec_witness :
  ApiController.listCommonStudents exampleDb (Array ["t1@teacher.com"; "t3@teacher.com"])
  = Response 404 (Message "teacher not found")
  /\ exists students,
       ApiController.listCommonStudents exampleDb (Array ["T2@teacher.com"; "t1@teacher.com"])
       = Response 200 (Students students)
       /\ NoDup students
       /\ forall x, In x students
                    <-> ["T2@teacher.com"; "t1@teacher.com"] <> []
                        /\ forall e, In e ["T2@teacher.com"; "t1@teacher.com"] ->
                                     In x (rosterOf exampleDb e).
Proof.
  split.
  - apply (proj1 (listCommonStudents_spec exampleDb ["t1@teacher.com"; "t3@teacher.com"]
                    exampleDb_wellFormed
                    ltac:(repeat constructor; simpl; intuition discriminate))).
    exists "t3@teacher.com". split; [simpl; auto|].
    intros (r & Hr & _ & He). simpl in Hr.
    repeat (destruct Hr as [<- | Hr]; [discriminate He|]). exact Hr.
  - apply (proj1 (proj2 (listCommonStudents_spec exampleDb
                           ["T2@teacher.com"; "t1@teacher.com"]
                           exampleDb_wellFormed
                           ltac:(repeat constructor; simpl; intuition discriminate)))).
    intros e [<- | [<- | []]].
    + exists (Storage.mkRow 4 Storage.TeacherType "t2@teacher.com" false). simpl. auto 10.
    + exists (Storage.mkRow 1 Storage.TeacherType "t1@teacher.com" false). simpl. auto 10.
Defined.

(* ================================================================== *)
(** ** Further properties: what [Teacher.save] writes *)

Lemma max_ids_app (l l' : list nat) :
  fold_right Nat.max 0 l <= fold_right Nat.max 0 (l ++ l').
Proof. induction l as [|x l IH]; simpl; lia. Qed.

Lemma nextId_mono db db' added :
  Storage.user db' = Storage.user db ++ added -> Storage.nextId db <= Storage.nextId db'.
Proof.
  intros H. unfold Storage.nextId. rewrite H, map_app.
  pose proof (max_ids_app (map Storage.id (Storage.user db)) (map Storage.id added)). lia.
Qed.

Lemma Forall2_In_r {A B} (R : A -> B -> Prop) l l' y :
  Forall2 R l l' -> In y l' -> exists x, In x l /\ R x y.
Proof.
  induction 1 as [|x y' l l' Hxy _ IH]; intros Hy; [destruct Hy|].
  destruct Hy as [<- | Hy].
  - exists x. split; [left; reflexivity|exact Hxy].
  - destruct (IH Hy) as (x' & Hx' & HR). exists x'. split; [right; exact Hx'|exact HR].
Qed.

Lemma find_all_false {A} (p : A -> bool) l :
  (forall x, In x l -> p x = false) -> find p l = None.
Proof.
  induction l as [|x l IH]; intros H; simpl; [reflexivity|].
  rewrite (H x (or_introl eq_refl)). apply IH. intros y Hy. apply H. right. exact Hy.
Qed.

Lemma flat_map_all_nil {A B} (f : A -> list B) l :
  (forall x, In x l -> f x = []) -> flat_map f l = [].
Proof.
  induction l as [|x l IH]; intros H; simpl; [reflexivity|].
  rewrite (H x (or_introl eq_refl)). apply IH. intros y Hy. apply H. right. exact Hy.
Qed.

Lemma flat_map_ext_In {A B} (f g : A -> list B) l :
  (forall x, In x l -> f x = g x) -> flat_map f l = flat_map g l.
Proof.
  induction l as [|x l IH]; intros H; simpl; [reflexivity|].
  rewrite (H x (or_introl eq_refl)). f_equal. apply IH. intros y Hy. apply H. right. exact Hy.
Qed.

Lemma filter_map_swap {A B} (p : B -> bool) (f : A -> B) l :
  filter p (map f l) = map f (filter (fun x => p (f x)) l).
Proof.
  induction l as [|x l IH]; simpl; [reflexivity|].
  destruct (p (f x)); simpl; rewrite IH; reflexivity.
Qed.

Lemma filter_all {A} (p : A -> bool) l :
  (forall x, In x l -> p x = true) -> filter p l = l.
Proof.
  induction l as [|x l IH]; intros H; simpl; [reflexivity|].
  rewrite (H x (or_introl eq_refl)). f_equal. apply IH. intros y Hy. apply H. right. exact Hy.
Qed.

(** The rows a cascade adds: fresh ids, Students, one for a member without
    id, and its id is among the ids returned. *)
Lemma cascade_added l : forall db db' ids,
  Teacher.cascade db l = Some (db', ids) ->
  exists added,
    Storage.user db' = Storage.user db ++ added
    /\ forall r, In r added ->
         Storage.nextId db <= Storage.id r
         /\ Storage.type r = Storage.StudentType
         /\ In (Storage.id r) ids
         /\ exists s, In s l /\ Student.id s = None
                      /\ Storage.email r = Student.email s
                      /\ Storage.isSuspended r = Student.isSuspended s.
Proof.
  induction l as [|s l IH]; intros db db' ids H; simpl in H.
  - injection H as <- <-. exists []. rewrite app_nil_r. split; [reflexivity|intros r []].
  - destruct (Student.id s) as [j|] eqn:Hid.
    + destruct (Teacher.cascade db l) as [[db2 ids']|] eqn:Hc; [|discriminate].
      injection H as <- <-. destruct (IH _ _ _ Hc) as (added & Ha & Hr).
      exists added. split; [exact Ha|]. intros r Hin.
      destruct (Hr r Hin) as (H1 & H2 & H3 & s' & H4 & H5).
      repeat split; auto; [right; exact H3|]. exists s'. split; [right; exact H4|exact H5].
    + destruct (Storage.insert db Storage.StudentType (Student.email s) (Student.isSuspended s))
        as [[db1 i]|] eqn:Hins; [|discriminate].
      destruct (Teacher.cascade db1 l) as [[db2 ids']|] eqn:Hc; [|discriminate].
      injection H as <- <-. destruct (IH _ _ _ Hc) as (added & Ha & Hr).
      apply insert_Some in Hins. destruct Hins as (_ & -> & ->). simpl in Ha.
      exists (Storage.mkRow (Storage.nextId db) Storage.StudentType (Student.email s)
                            (Student.isSuspended s) :: added).
      split; [rewrite Ha, <- app_assoc; reflexivity|].
      intros r [<- | Hin]; simpl.
      * split; [lia|]. split; [reflexivity|]. split; [left; reflexivity|].
        exists s. split; [left; reflexivity|]. auto.
      * destruct (Hr r Hin) as (H1 & H2 & H3 & s' & H4 & H5).
        repeat split; auto.
        -- etransitivity; [|exact H1]. eapply nextId_mono. simpl. reflexivity.
        -- exists s'. split; [right; exact H4|exact H5].
Qed.

(** The junction rows added for a teacher: appended, all for this teacher,
    each for one of the ids. *)
Lemma links_added t sids : forall db,
  exists links,
    Storage.teacher_students (fold_left (Storage.link t) sids db)
    = Storage.teacher_students db ++ links
    /\ forall j, In j links -> fst j = t /\ In (snd j) sids.
Proof.
  induction sids as [|s sids IH]; intros db; simpl.
  - exists []. rewrite app_nil_r. split; [reflexivity|intros j []].
  - destruct (IH (Storage.link t db s)) as (links & Hl & Hin).
    unfold Storage.link in *. destruct (Storage.linked db t s).
    + exists links. split; [exact Hl|]. intros j Hj. destruct (Hin j Hj). auto.
    + simpl in Hl. exists ((t, s) :: links).
      split; [rewrite Hl, <- app_assoc; reflexivity|].
      intros j [<- | Hj]; simpl; [auto|]. destruct (Hin j Hj). auto.
Qed.

Lemma save_added db teacher db' :
  Teacher.save db teacher = Some db' ->
  exists tid added links,
    Storage.user db' = Storage.user db ++ added
    /\ Storage.teacher_students db' = Storage.teacher_students db ++ links
    /\ match Teacher.id teacher with
       | Some i => tid = i
       | None => tid = Storage.nextId db
                 /\ In (Storage.mkRow tid Storage.TeacherType (Teacher.email teacher) false)
                       added
       end
    /\ (forall r, In r added -> Storage.nextId db <= Storage.id r)
    /\ (forall r, In r added -> Storage.type r = Storage.TeacherType ->
          Teacher.id teacher = None
          /\ r = Storage.mkRow tid Storage.TeacherType (Teacher.email teacher) false)
    /\ (forall r, In r added -> Storage.type r = Storage.StudentType ->
          In (tid, Storage.id r) (Storage.teacher_students db')
          /\ exists s, In s (Teacher.students teacher) /\ Student.id s = None
                       /\ Storage.email r = Student.email s
                       /\ Storage.isSuspended r = Student.isSuspended s)
    /\ (forall j, In j links ->
          fst j = tid
          /\ exists s, In s (Teacher.students teacher)
                       /\ match Student.id s with
                          | Some i => snd j = i
                          | None => In (Storage.mkRow (snd j) Storage.StudentType
                                          (Student.email s) (Student.isSuspended s))
                                       (Storage.user db')
                          end)
    /\ (forall s, In s (Teacher.students teacher) ->
          exists i, In (tid, i) (Storage.teacher_students db')
                    /\ match Student.id s with
                       | Some j => i = j
                       | None => In (Storage.mkRow i Storage.StudentType (Student.email s)
                                                   (Student.isSuspended s))
                                    (Storage.user db')
                       end).
Proof.
  intros H. unfold Teacher.save in H.
  destruct (match Teacher.id teacher with
            | Some i => Some (db, i)
            | None => Storage.insert db Storage.TeacherType (Teacher.email teacher) false
            end) as [[db1 tid]|] eqn:H1; [|discriminate].
  destruct (Teacher.cascade db1 (Teacher.students teacher)) as [[db2 sids]|] eqn:H2;
    [|discriminate].
  injection H as <-.
  destruct (cascade_spec _ _ _ _ H2) as (Hj2 & _ & Hf).
  destruct (cascade_added _ _ _ _ H2) as (added2 & Ha2 & Hadded2).
  destruct (links_spec tid sids db2) as (Hu & Hin & _).
  destruct (links_added tid sids db2) as (links & Hl & Hlinks).
  assert (H1' : exists pre,
             Storage.user db1 = Storage.user db ++ pre
             /\ Storage.teacher_students db1 = Storage.teacher_students db
             /\ match Teacher.id teacher with
                | Some i => tid = i /\ pre = []
                | None => tid = Storage.nextId db
                          /\ pre = [Storage.mkRow tid Storage.TeacherType
                                                  (Teacher.email teacher) false]
                end).
  { destruct (Teacher.id teacher).
    - injection H1 as <- <-. exists []. rewrite app_nil_r. auto.
    - apply insert_Some in H1. destruct H1 as (_ & -> & ->). simpl. eauto. }
  destruct H1' as (pre & Hu1 & Hj1 & Hpre).
  exists tid, (pre ++ added2), links. rewrite Hu.
  split; [rewrite Ha2, Hu1, <- app_assoc; reflexivity|].
  split; [rewrite Hl, Hj2, Hj1; reflexivity|].
  split; [|split; [|split; [|split; [|split]]]].
  - destruct (Teacher.id teacher); [tauto|]. destruct Hpre as [-> ->].
    split; [reflexivity|]. left. reflexivity.
  - intros r Hr. apply in_app_or in Hr. destruct Hr as [Hr | Hr].
    + destruct (Teacher.id teacher); destruct Hpre as [-> ->]; [destruct Hr|].
      destruct Hr as [<- | []]. simpl. lia.
    + destruct (Hadded2 r Hr) as (Hle & _). etransitivity; [|exact Hle].
      eapply nextId_mono. exact Hu1.
  - intros r Hr Hty. apply in_app_or in Hr. destruct Hr as [Hr | Hr].
    + destruct (Teacher.id teacher); destruct Hpre as [-> ->]; [destruct Hr|].
      destruct Hr as [<- | []]. auto.
    + destruct (Hadded2 r Hr) as (_ & Hty' & _). congruence.
  - intros r Hr Hty. apply in_app_or in Hr. destruct Hr as [Hr | Hr].
    + exfalso. destruct (Teacher.id teacher); destruct Hpre as [-> ->]; [destruct Hr|].
      destruct Hr as [<- | []]. discriminate.
    + destruct (Hadded2 r Hr) as (_ & _ & Hid & Hs). split; [|exact Hs].
      apply Hin. right. simpl. auto.
  - intros j Hj. destruct (Hlinks j Hj) as [Hfst Hsnd]. split; [exact Hfst|].
    destruct (Forall2_In_r _ _ _ _ Hf Hsnd) as (s & Hs & HR). exists s. split; [exact Hs|].
    exact HR.
  - intros s Hs.
    assert (Hex : exists i, In i sids
                            /\ match Student.id s with
                               | Some j => i = j
                               | None => In (Storage.mkRow i Storage.StudentType
                                               (Student.email s) (Student.isSuspended s))
                                            (Storage.user db2)
                               end).
    { clear - Hf Hs. induction Hf as [|x y l l' Hxy _ IH]; [destruct Hs|].
      destruct Hs as [<- | Hs].
      - exists y. split; [left; reflexivity|exact Hxy].
      - destruct (IH Hs) as (i & Hi & HR). exists i. split; [right; exact Hi|exact HR]. }
    destruct Hex as (i & Hi & HR). exists i. split; [|exact HR].
    apply Hin. right. simpl. auto.
Qed.

(** What a saved registration went through. *)
Lemma registerStudents_saved db t ss db' :
  ApiController.registerStudents db t ss = (db', Response 204 NoBody) ->
  exists teacher students,
    ~ In t ss
    /\ Teacher.findOrCreate db t = Return teacher
    /\ Student.findOrCreateByEmails db ss = Return students
    /\ Teacher.save db
         (Teacher.pushAll teacher
            (filter (fun s => negb (JS.has (JS.Set_from (map Student.email
                                                            (Teacher.students teacher)))
                                           (Student.email s)))
                    students)) = Some db'.
Proof.
  unfold ApiController.registerStudents.
  destruct (JS.includes ss t) eqn:Hinc; [discriminate|].
  apply includes_false in Hinc.
  destruct (Teacher.findOrCreate db t) as [teacher|]; [|discriminate].
  destruct (Student.findOrCreateByEmails db ss) as [students|]; [|discriminate].
  match goal with |- context [Teacher.save db ?x] =>
    destruct (Teacher.save db x) as [db1|] eqn:Hsave end; [|discriminate].
  intros H. injection H as <-. exists teacher, students. auto.
Qed.

Lemma registerStudents_not_saved db t ss :
  snd (ApiController.registerStudents db t ss) <> Response 204 NoBody ->
  fst (ApiController.registerStudents db t ss) = db.
Proof.
  unfold ApiController.registerStudents.
  destruct (JS.includes ss t); [reflexivity|].
  destruct (Teacher.findOrCreate db t) as [teacher|]; [|reflexivity].
  destruct (Student.findOrCreateByEmails db ss) as [students|]; [|reflexivity].
  match goal with |- context [Teacher.save db ?x] =>
    destruct (Teacher.save db x) as [db1|] end; [|reflexivity].
  simpl. congruence.
Qed.

Lemma registerStudents_replies_cases db t ss :
  snd (ApiController.registerStudents db t ss) = Response 204 NoBody
  \/ fst (ApiController.registerStudents db t ss) = db.
Proof.
  unfold ApiController.registerStudents.
  destruct (JS.includes ss t); [auto|].
  destruct (Teacher.findOrCreate db t) as [teacher|]; [|auto].
  destruct (Student.findOrCreateByEmails db ss) as [students|]; [|auto].
  match goal with |- context [Teacher.save db ?x] =>
    destruct (Teacher.save db x) as [db1|] end; auto.
Qed.

(* ================================================================== *)
(** ** Further properties: users come into the storage by registration only *)

Lemma registerStudents_registered db t ss :
  registered db -> registered (fst (ApiController.registerStudents db t ss)).
Proof.
  intros Hreg. unfold ApiController.registerStudents.
  destruct (JS.includes ss t); [exact Hreg|].
  destruct (Teacher.findOrCreate db t) as [teacher|] eqn:Ht; [|exact Hreg].
  destruct (Student.findOrCreateByEmails db ss) as [students|]; [|exact Hreg].
  match goal with |- context [Teacher.save db ?x] =>
    destruct (Teacher.save db x) as [db'|] eqn:Hsave end; [|exact Hreg].
  simpl. apply save_added in Hsave.
  destruct Hsave as (tid & added & links & Hu & Hj & Htid & _ & Hteach & Hstud & Hlinks & _).
  simpl in Htid, Hteach.
  apply findOrCreate_Return in Ht. destruct Ht as [_ Ht].
  constructor.
  - intros t0 s0 Hin. rewrite Hj in Hin. apply in_app_or in Hin. destruct Hin as [Hin | Hin].
    + destruct (reg_link_teacher _ Hreg _ _ Hin) as (r & Hr & Hid & Hty).
      exists r. rewrite Hu. split; [apply in_or_app; auto|auto].
    + destruct (Hlinks _ Hin) as [Hfst _]. simpl in Hfst. subst t0.
      destruct Ht as [(tr & Hf & ->) | (_ & ->)]; simpl in Htid.
      * apply findOne_Some in Hf. destruct Hf as (Hr & Hty & _).
        exists tr. rewrite Hu. split; [apply in_or_app; auto|auto].
      * destruct Htid as [_ Hin']. eexists. rewrite Hu.
        split; [apply in_or_app; right; exact Hin'|]. simpl. auto.
  - intros r Hr Hty. rewrite Hu in Hr. apply in_app_or in Hr. destruct Hr as [Hr | Hr].
    + destruct (reg_student_linked _ Hreg _ Hr Hty) as (t0 & Hin).
      exists t0. rewrite Hj. apply in_or_app. auto.
    + exists tid. apply (Hstud r Hr Hty).
  - intros r Hr Hty. rewrite Hu in Hr. apply in_app_or in Hr. destruct Hr as [Hr | Hr].
    + exact (reg_teacher_active _ Hreg _ Hr Hty).
    + destruct (Hteach r Hr Hty) as [_ ->]. reflexivity.
Qed.

Lemma suspendStudent_registered db e :
  wellFormed db -> registered db -> registered (fst (ApiController.suspendStudent db e)).
Proof.
  intros Hwf Hreg. unfold ApiController.suspendStudent, Student.findOne.
  destruct (Storage.findOne db Storage.StudentType e) as [found|] eqn:Hf; simpl;
    [|exact Hreg].
  apply findOne_Some in Hf. destruct Hf as (Hfound & Hfty & _).
  constructor; simpl.
  - intros t0 s0 Hin. destruct (reg_link_teacher _ Hreg _ _ Hin) as (r & Hr & Hid & Hty).
    eexists. split; [apply in_map; exact Hr|].
    destruct (Storage.id r =? Storage.id found); simpl; auto.
  - intros r' Hr' Hty. apply in_map_iff in Hr'. destruct Hr' as (r & <- & Hr).
    destruct (reg_student_linked _ Hreg r Hr) as (t0 & Hin).
    + destruct (Storage.id r =? Storage.id found); simpl in Hty; exact Hty.
    + exists t0. destruct (Storage.id r =? Storage.id found); simpl; exact Hin.
  - intros r' Hr' Hty. apply in_map_iff in Hr'. destruct Hr' as (r & <- & Hr).
    destruct (Storage.id r =? Storage.id found) eqn:E.
    + apply Nat.eqb_eq in E. simpl in Hty.
      rewrite (wellFormed_id_inj _ _ _ Hwf Hr Hfound E) in Hty. congruence.
    + exact (reg_teacher_active _ Hreg _ Hr Hty).
Qed.

Lemma serve_registered db req :
  wellFormed db -> registered db -> registered (fst (serve db req)).
Proof.
  intros Hwf Hreg. destruct req; simpl; auto.
  - apply registerStudents_registered. exact Hreg.
  - apply suspendStudent_registered; assumption.
Qed.

Lemma empty_registered : registered Storage.empty.
Proof. constructor; simpl; intros; contradiction. Qed.

Lemma reachable_registered_inv db : reachable db -> registered db.
Proof.
  induction 1 as [|db req Hr IH]; [exact empty_registered|].
  apply serve_registered; [apply reachable_wellFormed; exact Hr|exact IH].
Qed.

(** X11. In every state the API can produce from an empty schema: a
    junction row joins a stored Teacher to a stored Student; every stored
    Student is on the roster of some stored Teacher, because Students are
    only created by a registration; and no Teacher is suspended, because
    [suspendStudent] only looks among the Students. *)
Theorem reachable_registered db :
  reachable db ->
  (forall t s, In (t, s) (Storage.teacher_students db) ->
     (exists r, In r (Storage.user db) /\ Storage.id r = t
                /\ Storage.type r = Storage.TeacherType)
     /\ (exists r, In r (Storage.user db) /\ Storage.id r = s
                   /\ Storage.type r = Storage.StudentType))
  /\ (forall r, In r (Storage.user db) -> Storage.type r = Storage.StudentType ->
        exists tr, In tr (Storage.user db) /\ Storage.type tr = Storage.TeacherType
                   /\ In r (Storage.studentsOf db (Storage.id tr)))
  /\ (forall r, In r (Storage.user db) -> Storage.type r = Storage.TeacherType ->
        Storage.isSuspended r = false).
Proof.
  intros Hr. pose proof (reachable_registered_inv _ Hr) as Hreg.
  pose proof (reachable_wellFormed _ Hr) as Hwf.
  split; [|split].
  - intros t s Hin. split; [exact (reg_link_teacher _ Hreg _ _ Hin)|].
    pose proof (wf_link_student _ Hwf) as Hl. rewrite Forall_forall in Hl.
    exact (Hl _ Hin).
  - intros r Hin Hty. destruct (reg_student_linked _ Hreg _ Hin Hty) as (t & Hj).
    destruct (reg_link_teacher _ Hreg _ _ Hj) as (tr & Htr & <- & Htty).
    exists tr. split; [exact Htr|]. split; [exact Htty|].
    apply studentsOf_In. auto.
  - exact (reg_teacher_active _ Hreg).
Qed.

Lemma reachable_registered_witness :
  exists tr, In tr (Storage.user exampleDb) /\ Storage.type tr = Storage.TeacherType
             /\ In (Storage.mkRow 5 Storage.StudentType "s3@student.com" true)
                   (Storage.studentsOf exampleDb (Storage.id tr)).
Proof.
  apply (proj1 (proj2 (reachable_registered exampleDb exampleDb_reachable))).
  - simpl. auto 10.
  - reflexivity.
Defined.

(* ================================================================== *)
(** ** Further properties: a registration and the other teachers *)

Lemma studentsOf_frame db db' added links tid t' :
  wellFormed db ->
  Storage.user db' = Storage.user db ++ added ->
  Storage.teacher_students db' = Storage.teacher_students db ++ links ->
  (forall r, In r added -> Storage.nextId db <= Storage.id r) ->
  (forall j, In j links -> fst j = tid) ->
  t' <> tid ->
  Storage.studentsOf db' t' = Storage.studentsOf db t'.
Proof.
  intros Hwf Hu Hj Hfresh Hlinks Hne. unfold Storage.studentsOf.
  rewrite Hj, flat_map_app, Hu.
  rewrite (flat_map_all_nil _ links).
  2:{ intros j Hin. rewrite (Hlinks j Hin).
      destruct (tid =? t') eqn:E; [|reflexivity]. apply Nat.eqb_eq in E. congruence. }
  rewrite app_nil_r. apply flat_map_ext_In. intros j Hin.
  destruct (fst j =? t'); [|reflexivity].
  rewrite filter_app. rewrite (filter_none _ added); [apply app_nil_r|].
  intros r Hr. apply Nat.eqb_neq. intros E.
  pose proof (wf_link_student _ Hwf) as Hl. rewrite Forall_forall in Hl.
  destruct (Hl _ Hin) as (r0 & Hr0 & Hid & _).
  pose proof (nextId_fresh _ _ Hr0). pose proof (Hfresh _ Hr). lia.
Qed.

(** X12. A registration for one teacher leaves every other teacher as it
    was: for an email that differs from the teacher's beyond case,
    [Teacher.findOne] returns after the request what it returned before: the
    same teacher or none, with the same roster, member by member. *)
Theorem registerStudents_frame db teacherEmail studentEmails other :
  wellFormed db ->
  normalize other <> normalize teacherEmail ->
  Teacher.findOne (fst (ApiController.registerStudents db teacherEmail studentEmails)) other
  = Teacher.findOne db other.
Proof.
  intros Hwf Hne.
  destruct (ApiController.registerStudents db teacherEmail studentEmails)
    as [db' reply] eqn:Hreg.
  assert (Hcase : reply = Response 204 NoBody \/ db' = db).
  { pose proof (registerStudents_replies_cases db teacherEmail studentEmails) as H.
    rewrite Hreg in H. exact H. }
  destruct Hcase as [-> | ->]; [|reflexivity]. simpl.
  apply registerStudents_saved in Hreg.
  destruct Hreg as (teacher & students & _ & Ht & _ & Hsave).
  apply save_added in Hsave.
  destruct Hsave as (tid & added & links & Hu & Hj & Htid & Hfresh & Hteach & _ & Hlinks & _).
  simpl in Htid, Hteach.
  apply findOrCreate_Return in Ht. destruct Ht as [_ Ht].
  assert (Hadded : forall r, In r added -> Storage.hasEmail Storage.TeacherType other r = false).
  { intros r Hr. destruct (Storage.hasEmail Storage.TeacherType other r) eqn:E; [|reflexivity].
    exfalso. apply hasEmail_true in E. destruct E as [Hty Hk].
    destruct (Hteach r Hr Hty) as [Hnone ->].
    destruct Ht as [(tr & _ & ->) | (_ & ->)]; simpl in *; [discriminate|].
    rewrite normalize_idem in Hk. congruence. }
  unfold Teacher.findOne, Storage.findOne. rewrite Hu.
  destruct (find (Storage.hasEmail Storage.TeacherType other) (Storage.user db))
    as [r'|] eqn:Hf.
  - rewrite (find_app_Some _ _ _ _ Hf). simpl. unfold Teacher.ofRow. f_equal. f_equal.
    f_equal.
    assert (Hf' : Storage.findOne db Storage.TeacherType other = Some r') by exact Hf.
    apply findOne_Some in Hf'. destruct Hf' as (Hr' & Hty' & Hk').
    apply (studentsOf_frame db db' added links tid); auto.
    + intros j Hin. exact (proj1 (Hlinks j Hin)).
    + intros E.
      destruct Ht as [(tr & Hftr & ->) | (_ & ->)]; simpl in Htid.
      * apply findOne_Some in Hftr. destruct Hftr as (Htr & _ & Hktr).
        rewrite normalize_idem in Hktr. subst tid.
        rewrite (wellFormed_id_inj _ _ _ Hwf Hr' Htr E) in Hk'. congruence.
      * destruct Htid as [-> _]. pose proof (nextId_fresh _ _ Hr'). lia.
  - rewrite (find_app_None _ _ _ Hf), (find_all_false _ _ Hadded). reflexivity.
Qed.

Lemma registerStudents_frame_witness :
  Teacher.findOne
    (fst (ApiController.registerStudents exampleDb "t2@teacher.com" ["s9@student.com"]))
    "T1@teacher.com"
  = Teacher.findOne exampleDb "T1@teacher.com".
Proof.
  apply (registerStudents_frame exampleDb "t2@teacher.com" ["s9@student.com"]
                                "T1@teacher.com" exampleDb_wellFormed).
  vm_compute. discriminate.
Defined.

(* ================================================================== *)
(** ** Further properties: when a registration is saved *)

Lemma findOrCreateByEmails_lists db emails :
  ~ In "" emails ->
  Student.findOrCreateByEmails db emails
  = Return (map Student.ofRow (existingRows db emails)
            ++ map Student.new (missingEmails db emails)).
Proof.
  intros H. destruct emails as [|e emails].
  { unfold existingRows, missingEmails, User.queryByEmails. simpl.
    rewrite whereEmailIn_nil. reflexivity. }
  apply existsb_empty_not_In in H. unfold Student.findOrCreateByEmails. rewrite H.
  reflexivity.
Qed.

Lemma existingRows_In db emails r :
  In r (existingRows db emails)
  <-> In r (Storage.user db) /\ Storage.type r = Storage.StudentType
      /\ In (key r) (map normalize emails).
Proof.
  unfold existingRows, User.queryByEmails. rewrite whereEmailIn_In, map_normalize_idem.
  tauto.
Qed.

Lemma missingEmails_test db emails x :
  negb (JS.has (JS.Set_from (map Student.email
                               (map Student.ofRow (existingRows db emails)))) x) = true
  <-> ~ In x (map Storage.email (existingRows db emails)).
Proof.
  rewrite negb_true_iff, has_Set_from, map_email_ofRow. apply includes_false.
Qed.

Lemma missingEmails_In db emails x :
  wellFormed db ->
  In x (missingEmails db emails)
  <-> exists e, In e emails /\ x = normalize e /\ ~ studentStored db e.
Proof.
  intros Hwf. unfold missingEmails. rewrite filter_In, missingEmails_test. split.
  - intros [Hx Hno]. apply in_map_iff in Hx. destruct Hx as (e & <- & He).
    exists e. split; [exact He|]. split; [reflexivity|].
    intros (r & Hr & Hty & Hk). apply Hno. apply in_map_iff. exists r. split.
    + rewrite <- Hk. symmetry. apply (wellFormed_stored_lower _ _ Hwf Hr).
    + apply existingRows_In. split; [exact Hr|]. split; [exact Hty|].
      unfold key. rewrite Hk. apply in_map. exact He.
  - intros (e & He & -> & Hno). split; [apply in_map; exact He|].
    intros Hin. apply Hno. apply in_map_iff in Hin. destruct Hin as (r & Hk & Hr).
    apply existingRows_In in Hr. destruct Hr as (Hr & Hty & _).
    exists r. split; [exact Hr|]. split; [exact Hty|].
    rewrite Hk. apply normalize_idem.
Qed.

Lemma missingEmails_lower db emails x :
  In x (missingEmails db emails) -> normalize x = x.
Proof.
  unfold missingEmails. rewrite filter_In. intros [Hx _].
  apply in_map_iff in Hx. destruct Hx as (e & <- & _). apply normalize_idem.
Qed.

Lemma missingEmails_NoDup db emails :
  wellFormed db ->
  NoDup (missingEmails db emails)
  <-> forall e, ~ studentStored db e ->
                count_occ string_dec (map normalize emails) (normalize e) <= 1.
Proof.
  intros Hwf. rewrite (NoDup_count_occ string_dec). split.
  - intros H e Hno. specialize (H (normalize e)). unfold missingEmails in H.
    rewrite count_occ_filter_true in H; [exact H|].
    apply missingEmails_test. intros Hin. apply Hno.
    apply in_map_iff in Hin. destruct Hin as (r & Hk & Hr).
    apply existingRows_In in Hr. destruct Hr as (Hr & Hty & _).
    exists r. split; [exact Hr|]. split; [exact Hty|]. rewrite Hk. apply normalize_idem.
  - intros H x.
    destruct (in_dec string_dec x (missingEmails db emails)) as [Hin | Hout].
    + pose proof Hin as Hin'. apply (missingEmails_In _ _ _ Hwf) in Hin'.
      destruct Hin' as (e & He & -> & Hno).
      unfold missingEmails in *. apply filter_In in Hin. destruct Hin as [_ Hp].
      rewrite count_occ_filter_true; [|exact Hp]. apply H. exact Hno.
    + apply (count_occ_not_In string_dec) in Hout. rewrite Hout. lia.
Qed.

(** A cascade over new students only: it succeeds when their emails are
    distinct and none is taken. *)
Lemma cascade_new l : forall db,
  (forall e, In e l -> normalize e = e) ->
  ((exists res, Teacher.cascade db (map Student.new l) = Some res)
   <-> NoDup l /\ forall e r, In e l -> In r (Storage.user db) -> key r <> e).
Proof.
  induction l as [|e l IH]; intros db Hlow; simpl.
  - split; [intros _; split; [constructor|intros e r []]|intros _; eauto].
  - assert (He : normalize e = e) by (apply Hlow; left; reflexivity).
    assert (Hlow' : forall e', In e' l -> normalize e' = e')
      by (intros e' H; apply Hlow; right; exact H).
    destruct (Storage.insert db Storage.StudentType e false) as [[db1 i]|] eqn:Hins.
    + pose proof (insert_Some _ _ _ _ _ _ Hins) as (Hfree & _ & Hdb1).
      rewrite He in Hfree.
      assert (Hu1 : Storage.user db1
                    = Storage.user db ++ [Storage.mkRow i Storage.StudentType e false])
        by (rewrite Hdb1; reflexivity).
      specialize (IH db1 Hlow'). split.
      * intros [res Hres].
        destruct (Teacher.cascade db1 (map Student.new l)) as [[db2 ids]|] eqn:Hc;
          [|discriminate].
        destruct (proj1 IH (ex_intro _ _ eq_refl)) as [Hnd Hfree1]. split.
        -- constructor; [|exact Hnd]. intros Hin.
           apply (Hfree1 e (Storage.mkRow i Storage.StudentType e false) Hin).
           ++ rewrite Hu1. apply in_or_app. right. left. reflexivity.
           ++ exact He.
        -- intros e' r [<- | Hin] Hr; [apply Hfree; exact Hr|].
           apply Hfree1; [exact Hin|]. rewrite Hu1. apply in_or_app. auto.
      * intros [Hnd Hfree']. inversion Hnd as [|? ? Hnotin Hnd']; subst.
        destruct (proj2 IH) as [[db2 ids] Hres].
        { split; [exact Hnd'|]. intros e' r Hin Hr. rewrite Hu1 in Hr.
          apply in_app_or in Hr. destruct Hr as [Hr | [<- | []]].
          - apply Hfree'; [right; exact Hin|exact Hr].
          - unfold key. simpl. rewrite He. intros ->. contradiction. }
        rewrite Hres. eauto.
    + apply insert_None in Hins. destruct Hins as (r & Hr & Hk). rewrite He in Hk.
      split; [intros [res Hres]; discriminate|].
      intros [_ Hfree]. exfalso. exact (Hfree e r (or_introl eq_refl) Hr Hk).
Qed.

(** [save] of a teacher whose roster is made of loaded students followed
    by new ones. *)
Lemma save_loaded_new db tid email rows l :
  (forall e, In e l -> normalize e = e) ->
  ((exists db', Teacher.save db (Teacher.mk tid email
                                   (map Student.ofRow rows ++ map Student.new l))
                = Some db')
   <-> NoDup l
       /\ (forall e r, In e l -> In r (Storage.user db) -> key r <> e)
       /\ (tid = None ->
           (forall r, In r (Storage.user db) -> key r <> normalize email)
           /\ ~ In (normalize email) l)).
Proof.
  intros Hlow. unfold Teacher.save. cbn [Teacher.id Teacher.email Teacher.students].
  destruct tid as [i|].
  - rewrite cascade_loaded. pose proof (cascade_new l db Hlow) as Hc.
    destruct (Teacher.cascade db (map Student.new l)) as [[db2 ids]|].
    + split; [intros _|eauto].
      destruct (proj1 Hc (ex_intro _ _ eq_refl)) as [H1 H2].
      split; [exact H1|]. split; [exact H2|discriminate].
    + split; [intros [db' H]; discriminate|].
      intros (H1 & H2 & _). destruct (proj2 Hc (conj H1 H2)) as [res Hres]. discriminate.
  - destruct (Storage.insert db Storage.TeacherType email false) as [[db1 i]|] eqn:Hins.
    + pose proof (insert_Some _ _ _ _ _ _ Hins) as (Hfree & _ & Hdb1).
      assert (Hu1 : Storage.user db1
                    = Storage.user db ++ [Storage.mkRow i Storage.TeacherType email false])
        by (rewrite Hdb1; reflexivity).
      rewrite cascade_loaded. pose proof (cascade_new l db1 Hlow) as Hc.
      destruct (Teacher.cascade db1 (map Student.new l)) as [[db2 ids]|].
      * split; [intros _|eauto].
        destruct (proj1 Hc (ex_intro _ _ eq_refl)) as [H1 H2].
        split; [exact H1|]. split; [|intros _; split; [exact Hfree|]].
        -- intros e r He Hr. apply H2; [exact He|]. rewrite Hu1. apply in_or_app. auto.
        -- intros Hin.
           apply (H2 _ (Storage.mkRow i Storage.TeacherType email false) Hin);
             [|reflexivity].
           rewrite Hu1. apply in_or_app. right. left. reflexivity.
      * split; [intros [db' H]; discriminate|].
        intros (H1 & H2 & H3). destruct (H3 eq_refl) as [_ H4].
        destruct (proj2 Hc) as [res Hres]; [|discriminate].
        split; [exact H1|]. intros e r He Hr. rewrite Hu1 in Hr.
        apply in_app_or in Hr. destruct Hr as [Hr | [<- | []]].
        -- apply H2; assumption.
        -- unfold key. simpl. intros E. rewrite E in H4. contradiction.
    + apply insert_None in Hins. destruct Hins as (r & Hr & Hk).
      split; [intros [db' H]; discriminate|].
      intros (_ & _ & H3). destruct (H3 eq_refl) as [H4 _]. exfalso. exact (H4 r Hr Hk).
Qed.

Lemma stored_types_exclusive db e :
  wellFormed db -> teacherStored db e -> studentStored db e -> False.
Proof.
  intros Hwf (r & Hr & Hty & Hk) (r' & Hr' & Hty' & Hk').
  assert (r = r') by (apply (wellFormed_uniqueEmails _ Hwf); auto; congruence).
  subst r'. congruence.
Qed.

Lemma row_stored db r :
  In r (Storage.user db) -> teacherStored db (key r) \/ studentStored db (key r).
Proof.
  intros Hr. destruct (Storage.type r) eqn:Hty; [left|right]; exists r;
    (split; [exact Hr|]; split; [exact Hty|]); unfold key; symmetry; apply normalize_idem.
Qed.

Lemma teacherStored_casing db e e' :
  normalize e = normalize e' -> teacherStored db e -> teacherStored db e'.
Proof. intros H (r & Hr & Hty & Hk). exists r. repeat split; auto. congruence. Qed.

Lemma studentStored_casing db e e' :
  normalize e = normalize e' -> studentStored db e -> studentStored db e'.
Proof. intros H (r & Hr & Hty & Hk). exists r. repeat split; auto. congruence. Qed.

Lemma studentStored_dec db e : studentStored db e \/ ~ studentStored db e.
Proof.
  destruct (Storage.findOne db Storage.StudentType e) as [r|] eqn:Hf.
  - left. apply findOne_Some in Hf. destruct Hf as (Hr & Hty & Hk). exists r. auto.
  - right. apply studentStored_findOne. exact Hf.
Qed.

Lemma missingEmails_free db ss :
  wellFormed db ->
  (forall e r, In e (missingEmails db ss) -> In r (Storage.user db) -> key r <> e)
  <-> (forall e, In e ss -> ~ teacherStored db e).
Proof.
  intros Hwf. split.
  - intros H e He Ht.
    assert (Hin : In (normalize e) (missingEmails db ss)).
    { apply (missingEmails_In _ _ _ Hwf). exists e. split; [exact He|].
      split; [reflexivity|]. intros Hs. exact (stored_types_exclusive _ _ Hwf Ht Hs). }
    destruct Ht as (r & Hr & _ & Hk). exact (H _ r Hin Hr Hk).
  - intros H x r Hx Hr Hk. apply (missingEmails_In _ _ _ Hwf) in Hx.
    destruct Hx as (e & He & -> & Hno).
    destruct (row_stored db r Hr) as [Ht | Hs].
    + apply (H e He). apply (teacherStored_casing db (key r)); [|exact Ht].
      rewrite Hk. apply normalize_idem.
    + apply Hno. apply (studentStored_casing db (key r)); [|exact Hs].
      rewrite Hk. apply normalize_idem.
Qed.

Lemma missing_not_on_roster db ss t e :
  wellFormed db -> In e (missingEmails db ss) ->
  negb (JS.has (JS.Set_from (map Student.email
                               (map Student.ofRow (Storage.studentsOf db t)))) e) = true.
Proof.
  intros Hwf He. rewrite negb_true_iff, has_Set_from, map_email_ofRow.
  apply includes_false. intros Hin. apply in_map_iff in Hin. destruct Hin as (r & Hk & Hr).
  pose proof (roster_rows_are_students _ _ _ Hwf Hr) as Hty.
  apply studentsOf_In in Hr. destruct Hr as [Hr _].
  apply (missingEmails_In _ _ _ Hwf) in He. destruct He as (e0 & _ & -> & Hno).
  apply Hno. exists r. split; [exact Hr|]. split; [exact Hty|].
  rewrite Hk. apply normalize_idem.
Qed.

(** The request as one [save], for a teacher that is stored ... *)
Lemma registerStudents_found db t ss tr :
  wellFormed db -> ~ In t ss -> t <> "" -> ~ In "" ss ->
  Storage.findOne db Storage.TeacherType (normalize t) = Some tr ->
  exists rows,
    ApiController.registerStudents db t ss
    = match Teacher.save db (Teacher.mk (Some (Storage.id tr)) (Storage.email tr)
                               (map Student.ofRow rows
                                ++ map Student.new (missingEmails db ss))) with
      | None => (db, Response 500 NoBody)
      | Some db' => (db', Response 204 NoBody)
      end.
Proof.
  intros Hwf Hnin Hte Hne Hf. eexists.
  unfold ApiController.registerStudents.
  rewrite (proj2 (includes_false _ _) Hnin).
  unfold Teacher.findOrCreate, Teacher.findOne.
  destruct (String.length t =? 0) eqn:El; [apply length_zero_empty in El; contradiction|].
  rewrite Hf. cbn [option_map]. rewrite (findOrCreateByEmails_lists _ _ Hne).
  match goal with |- context [Teacher.save db ?x] =>
    replace x with (Teacher.mk (Some (Storage.id tr)) (Storage.email tr)
                      (map Student.ofRow
                         (Storage.studentsOf db (Storage.id tr)
                          ++ filter (fun r =>
                               negb (JS.has (JS.Set_from
                                      (map Student.email
                                         (map Student.ofRow
                                            (Storage.studentsOf db (Storage.id tr)))))
                                      (Student.email (Student.ofRow r))))
                               (existingRows db ss))
                       ++ map Student.new (missingEmails db ss)))
  end; [reflexivity|].
  unfold Teacher.pushAll, Teacher.ofRow.
  cbn [Teacher.id Teacher.email Teacher.students]. f_equal.
  rewrite filter_app, !filter_map_swap, map_app, <- app_assoc. f_equal. f_equal. f_equal.
  symmetry. apply filter_all. intros e He. cbn [Student.email Student.new].
  exact (missing_not_on_roster db ss _ e Hwf He).
Qed.

(** ... and for a teacher that is not. *)
Lemma registerStudents_new db t ss :
  ~ In t ss -> t <> "" -> ~ In "" ss ->
  Storage.findOne db Storage.TeacherType (normalize t) = None ->
  ApiController.registerStudents db t ss
  = match Teacher.save db (Teacher.mk None (normalize t)
                             (map Student.ofRow (existingRows db ss)
                              ++ map Student.new (missingEmails db ss))) with
    | None => (db, Response 500 NoBody)
    | Some db' => (db', Response 204 NoBody)
    end.
Proof.
  intros Hnin Hte Hne Hf.
  unfold ApiController.registerStudents.
  rewrite (proj2 (includes_false _ _) Hnin).
  unfold Teacher.findOrCreate, Teacher.findOne.
  destruct (String.length t =? 0) eqn:El; [apply length_zero_empty in El; contradiction|].
  rewrite Hf. cbn [option_map]. rewrite (findOrCreateByEmails_lists _ _ Hne).
  unfold Teacher.pushAll. cbn [Teacher.id Teacher.email Teacher.students app].
  rewrite filter_all; [reflexivity|]. intros s _. reflexivity.
Qed.

(** X13. The answer of [registerStudents] to a request that passes the
    self-registration check and has no empty email, in a well-formed state:
    204 or 500, and 204 exactly when the teacher email is not the email of
    a stored Student, no student email is the email of a stored Teacher or
    equal to the teacher email up to case, and no email without a stored
    Student occurs twice (up to case) in the list. *)
Theorem registerStudents_status db teacherEmail studentEmails :
  wellFormed db -> ~ In teacherEmail studentEmails ->
  teacherEmail <> "" -> ~ In "" studentEmails ->
  (snd (ApiController.registerStudents db teacherEmail studentEmails) = Response 204 NoBody
   \/ snd (ApiController.registerStudents db teacherEmail studentEmails)
      = Response 500 NoBody)
  /\ (snd (ApiController.registerStudents db teacherEmail studentEmails)
      = Response 204 NoBody
      <-> ~ studentStored db teacherEmail
          /\ (forall e, In e studentEmails ->
                ~ teacherStored db e /\ normalize e <> normalize teacherEmail)
          /\ (forall e, ~ studentStored db e ->
                count_occ string_dec (map normalize studentEmails) (normalize e) <= 1)).
Proof.
  intros Hwf Hnin Hte Hne.
  rewrite <- (missingEmails_NoDup db studentEmails Hwf).
  destruct (Storage.findOne db Storage.TeacherType (normalize teacherEmail)) as [tr|] eqn:Hf.
  - destruct (registerStudents_found _ _ _ _ Hwf Hnin Hte Hne Hf) as (rows & ->).
    pose proof (save_loaded_new db (Some (Storage.id tr)) (Storage.email tr) rows
                  (missingEmails db studentEmails) (missingEmails_lower db studentEmails))
      as Hs.
    apply findOne_Some in Hf. destruct Hf as (Htr & Hty & Hk).
    rewrite normalize_idem in Hk.
    assert (Ht : teacherStored db teacherEmail) by (exists tr; auto).
    match type of Hs with
    | (exists _, ?s = _) <-> _ => destruct s as [db'|]
    end; simpl.
    + split; [left; reflexivity|]. split; [intros _|reflexivity].
      destruct (proj1 Hs (ex_intro _ _ eq_refl)) as (S1 & S2 & _).
      rewrite (missingEmails_free _ _ Hwf) in S2.
      split; [exact (stored_types_exclusive _ _ Hwf Ht)|]. split; [|exact S1].
      intros e He. split; [exact (S2 e He)|]. intros E. apply (S2 e He).
      apply (teacherStored_casing db teacherEmail); [congruence|exact Ht].
    + split; [right; reflexivity|]. split; [discriminate|].
      intros (_ & G2 & G3). exfalso.
      destruct (proj2 Hs) as [db' H]; [|discriminate].
      split; [exact G3|]. split; [|discriminate].
      apply (missingEmails_free _ _ Hwf). intros e He. exact (proj1 (G2 e He)).
  - rewrite (registerStudents_new _ _ _ Hnin Hte Hne Hf).
    pose proof (save_loaded_new db None (normalize teacherEmail)
                  (existingRows db studentEmails)
                  (missingEmails db studentEmails) (missingEmails_lower db studentEmails))
      as Hs.
    rewrite normalize_idem in Hs.
    assert (Hnt : ~ teacherStored db teacherEmail).
    { apply teacherStored_findOne. rewrite <- Hf. apply findOne_casing.
      symmetry. apply normalize_idem. }
    match type of Hs with
    | (exists _, ?s = _) <-> _ => destruct s as [db'|]
    end; simpl.
    + split; [left; reflexivity|]. split; [intros _|reflexivity].
      destruct (proj1 Hs (ex_intro _ _ eq_refl)) as (S1 & S2 & S3).
      destruct (S3 eq_refl) as [S3a S3b].
      rewrite (missingEmails_free _ _ Hwf) in S2.
      assert (G1 : ~ studentStored db teacherEmail).
      { intros (r & Hr & _ & Hk). exact (S3a r Hr Hk). }
      split; [exact G1|]. split; [|exact S1].
      intros e He. split; [exact (S2 e He)|]. intros E.
      destruct (studentStored_dec db e) as [Hse | Hse].
      * apply G1. exact (studentStored_casing _ _ _ E Hse).
      * apply S3b. rewrite <- E. apply (missingEmails_In _ _ _ Hwf). eauto.
    + split; [right; reflexivity|]. split; [discriminate|].
      intros (G1 & G2 & G3). exfalso.
      destruct (proj2 Hs) as [db' H]; [|discriminate].
      split; [exact G3|]. split.
      * apply (missingEmails_free _ _ Hwf). intros e He. exact (proj1 (G2 e He)).
      * intros _. split.
        -- intros r Hr Hk. destruct (row_stored db r Hr) as [Ht | Hst].
           ++ apply Hnt. apply (teacherStored_casing db (key r)); [|exact Ht].
              rewrite Hk. apply normalize_idem.
           ++ apply G1. apply (studentStored_casing db (key r)); [|exact Hst].
              rewrite Hk. apply normalize_idem.
        -- intros Hin. apply (missingEmails_In _ _ _ Hwf) in Hin.
           destruct Hin as (e & He & E & _). apply (proj2 (G2 e He)). symmetry. exact E.
Qed.

Lemma registerStudents_status_witness :
  (snd (ApiController.registerStudents exampleDb "T3@teacher.com"
          ["S1@student.com"; "s7@student.com"]) = Response 204 NoBody
   \/ snd (ApiController.registerStudents exampleDb "T3@teacher.com"
             ["S1@student.com"; "s7@student.com"]) = Response 500 NoBody)
  /\ (snd (ApiController.registerStudents exampleDb "T3@teacher.com"
             ["S1@student.com"; "s7@student.com"]) = Response 204 NoBody
      <-> ~ studentStored exampleDb "T3@teacher.com"
          /\ (forall e, In e ["S1@student.com"; "s7@student.com"] ->
                ~ teacherStored exampleDb e /\ normalize e <> normalize "T3@teacher.com")
          /\ (forall e, ~ studentStored exampleDb e ->
                count_occ string_dec (map normalize ["S1@student.com"; "s7@student.com"])
                          (normalize e) <= 1)).
Proof.
  apply (registerStudents_status exampleDb "T3@teacher.com"
           ["S1@student.com"; "s7@student.com"] exampleDb_wellFormed).
  - simpl. intuition discriminate.
  - discriminate.
  - simpl. intuition discriminate.
Defined.

(* ================================================================== *)
(** ** Further properties: the roster after a registration *)

Lemma studentsOf_email_In db t x :
  In x (map Storage.email (Storage.studentsOf db t))
  <-> exists r, In r (Storage.user db) /\ In (t, Storage.id r) (Storage.teacher_students db)
                /\ Storage.email r = x.
Proof.
  rewrite in_map_iff. split.
  - intros (r & Hx & Hr). apply studentsOf_In in Hr. exists r. tauto.
  - intros (r & Hr & Hj & Hx). exists r. split; [exact Hx|]. apply studentsOf_In. auto.
Qed.

Lemma registerStudents_roster_of db teacherEmail studentEmails db' :
  reachable db ->
  ApiController.registerStudents db teacherEmail studentEmails
  = (db', Response 204 NoBody) ->
  teacherStored db' teacherEmail
  /\ NoDup (rosterOf db' teacherEmail)
  /\ forall x, In x (rosterOf db' teacherEmail)
               <-> In x (rosterOf db teacherEmail) \/ In x (map normalize studentEmails).
Proof.
  intros Hreach Hreg.
  pose proof (reachable_wellFormed _ Hreach) as Hwf.
  pose proof (reachable_registered_inv _ Hreach) as Hinv.
  assert (Hwf' : wellFormed db').
  { pose proof (registerStudents_wellFormed db teacherEmail studentEmails Hwf) as H.
    rewrite Hreg in H. exact H. }
  apply registerStudents_saved in Hreg.
  destruct Hreg as (teacher & students & _ & Ht & Hs & Hsave).
  assert (Hne : ~ In "" studentEmails).
  { apply findOrCreateByEmails_Return in Hs. apply existsb_empty_not_In. tauto. }
  rewrite (findOrCreateByEmails_lists _ _ Hne) in Hs. injection Hs as <-.
  apply save_added in Hsave.
  destruct Hsave as (tid & added & links & Hu & Hj & Htid & _ & _ & _ & Hlinks & Hroster).
  cbn [Teacher.pushAll Teacher.id Teacher.email Teacher.students] in Htid, Hlinks, Hroster.
  assert (Hold : forall r, In r (Storage.user db) -> In r (Storage.user db'))
    by (intros r Hr; rewrite Hu; apply in_or_app; auto).
  assert (Holdj : forall j, In j (Storage.teacher_students db) ->
                            In j (Storage.teacher_students db'))
    by (intros j Hin; rewrite Hj; apply in_or_app; auto).
  assert (K : exists trow,
             In trow (Storage.user db') /\ Storage.type trow = Storage.TeacherType
             /\ key trow = normalize teacherEmail /\ Storage.id trow = tid
             /\ (forall x, In x (rosterOf db teacherEmail)
                           <-> In x (map Storage.email (Storage.studentsOf db tid)))
             /\ (forall r, In r (Storage.user db') ->
                           In (tid, Storage.id r) (Storage.teacher_students db) ->
                           In r (Storage.user db))
             /\ (forall s, In s (Teacher.students teacher) ->
                           exists r0, In r0 (Storage.user db) /\ s = Student.ofRow r0
                                      /\ In (Storage.email r0) (rosterOf db teacherEmail))).
  { apply findOrCreate_Return in Ht. destruct Ht as [_ [(tr & Hf & ->) | (Hf & ->)]];
      cbn [Teacher.ofRow Teacher.id Teacher.students] in *.
    - apply findOne_Some in Hf. destruct Hf as (Htr & Hty & Hk).
      rewrite normalize_idem in Hk. subst tid.
      assert (Hro : rosterOf db teacherEmail
                    = map Storage.email (Storage.studentsOf db (Storage.id tr)))
        by (apply rosterOf_row; assumption).
      exists tr. split; [auto|]. split; [exact Hty|]. split; [exact Hk|].
      split; [reflexivity|]. split; [rewrite Hro; tauto|]. split.
      + intros r Hr Hin.
        pose proof (wf_link_student _ Hwf) as Hl. rewrite Forall_forall in Hl.
        destruct (Hl _ Hin) as (r0 & Hr0 & Hid & _). simpl in Hid.
        rewrite (wellFormed_id_inj _ _ _ Hwf' Hr (Hold _ Hr0) (eq_sym Hid)). exact Hr0.
      + intros s Hin. apply in_map_iff in Hin. destruct Hin as (r0 & <- & Hr0).
        exists r0. split; [apply studentsOf_In in Hr0; tauto|]. split; [reflexivity|].
        rewrite Hro. apply in_map. exact Hr0.
    - destruct Htid as [-> Hin].
      assert (Hro : rosterOf db teacherEmail = []).
      { unfold rosterOf, Teacher.findOne.
        rewrite (findOne_casing db _ teacherEmail (normalize teacherEmail)), Hf;
          [reflexivity|symmetry; apply normalize_idem]. }
      assert (Hnone : forall s, ~ In (Storage.nextId db, s) (Storage.teacher_students db)).
      { intros s Hjin. destruct (reg_link_teacher _ Hinv _ _ Hjin) as (r & Hr & Hid & _).
        pose proof (nextId_fresh _ _ Hr). lia. }
      eexists. split; [rewrite Hu; apply in_or_app; right; exact Hin|].
      split; [reflexivity|]. split; [apply normalize_idem|]. split; [reflexivity|].
      split; [|split].
      + intros x. rewrite Hro, studentsOf_email_In. split; [intros []|].
        intros (r & _ & Hjin & _). exact (Hnone _ Hjin).
      + intros r _ Hjin. exfalso. exact (Hnone _ Hjin).
      + intros s []. }
  destruct K as (trow & Htrow & Htty & Htk & Htid' & Hro & Hback & Hloaded).
  assert (Hro' : rosterOf db' teacherEmail
                 = map Storage.email (Storage.studentsOf db' tid)).
  { rewrite <- Htid'. apply rosterOf_row; assumption. }
  split; [exists trow; split; [exact Htrow|]; split; [exact Htty|exact Htk]|].
  rewrite Hro'. split; [apply roster_NoDup; exact Hwf'|].
  intros x. rewrite Hro. split.
  - rewrite studentsOf_email_In. intros (r & Hr & Hjin & <-).
    rewrite Hj in Hjin. apply in_app_or in Hjin. destruct Hjin as [Hjin | Hjin].
    + left. apply studentsOf_email_In. exists r. split; [exact (Hback r Hr Hjin)|auto].
    + destruct (Hlinks _ Hjin) as (_ & s & Hs & Hmatch). cbn [snd] in Hmatch.
      apply in_app_or in Hs. destruct Hs as [Hs | Hs].
      * destruct (Hloaded s Hs) as (r0 & Hr0 & -> & Hin0). left.
        cbn [Student.ofRow Student.id] in Hmatch.
        rewrite (wellFormed_id_inj _ _ _ Hwf' Hr (Hold _ Hr0) Hmatch).
        apply Hro. exact Hin0.
      * right. apply filter_In in Hs. destruct Hs as [Hs _].
        apply in_app_or in Hs. destruct Hs as [Hs | Hs]; apply in_map_iff in Hs.
        -- destruct Hs as (r0 & <- & Hr0). cbn [Student.ofRow Student.id] in Hmatch.
           apply existingRows_In in Hr0. destruct Hr0 as (Hr0 & _ & Hk0).
           rewrite (wellFormed_id_inj _ _ _ Hwf' Hr (Hold _ Hr0) Hmatch).
           rewrite <- (wellFormed_stored_lower _ _ Hwf Hr0). exact Hk0.
        -- destruct Hs as (e & <- & He). cbn [Student.new Student.id Student.email
                                               Student.isSuspended] in Hmatch.
           rewrite (wellFormed_id_inj _ _ _ Hwf' Hr Hmatch eq_refl). simpl.
           unfold missingEmails in He. apply filter_In in He. tauto.
  - assert (Hpush : forall s,
               In s (map Student.ofRow (existingRows db studentEmails)
                     ++ map Student.new (missingEmails db studentEmails)) ->
               ~ In (Student.email s) (map Storage.email (Storage.studentsOf db tid)) ->
               exists i, In (tid, i) (Storage.teacher_students db')
                         /\ match Student.id s with
                            | Some j => i = j
                            | None => In (Storage.mkRow i Storage.StudentType
                                            (Student.email s) (Student.isSuspended s))
                                         (Storage.user db')
                            end).
    { intros s Hs Hout. apply Hroster. apply in_or_app. right. apply filter_In.
      split; [exact Hs|]. rewrite negb_true_iff, has_Set_from. apply includes_false.
      intros Hin. apply Hout. apply Hro. apply in_map_iff in Hin.
      destruct Hin as (s' & Hx & Hs'). destruct (Hloaded s' Hs') as (r0 & _ & _ & Hin0).
      rewrite <- Hx. destruct (Hloaded s' Hs') as (r1 & _ & -> & Hin1). exact Hin1. }
    intros [Hx | Hx].
    + apply studentsOf_email_In in Hx. destruct Hx as (r & Hr & Hjin & <-).
      apply studentsOf_email_In. exists r. auto.
    + destruct (in_dec string_dec x (map Storage.email (Storage.studentsOf db tid)))
        as [Hon | Hoff].
      { apply studentsOf_email_In in Hon. destruct Hon as (r & Hr & Hjin & <-).
        apply studentsOf_email_In. exists r. auto. }
      destruct (in_dec string_dec x (map Storage.email (existingRows db studentEmails)))
        as [Hex | Hmiss].
      * apply in_map_iff in Hex. destruct Hex as (r0 & <- & Hr0).
        destruct (Hpush (Student.ofRow r0)) as (i & Hi & Hm).
        -- apply in_or_app. left. apply in_map. exact Hr0.
        -- exact Hoff.
        -- cbn [Student.ofRow Student.id] in Hm. subst i.
           apply existingRows_In in Hr0. destruct Hr0 as (Hr0 & _).
           apply studentsOf_email_In. exists r0. auto.
      * destruct (Hpush (Student.new x)) as (i & Hi & Hm).
        -- apply in_or_app. right. apply in_map. unfold missingEmails. apply filter_In.
           split; [exact Hx|]. apply missingEmails_test. exact Hmiss.
        -- exact Hoff.
        -- cbn [Student.new Student.id Student.email Student.isSuspended] in Hm.
           apply studentsOf_email_In. eexists. split; [exact Hm|]. auto.
Qed.

(** X14. After a registration that answered 204, in a state the API can
    reach: the teacher is stored; the roster found under the teacher email
    holds exactly the emails it held before and the lower-cased emails of
    the request, each once; and an email of the request under which no
    Student was stored is now the email of a stored Student that is not
    suspended. *)
Theorem registerStudents_roster db teacherEmail studentEmails db' :
  reachable db ->
  ApiController.registerStudents db teacherEmail studentEmails
  = (db', Response 204 NoBody) ->
  teacherStored db' teacherEmail
  /\ NoDup (rosterOf db' teacherEmail)
  /\ (forall x, In x (rosterOf db' teacherEmail)
                <-> In x (rosterOf db teacherEmail) \/ In x (map normalize studentEmails))
  /\ (forall e, In e studentEmails -> ~ studentStored db e ->
        exists r, In r (Storage.user db') /\ Storage.type r = Storage.StudentType
                  /\ Storage.email r = normalize e /\ Storage.isSuspended r = false).
Proof.
  intros Hreach Hreg.
  destruct (registerStudents_roster_of _ _ _ _ Hreach Hreg) as (Hst & Hnd & Hro).
  split; [exact Hst|]. split; [exact Hnd|]. split; [exact Hro|].
  intros e He Hno.
  assert (Hwf' : wellFormed db').
  { pose proof (registerStudents_wellFormed db teacherEmail studentEmails
                  (reachable_wellFormed _ Hreach)) as H.
    rewrite Hreg in H. exact H. }
  assert (Hon : In (normalize e) (rosterOf db' teacherEmail))
    by (apply Hro; right; apply in_map; exact He).
  destruct Hst as (trow & Htrow & Hty & Hk).
  rewrite (rosterOf_row db' teacherEmail trow Hwf' Htrow Hty Hk) in Hon.
  apply in_map_iff in Hon. destruct Hon as (r0 & Hx & Hr0).
  pose proof (roster_rows_are_students _ _ _ Hwf' Hr0) as Hty0.
  apply studentsOf_In in Hr0. destruct Hr0 as [Hr0 _].
  exists r0. split; [exact Hr0|]. split; [exact Hty0|]. split; [exact Hx|].
  apply registerStudents_saved in Hreg.
  destruct Hreg as (teacher & students & _ & Ht & Hs & Hsave).
  assert (Hne : ~ In "" studentEmails).
  { apply findOrCreateByEmails_Return in Hs. apply existsb_empty_not_In. tauto. }
  rewrite (findOrCreateByEmails_lists _ _ Hne) in Hs. injection Hs as <-.
  apply save_added in Hsave.
  destruct Hsave as (tid & added & links & Hu & _ & _ & _ & _ & Hstud & _).
  cbn [Teacher.pushAll Teacher.students] in Hstud.
  rewrite Hu in Hr0. apply in_app_or in Hr0. destruct Hr0 as [Hr0 | Hr0].
  - exfalso. apply Hno. exists r0. split; [exact Hr0|]. split; [exact Hty0|].
    rewrite Hx. apply normalize_idem.
  - destruct (Hstud r0 Hr0 Hty0) as (_ & s & Hin & Hid & _ & ->).
    apply in_app_or in Hin. destruct Hin as [Hin | Hin].
    + apply findOrCreate_Return in Ht.
      destruct Ht as [_ [(tr & _ & ->) | (_ & ->)]]; cbn [Teacher.ofRow Teacher.students] in Hin;
        [|destruct Hin].
      apply in_map_iff in Hin. destruct Hin as (r1 & <- & _). discriminate Hid.
    + apply filter_In in Hin. destruct Hin as [Hin _].
      apply in_app_or in Hin. destruct Hin as [Hin | Hin]; apply in_map_iff in Hin;
        destruct Hin as (y & <- & _); [discriminate Hid|reflexivity].
Qed.

Lemma registerStudents_roster_witness :
  (forall x,
     In x (rosterOf (fst (ApiController.registerStudents exampleDb "T3@teacher.com"
                            ["S1@student.com"; "s7@student.com"])) "T3@teacher.com")
     <-> In x (rosterOf exampleDb "T3@teacher.com")
         \/ In x (map normalize ["S1@student.com"; "s7@student.com"]))
  /\ (forall e, In e ["S1@student.com"; "s7@student.com"] ->
        ~ studentStored exampleDb e ->
        exists r,
          In r (Storage.user (fst (ApiController.registerStudents exampleDb "T3@teacher.com"
                                     ["S1@student.com"; "s7@student.com"])))
          /\ Storage.type r = Storage.StudentType
          /\ Storage.email r = normalize e /\ Storage.isSuspended r = false).
Proof.
  apply (proj2 (proj2 (registerStudents_roster exampleDb "T3@teacher.com"
                         ["S1@student.com"; "s7@student.com"] _ exampleDb_reachable
                         eq_refl))).
Defined.

(* ================================================================== *)
(** ** Further properties: a suspension and the notifications *)

Lemma active_after_suspension db r rows x :
  wellFormed db -> In r (Storage.user db) ->
  (forall r0, In r0 rows -> In r0 (Storage.user db)) ->
  In x (map Storage.email
          (filter (fun u => negb (Storage.isSuspended u))
                  (map (fun r0 => if Storage.id r0 =? Storage.id r
                                  then Storage.mkRow (Storage.id r0) (Storage.type r0)
                                                     (Storage.email r0) true
                                  else r0) rows)))
  <-> In x (map Storage.email (filter (fun u => negb (Storage.isSuspended u)) rows))
      /\ x <> Storage.email r.
Proof.
  intros Hwf Hr Hrows. rewrite filter_map_swap, map_map, !in_map_iff. split.
  - intros (r0 & Hx & Hin). apply filter_In in Hin. destruct Hin as [Hin Hact].
    destruct (Storage.id r0 =? Storage.id r) eqn:E; [discriminate Hact|].
    split; [exists r0; split; [exact Hx|]; apply filter_In; auto|].
    intros Heq. apply Nat.eqb_neq in E. apply E. f_equal.
    apply (wellFormed_uniqueEmails _ Hwf); auto. congruence.
  - intros [(r0 & Hx & Hin) Hne]. apply filter_In in Hin. destruct Hin as [Hin Hact].
    exists r0.
    assert (E : (Storage.id r0 =? Storage.id r) = false).
    { apply Nat.eqb_neq. intros E. apply Hne. rewrite <- Hx. f_equal.
      apply (wellFormed_id_inj _ _ _ Hwf); auto. }
    rewrite E. split; [exact Hx|]. apply filter_In. rewrite E. auto.
Qed.

Lemma roster_active rows :
  map Student.email (filter (fun s => negb (Student.isSuspended s))
                            (map Student.ofRow rows))
  = map Storage.email (filter (fun u => negb (Storage.isSuspended u)) rows).
Proof. rewrite filter_map_swap, map_email_ofRow. reflexivity. Qed.

(** X15. [suspendStudent] followed by [listStudentsForNotification], in a
    well-formed state where a Student is stored under the email: every
    teacher gets the status it got before, and the recipients of a 200 are
    those of before without the suspended student's lower-cased email,
    whether it was on the roster or mentioned in the text. *)
Theorem suspendStudent_then_notification db studentEmail teacherEmail notification :
  wellFormed db -> studentStored db studentEmail ->
  (ApiController.listStudentsForNotification db teacherEmail notification
   = Response 404 (Message "teacher not found") ->
   ApiController.listStudentsForNotification
     (fst (ApiController.suspendStudent db studentEmail)) teacherEmail notification
   = Response 404 (Message "teacher not found"))
  /\ (forall before,
        ApiController.listStudentsForNotification db teacherEmail notification
        = Response 200 (Recipients before) ->
        exists after,
          ApiController.listStudentsForNotification
            (fst (ApiController.suspendStudent db studentEmail)) teacherEmail notification
          = Response 200 (Recipients after)
          /\ NoDup after
          /\ forall x, In x after <-> In x before /\ x <> normalize studentEmail).
Proof.
  intros Hwf (r & Hr & Hty & Hk).
  rewrite (suspendStudent_found db studentEmail r Hwf Hr Hty Hk). cbn [fst].
  assert (He : normalize studentEmail = Storage.email r).
  { rewrite <- Hk. apply (wellFormed_stored_lower _ _ Hwf Hr). }
  rewrite He. clear He Hk.
  unfold ApiController.listStudentsForNotification, Teacher.findOne.
  rewrite setSuspended_findOne.
  destruct (Storage.findOne db Storage.TeacherType teacherEmail) as [tr|];
    cbn [option_map]; [|split; [reflexivity|discriminate]].
  split; [discriminate|]. intros before Hbefore. injection Hbefore as <-.
  eexists. split; [reflexivity|]. split; [apply Set_from_NoDup|].
  intros x. rewrite !Set_from_In.
  unfold Teacher.ofRow. cbn [Teacher.students].
  replace (Storage.id (if Storage.id tr =? Storage.id r
                       then Storage.mkRow (Storage.id tr) (Storage.type tr)
                                          (Storage.email tr) true
                       else tr))
    with (Storage.id tr) by (destruct (Storage.id tr =? Storage.id r); reflexivity).
  rewrite setSuspended_studentsOf, !roster_active.
  assert (HA := active_after_suspension db r (Storage.studentsOf db (Storage.id tr)) x Hwf Hr).
  destruct (RegExp.match_ notification emailRegex) as [matches|].
  - rewrite !push_mentioned, !in_app_iff. unfold ApiController.mentioned.
    rewrite setSuspended_whereEmailIn.
    assert (HM := active_after_suspension db r
                    (Storage.whereEmailIn db Storage.StudentType matches) x Hwf Hr).
    rewrite HA, HM; [tauto| |].
    + intros r0 H0. apply whereEmailIn_In in H0. tauto.
    + intros r0 H0. apply studentsOf_In in H0. tauto.
  - apply HA. intros r0 H0. apply studentsOf_In in H0. tauto.
Qed.

Lemma suspendStudent_then_notification_witness :
  exists after,
    ApiController.listStudentsForNotification
      (fst (ApiController.suspendStudent exampleDb "S2@student.com")) "t1@teacher.com"
      "hello @s2@student.com"
    = Response 200 (Recipients after)
    /\ NoDup after
    /\ forall x, In x after
                 <-> In x ["s1@student.com"; "s2@student.com"]
                     /\ x <> normalize "S2@student.com".
Proof.
  apply (proj2 (suspendStudent_then_notification exampleDb "S2@student.com"
                  "t1@teacher.com" "hello @s2@student.com" exampleDb_wellFormed
                  (ex_intro _ (Storage.mkRow 3 Storage.StudentType "s2@student.com" false)
                     (conj (or_intror (or_intror (or_introl eq_refl)))
                           (conj eq_refl eq_refl))))).
  reflexivity.
Defined.

(* ================================================================== *)
(** ** Further properties: the query by emails *)



(* ================================================================== *)
(** ** Further properties: reading back a registration *)

(** X17. After a registration that answered 204, in a state the API can
    reach.  [GET /commonstudents] for this teacher alone answers 200 with
    the emails the roster held before and the lower-cased emails of the
    request, each once.  [POST /retrievefornotifications] for this teacher
    answers 200, whatever the text, and every student of the request that
    is not suspended is among the recipients. *)
Theorem registerStudents_then_read db teacherEmail studentEmails db' :
  reachable db ->
  ApiController.registerStudents db teacherEmail studentEmails
  = (db', Response 204 NoBody) ->
  (exists students,
     ApiController.listCommonStudents db' (Single teacherEmail)
     = Response 200 (Students students)
     /\ NoDup students
     /\ forall x, In x students
                  <-> In x (rosterOf db teacherEmail)
                      \/ In x (map normalize studentEmails))
  /\ (forall notification,
        exists recipients,
          ApiController.listStudentsForNotification db' teacherEmail notification
          = Response 200 (Recipients recipients)
          /\ forall e, In e studentEmails ->
               (forall r, In r (Storage.user db') ->
                          Storage.email r = normalize e ->
                          Storage.isSuspended r = false) ->
               In (normalize e) recipients).
Proof.
  intros Hreach Hreg.
  assert (Hwf' : wellFormed db').
  { pose proof (registerStudents_wellFormed db teacherEmail studentEmails
                  (reachable_wellFormed _ Hreach)) as H.
    rewrite Hreg in H. exact H. }
  destruct (registerStudents_roster_of _ _ _ _ Hreach Hreg) as (Hst & _ & Hro).
  split.
  - destruct (listCommonStudents_all_stored db' [teacherEmail] Hwf')
      as (students & Heq & Hnd & Hin).
    + repeat constructor. intros [].
    + intros e [<- | []]. exact Hst.
    + exists students. split; [exact Heq|]. split; [exact Hnd|].
      intros x. rewrite Hin, <- Hro. split.
      * intros [_ H]. apply H. left. reflexivity.
      * intros H. split; [discriminate|]. intros e [<- | []]. exact H.
  - intros notification. destruct Hst as (trow & Htrow & Hty & Hk).
    assert (Hfind := Teacher_findOne_row db' teacherEmail trow Hwf' Htrow Hty Hk).
    unfold ApiController.listStudentsForNotification. rewrite Hfind.
    eexists. split; [reflexivity|]. intros e He Hact.
    apply Set_from_In.
    assert (Hin : In (normalize e)
                     (map Student.email
                        (filter (fun s => negb (Student.isSuspended s))
                                (Teacher.students (Teacher.ofRow db' trow))))).
    { unfold Teacher.ofRow. cbn [Teacher.students]. rewrite roster_active.
      assert (Hon : In (normalize e) (rosterOf db' teacherEmail))
        by (apply Hro; right; apply in_map; exact He).
      rewrite (rosterOf_row db' teacherEmail trow Hwf' Htrow Hty Hk) in Hon.
      apply in_map_iff in Hon. destruct Hon as (r0 & Hx & Hr0).
      apply in_map_iff. exists r0. split; [exact Hx|]. apply filter_In.
      split; [exact Hr0|]. apply studentsOf_In in Hr0.
      rewrite (Hact r0 (proj1 Hr0) Hx). reflexivity. }
    destruct (RegExp.match_ notification emailRegex); [|exact Hin].
    rewrite push_mentioned. apply in_or_app. left. exact Hin.
Qed.

Lemma registerStudents_then_read_witness :
  exists students,
    ApiController.listCommonStudents
      (fst (ApiController.registerStudents exampleDb "T1@teacher.com" ["S3@student.com"]))
      (Single "T1@teacher.com")
    = Response 200 (Students students)
    /\ NoDup students
    /\ forall x, In x students
                 <-> In x (rosterOf exampleDb "T1@teacher.com")
                     \/ In x (map normalize ["S3@student.com"]).
Proof.
  apply (proj1 (registerStudents_then_read exampleDb "T1@teacher.com" ["S3@student.com"] _
                  exampleDb_reachable eq_refl)).
Defined.

